(** * AD_MotionDirector training node (nodes.py): embedding and properties

    The development follows [nodes.py].  Tensors are a shape together with
    an accessor on multi-indices.  For shapes, control flow and exceptions
    the entries are read as real numbers; where a statement is about the
    values the float arithmetic of the source returns (overflow, NaN),
    the function is embedded on IEEE 754 binary32 entries in [Float32].
    Random draws are explicit arguments.  Python exceptions are values of
    [exn] carried by [result]. *)

From Stdlib Require Import List ZArith QArith Qround Reals Lia Lra Bool Arith.
Import ListNotations.

(** ** Exceptions and results *)

Inductive exn : Type :=
| AssertionError
| IndexError
| ValueError
| RuntimeError
| NameError
| UnboundLocalError
| AttributeError
| ZeroDivisionError
| OSError.

Inductive result (A : Type) : Type :=
| Ok (a : A)
| Raise (e : exn).
Arguments Ok {A} a.
Arguments Raise {A} e.

Definition rbind {A B} (r : result A) (k : A -> result B) : result B :=
  match r with
  | Ok a => k a
  | Raise e => Raise e
  end.

Declare Scope result_scope.
Delimit Scope result_scope with result.
Notation "'let?' x ':=' r 'in' k" := (rbind r (fun x => k))
  (at level 10, x pattern, r at level 100, k at level 200) : result_scope.
Local Open Scope result_scope.

(** ** Tensors *)

Module Tensor.

Record tensor : Type := mk { shape : list nat; data : list nat -> R }.

Definition numel (t : tensor) : nat := fold_right Nat.mul 1%nat (shape t).

Definition insert_at {A} (d : nat) (x : A) (l : list A) : list A :=
  firstn d l ++ x :: skipn d l.

Definition remove_at {A} (d : nat) (l : list A) : list A :=
  firstn d l ++ skipn (S d) l.

(** [t.shape[d]]: raises IndexError when the tensor has no dimension [d]. *)
Definition dim (d : nat) (t : tensor) : result nat :=
  match nth_error (shape t) d with
  | Some n => Ok n
  | None => Raise IndexError
  end.

(** Integer indexing along dimension [d], all other dimensions kept in
    full. *)
Definition select (d i : nat) (t : tensor) : result tensor :=
  match nth_error (shape t) d with
  | Some n =>
      if (i <? n)%nat
      then Ok (mk (remove_at d (shape t))
                  (fun idx => data t (insert_at d i idx)))
      else Raise IndexError
  | None => Raise IndexError
  end.

(** An index of five terms, the [d]-th an integer and the others full
    slices: [t[:, :, i, :, :]] is [slice5 2 i t].  A tensor of fewer
    than five dimensions has too many indices. *)
Definition slice5 (d i : nat) (t : tensor) : result tensor :=
  if (length (shape t) <? 5)%nat then Raise IndexError else select d i t.

(** [t.unsqueeze(d)] *)
Definition unsqueeze (d : nat) (t : tensor) : tensor :=
  mk (insert_at d 1%nat (shape t)) (fun idx => data t (remove_at d idx)).

Fixpoint index_of (k : nat) (l : list nat) : nat :=
  match l with
  | [] => 0%nat
  | x :: l' => if (x =? k)%nat then 0%nat else S (index_of k l')
  end.

(** [t.permute] along [perm]: dimension [j] of the result is dimension
    [perm[j]] of [t]. *)
Definition permute (perm : list nat) (t : tensor) : tensor :=
  mk (map (fun p => nth p (shape t) 0%nat) perm)
     (fun idx =>
        data t (map (fun k => nth (index_of k perm) idx 0%nat)
                    (seq 0 (length (shape t))))).

(** torchvision's hflip: reverses the last dimension. *)
Definition hflip (t : tensor) : tensor :=
  let w := last (shape t) 0%nat in
  mk (shape t)
     (fun idx => data t (removelast idx ++ [(w - 1 - last idx 0)%nat])).

(** Broadcasting of two shapes, aligned at the trailing dimension. *)
Definition bdim (a b : nat) : option nat :=
  if (a =? b)%nat then Some a
  else if (a =? 1)%nat then Some b
  else if (b =? 1)%nat then Some a
  else None.

Fixpoint bshape_aligned (s1 s2 : list nat) : option (list nat) :=
  match s1, s2 with
  | [], [] => Some []
  | a :: s1', b :: s2' =>
      match bdim a b, bshape_aligned s1' s2' with
      | Some c, Some s => Some (c :: s)
      | _, _ => None
      end
  | _, _ => None
  end.

Definition pad (n : nat) (s : list nat) : list nat :=
  repeat 1%nat (n - length s) ++ s.

Definition broadcast_shapes (s1 s2 : list nat) : option (list nat) :=
  let n := Nat.max (length s1) (length s2) in
  bshape_aligned (pad n s1) (pad n s2).

Fixpoint bindex_aligned (s idx : list nat) : list nat :=
  match s, idx with
  | d :: s', i :: idx' =>
      (if (d =? 1)%nat then 0%nat else i) :: bindex_aligned s' idx'
  | _, _ => []
  end.

(** The index into an operand of shape [s] that a result index [idx]
    reads: leading result dimensions the operand lacks are dropped and
    dimensions of size one are read at 0. *)
Definition bindex (s idx : list nat) : list nat :=
  bindex_aligned s (skipn (length idx - length s) idx).

Definition binop (f : R -> R -> R) (a b : tensor) : result tensor :=
  match broadcast_shapes (shape a) (shape b) with
  | Some s =>
      Ok (mk s (fun idx => f (data a (bindex (shape a) idx))
                             (data b (bindex (shape b) idx))))
  | None => Raise RuntimeError
  end.

Definition add := binop Rplus.
Definition sub := binop Rminus.

(** Entrywise function of a tensor. *)
Definition tmap (f : R -> R) (t : tensor) : tensor :=
  mk (shape t) (fun idx => f (data t idx)).

(** Python scalar times tensor. *)
Definition smul (k : R) (t : tensor) : tensor :=
  mk (shape t) (fun idx => (k * data t idx)%R).

(** All multi-indices of a shape, in row-major order. *)
Fixpoint indices (s : list nat) : list (list nat) :=
  match s with
  | [] => [[]]
  | d :: s' => flat_map (fun i => map (cons i) (indices s')) (seq 0 d)
  end.

Definition sum_over (f : list nat -> R) (l : list (list nat)) : R :=
  fold_right (fun idx acc => (f idx + acc)%R) 0%R l.

(** [F.mse_loss(a, b, reduction="mean")]: the operands are broadcast
    against each other and the squared differences averaged.  On an empty
    tensor torch returns NaN; the quotient below is only meaningful for a
    positive number of elements, and statements about it assume one. *)
Definition mse_loss (a b : tensor) : result R :=
  let? d := sub a b in
  Ok (sum_over (fun idx => (data d idx * data d idx)%R) (indices (shape d))
      / INR (numel d))%R.

End Tensor.
Import Tensor.

(** ** Random draws

    [torch.randint(0, high, (1,)).item()]: an integer in [0, high); with
    [high = 0] torch raises.  The draw is an arbitrary natural reduced
    into the range, so every index of the range is produced by some
    draw and no other value ever is. *)
Definition randint (high : nat) (draw : nat) : result nat :=
  if (high =? 0)%nat then Raise RuntimeError else Ok (draw mod high)%nat.

(** ** sample_noise (lines 108-116) *)

(** [b, c, f, *_ = latents.shape] *)
Definition unpack_bcf (s : list nat) : result (nat * nat * nat) :=
  match s with
  | b :: c :: f :: _ => Ok (b, c, f)
  | _ => Raise ValueError
  end.

(** [gauss] stands for the draw of [torch.randn_like(latents)] and
    [offset] for the draw of [torch.randn(b, c, f, 1, 1)]. *)
Definition sample_noise (latents : tensor) (noise_strength : R)
    (use_offset_noise : bool)
    (gauss offset : list nat -> R) : result tensor :=
  let? (b, c, f) := unpack_bcf (shape latents) in
  let noise_latents := mk (shape latents) gauss in
  if use_offset_noise then
    let offset_noise := mk [b; c; f; 1%nat; 1%nat] offset in
    add noise_latents (smul noise_strength offset_noise)
  else Ok noise_latents.

(** ** tensor_to_vae_latent (lines 187-196) *)

(** The codec is an external collaborator: [vae.encode(t).latent_dist
    .sample()] is a function from a batch of frames to a batch of latent
    frames. *)
Definition vae_t : Type := tensor -> tensor.

(** einops [rearrange(t, "b f c h w -> (b f) c h w")]; an einops error is
    a RuntimeError. *)
Definition merge_bf (t : tensor) : result tensor :=
  match shape t with
  | [b; f; c; h; w] =>
      Ok (mk [(b * f)%nat; c; h; w]
             (fun idx =>
                match idx with
                | n :: rest => data t ((n / f)%nat :: (n mod f)%nat :: rest)
                | [] => data t []
                end))
  | _ => Raise RuntimeError
  end.

(** einops [rearrange(t, "(b f) c h w -> b c f h w", f=video_length)]:
    with [f = 0] einops divides the first dimension by zero. *)
Definition split_bf_to_bcfhw (f : nat) (t : tensor) : result tensor :=
  match shape t with
  | [n; c; h; w] =>
      if (f =? 0)%nat then Raise ZeroDivisionError
      else if negb (n mod f =? 0)%nat then Raise RuntimeError
      else
        Ok (mk [(n / f)%nat; c; f; h; w]
               (fun idx =>
                  match idx with
                  | [ib; ic; jf; ih; iw] =>
                      data t [(ib * f + jf)%nat; ic; ih; iw]
                  | _ => data t idx
                  end))
  | _ => Raise RuntimeError
  end.

Definition tensor_to_vae_latent (t : tensor) (vae : vae_t) : result tensor :=
  let? video_length := dim 1 t in
  let? t := merge_bf t in
  let latents := vae t in
  let? latents := split_bf_to_bcfhw video_length latents in
  let latents := smul (18215 / 100000)%R latents in
  Ok latents.

(** ** get_spatial_latents (lines 198-233) *)

(** [random.uniform(0, 1) < random_hflip_img], on exact rationals. *)
Definition uniform_lt (u threshold : Q) : bool := negb (Qle_bool threshold u).

(** The body of get_spatial_latents names [vae], which is neither one of
    its parameters nor a name bound at module level: evaluating it raises
    NameError. *)
Definition module_global_vae : result vae_t := Raise NameError.

(** [noise_scheduler.add_noise(latents, noise, timesteps)] *)
Definition scheduler_t : Type := tensor -> tensor -> list nat -> tensor.

Definition get_spatial_latents
    (pixel_values : tensor) (random_hflip_img : Q) (cache_latents : bool)
    (noisy_latents target : tensor) (timesteps : list nat)
    (noise_scheduler : scheduler_t)
    (draw_idx : nat) (draw_uniform : Q) (draw_gauss : list nat -> R)
  : result (tensor * tensor * bool) :=
  let? high := dim 2 pixel_values in
  let? ran_idx := randint high draw_idx in
  let use_hflip := uniform_lt draw_uniform random_hflip_img in
  if use_hflip then
    let? frame :=
      (if negb cache_latents then slice5 1 ran_idx pixel_values
       else slice5 2 ran_idx pixel_values) in
    let pixel_values_spatial := unsqueeze 1 (hflip frame) in
    let? latents_spatial :=
      (if negb cache_latents then
         let? vae := module_global_vae in
         tensor_to_vae_latent pixel_values_spatial vae
       else Ok pixel_values_spatial) in
    let? noise_spatial :=
      sample_noise latents_spatial 0 false draw_gauss (fun _ => 0%R) in
    let noisy_latents_input :=
      noise_scheduler latents_spatial noise_spatial timesteps in
    let target_spatial := noise_spatial in
    Ok (noisy_latents_input, target_spatial, use_hflip)
  else
    let? noisy_latents_input := slice5 2 ran_idx noisy_latents in
    let? target_spatial := slice5 2 ran_idx target in
    Ok (noisy_latents_input, target_spatial, use_hflip).

(** ** create_ad_temporal_loss (lines 235-252)

    Here with entries read as real numbers, as the training pass uses
    it; [Float32] below has the function on binary32 entries. *)

Definition beta : R := 1.
(** [(beta ** 2 + 1) ** 0.5] *)
Definition alpha : R := Rpower (beta ^ 2 + 1) (/ 2).

(** Lines 246 and 247 apply one expression to [model_pred] and to
    [target]: [alpha * t - beta * t[:, :, ran_idx, :, :].unsqueeze(2)]. *)
Definition decent (t : tensor) (ran_idx : nat) : result tensor :=
  let? pivot := slice5 2 ran_idx t in
  sub (smul alpha t) (smul beta (unsqueeze 2 pivot)).

Definition create_ad_temporal_loss
    (model_pred : tensor) (loss_temporal : R) (target : tensor)
    (draw_idx : nat) : result R :=
  let? high := dim 2 model_pred in
  let? ran_idx := randint high draw_idx in
  let? model_pred_decent := decent model_pred ran_idx in
  let? target_decent := decent target ran_idx in
  let? loss_ad_temporal := mse_loss model_pred_decent target_decent in
  let loss_temporal := (loss_temporal + loss_ad_temporal)%R in
  Ok loss_temporal.

(** ** The training node: AD_MotionDirector_train.process (lines 284-785) *)

(** Optimizers and schedules are identified by the adapter role they
    belong to; [Spatial i] is the [i]-th member of the spatial lists. *)
Inductive role : Type :=
| Spatial (i : nat)
| Temporal.

(** The two adapter families that [extract_lora_child_module] and the
    LoRA handlers address. *)
Inductive family : Type :=
| SpatialLoras
| TemporalLoras.

(** Calls on the collaborators that the loop makes for their effect.
    There is one gradient scaler ([scaler], line 523): every Scaler
    event is a call on it. *)
Inductive event : Type :=
| AddLora (f : family) (rank : Z) (dropout : Q)
    (* add_lora_to_model(..., dropout, ..., r=rank) *)
| ZeroGrad (r : role)                   (* optimizer.zero_grad *)
| ScaleLoras (f : family) (scale : Q) (strided : bool)   (* scale_loras *)
| UnetForward (f : family) (use_hflip : bool)  (* unet(...).sample *)
| ScalerBackward (f : family)           (* scaler.scale(loss).backward *)
| ScalerStep (r : role)                 (* scaler.step(optimizer) *)
| LrSchedulerStep (r : role)            (* lr_scheduler.step *)
| ScalerUpdate                          (* scaler.update *)
| SaveLoraWeights (f : family) (step : Z) (rank : Z)
| ValidationPipeline (step : Z)
| SaveVideosGrid (step : Z)
| LoggingInfo (step : Z).

(** The inputs of the node that [process] receives (INPUT_TYPES, lines
    256-276); [images] has layout (N, H, W, C). *)
Module Inputs.
Record t : Type := mk {
  images : tensor;
  max_train_epoch : Z;
  max_train_steps : Z;
  checkpointing_steps : Z;
  checkpointing_epochs : Z;
  lora_rank : Z
}.
End Inputs.

(** The local variables of [process] that the loop reads, as they stand
    when the loop starts. *)
Module Locals.
Record t : Type := mk {
  pixel_values : tensor;
  random_hflip_img : Q;
  lora_rank : Z;
  lora_unet_dropout : Q;
  train_temporal_lora : bool;
  spatial_lora_num : nat;
  cache_latents : bool;
  use_offset_noise : bool;
  validation_steps : Z;
  validation_steps_tuple : list Z;
  max_train_steps : Z;
  checkpointing_steps : Z
}.
End Locals.

(** What one pass through the loop body draws at random or receives
    from a collaborator. *)
Record step_env : Type := mk_step_env {
  e_mask : Q;                      (* random.uniform(0, 1), line 547 *)
  e_timesteps : list nat;          (* torch.randint, line 582 *)
  e_vae : vae_t;                   (* the codec's sampled encoding *)
  e_gauss : list nat -> R;         (* randn_like in sample_noise *)
  e_offset : list nat -> R;        (* randn in sample_noise *)
  e_spatial_idx : nat;             (* randint in get_spatial_latents *)
  e_hflip : Q;                     (* random.uniform in get_spatial_latents *)
  e_gauss_spatial : list nat -> R; (* randn_like on the flipped frame *)
  e_temporal_idx : nat;            (* randint in create_ad_temporal_loss *)
  e_unet : family -> tensor -> tensor; (* backbone forward, adapters as gated *)
  e_has_grad : bool;               (* any p.grad is not None, line 670 *)
  e_save_spatial_raises : bool;    (* save_lora_weights, line 702 *)
  e_save_temporal_raises : bool;   (* save_lora_weights, line 712 *)
  e_sampler_raises : bool;         (* validation_pipeline, line 754 *)
  e_save_sample_raises : bool;     (* save_videos_grid, line 761 *)
  e_save_samples_raises : bool     (* save_videos_grid, line 768 *)
}.

Record world : Type := mk_world {
  add_noise_spatial : scheduler_t;   (* train_noise_scheduler_spatial *)
  add_noise_temporal : scheduler_t;  (* train_noise_scheduler *)
  steps : nat -> step_env            (* indexed by epoch *)
}.

(** The part of the interpreter state the loop changes. *)
Record state : Type := mk_state {
  global_step : Z;
  samples : option (list Z); (* [samples], once bound: the steps it shows *)
  trace : list event        (* most recent first *)
}.

Definition init_state : state := mk_state 0 None [].

(** State with exceptions: a raise keeps the effects made so far. *)
Definition M (A : Type) : Type := state -> state * result A.

Definition ret {A} (a : A) : M A := fun s => (s, Ok a).
Definition raise {A} (e : exn) : M A := fun s => (s, Raise e).
Definition bind {A B} (m : M A) (k : A -> M B) : M B :=
  fun s => match m s with
           | (s', Ok a) => k a s'
           | (s', Raise e) => (s', Raise e)
           end.
Definition lift {A} (r : result A) : M A := fun s => (s, r).
Definition emit (ev : event) : M unit :=
  fun s => (mk_state (global_step s) (samples s) (ev :: trace s), Ok tt).
Definition get_global_step : M Z := fun s => (s, Ok (global_step s)).
Definition incr_global_step : M unit :=
  fun s => (mk_state (global_step s + 1) (samples s) (trace s), Ok tt).
Definition set_samples (v : list Z) : M unit :=
  fun s => (mk_state (global_step s) (Some v) (trace s), Ok tt).
Definition when (b : bool) (m : M unit) : M unit := if b then m else ret tt.
(** A call that either returns or raises, as the environment says. *)
Definition external (raises : bool) (ev : event) : M unit :=
  if raises then raise OSError else emit ev.

Declare Scope m_scope.
Delimit Scope m_scope with M.
Notation "x <- m ;; k" := (bind m (fun x => k))
  (at level 61, m at next level, right associativity) : m_scope.
Notation "m ;; k" := (bind m (fun _ => k))
  (at level 61, right associativity) : m_scope.
Local Open Scope m_scope.

Fixpoint for_range (f : nat -> M unit) (start n : nat) : M unit :=
  match n with
  | O => ret tt
  | S n' => f start ;; for_range f (S start) n'
  end.

(** *** One pass through the loop body (lines 532-784) *)

(** Lines 536-540: [optimizer_temporal] is not None exactly when
    [train_temporal_lora] (lines 439-466). *)
Definition zero_grads (l : Locals.t) : M unit :=
  for_range (fun i => emit (ZeroGrad (Spatial i)))
            0 (Locals.spatial_lora_num l) ;;
  when (Locals.train_temporal_lora l) (emit (ZeroGrad Temporal)).

(** Lines 542-545. *)
Definition mask_temporal (train_temporal_lora : bool) : bool :=
  if train_temporal_lora then false else true.

(** Line 547: [random.uniform(0, 1) < 0.2 and not mask_temporal_lora]. *)
Definition mask_spatial (draw : Q) (mask_temporal_lora : bool) : bool :=
  uniform_lt draw 0.2 && negb mask_temporal_lora.

(** Lines 576-589: the latents and the noise shared by both branches. *)
Definition shared_noise (l : Locals.t) (e : step_env)
  : result (tensor * tensor) :=
  let pixel_values := Locals.pixel_values l in
  let? video_length := dim 2 pixel_values in
  let? bsz := dim 0 pixel_values in
  let? latents :=
    (if negb (Locals.cache_latents l)
     then tensor_to_vae_latent pixel_values (e_vae e)
     else Ok pixel_values) in
  let? noise :=
    sample_noise latents 0 (Locals.use_offset_noise l)
                 (e_gauss e) (e_offset e) in
  Ok (latents, noise).

(** Lines 603-644.  Whether the temporal family has adapters
    ([len(loras) > 0], line 616) is whether they were injected. *)
Definition spatial_branch (l : Locals.t) (w : world) (e : step_env)
    (step : nat) (mask_spatial_lora : bool) (latents noise : tensor)
  : M (option R) :=
  let target := noise in
  if mask_spatial_lora then
    emit (ScaleLoras SpatialLoras 0 false) ;;
    ret None
  else
    (if (Locals.spatial_lora_num l =? 1)%nat
     then emit (ScaleLoras SpatialLoras 1 false)
     else emit (ScaleLoras SpatialLoras 0 false) ;;
          (* range(0, len(lora_list), spatial_lora_num) *)
          (if (Locals.spatial_lora_num l =? 0)%nat
           then raise ValueError else ret tt) ;;
          emit (ScaleLoras SpatialLoras 1 true)) ;;
    when (Locals.train_temporal_lora l)
         (emit (ScaleLoras TemporalLoras 0 false)) ;;
    let noisy_latents :=
      add_noise_spatial w latents noise (e_timesteps e) in
    r <- lift (get_spatial_latents
                 (Locals.pixel_values l) (Locals.random_hflip_img l)
                 (Locals.cache_latents l) noisy_latents target
                 (e_timesteps e) (add_noise_spatial w)
                 (e_spatial_idx e) (e_hflip e) (e_gauss_spatial e)) ;;
    let '(noisy_latents_input, target_spatial, use_hflip) := r in
    if use_hflip then
      emit (UnetForward SpatialLoras true) ;;
      let model_pred_spatial := e_unet e SpatialLoras noisy_latents_input in
      p <- lift (slice5 2 0 model_pred_spatial) ;;
      t <- lift (slice5 2 0 target_spatial) ;;
      loss_spatial <- lift (mse_loss p t) ;;
      ret (Some loss_spatial)
    else
      emit (UnetForward SpatialLoras false) ;;
      let model_pred_spatial :=
        e_unet e SpatialLoras (unsqueeze 2 noisy_latents_input) in
      p <- lift (slice5 2 0 model_pred_spatial) ;;
      loss_spatial <- lift (mse_loss p target_spatial) ;;
      ret (Some loss_spatial).

(** Lines 646-660. *)
Definition temporal_branch (w : world) (e : step_env)
    (mask_temporal_lora : bool) (latents noise : tensor) : M (option R) :=
  let target := noise in
  if mask_temporal_lora then
    emit (ScaleLoras TemporalLoras 0 false) ;;
    ret None
  else
    emit (ScaleLoras TemporalLoras 1 false) ;;
    let noisy_latents :=
      add_noise_temporal w latents noise (e_timesteps e) in
    emit (UnetForward TemporalLoras false) ;;
    let model_pred := e_unet e TemporalLoras noisy_latents in
    loss_temporal <- lift (mse_loss model_pred target) ;;
    loss_temporal <- lift (create_ad_temporal_loss
                             model_pred loss_temporal target
                             (e_temporal_idx e)) ;;
    ret (Some loss_temporal).

(** [optimizer_spatial_list[step]] and [lr_scheduler_spatial_list[step]]:
    both lists have [spatial_lora_num] members. *)
Definition spatial_member (l : Locals.t) (step : nat) : M role :=
  if (step <? Locals.spatial_lora_num l)%nat then ret (Spatial step)
  else raise IndexError.

(** Lines 662-677. *)
Definition backpropagate (l : Locals.t) (e : step_env) (step : nat)
    (mask_spatial_lora mask_temporal_lora : bool) : M unit :=
  when (negb mask_spatial_lora)
       (emit (ScalerBackward SpatialLoras) ;;
        if (Locals.spatial_lora_num l =? 1)%nat
        then emit (ScalerStep (Spatial 0))
        else o <- spatial_member l step ;;
             when (e_has_grad e) (emit (ScalerStep o))) ;;
  when (negb mask_temporal_lora && Locals.train_temporal_lora l)
       (emit (ScalerBackward TemporalLoras) ;;
        emit (ScalerStep Temporal)).

(** Lines 679-688: [lr_scheduler_temporal] is not None exactly when
    [train_temporal_lora]. *)
Definition step_schedules (l : Locals.t) (step : nat) : M unit :=
  (if (Locals.spatial_lora_num l =? 1)%nat
   then emit (LrSchedulerStep (Spatial 0))
   else o <- spatial_member l step ;;
        emit (LrSchedulerStep o)) ;;
  when (Locals.train_temporal_lora l) (emit (LrSchedulerStep Temporal)).

(** Lines 695-722.  [lora_manager_spatial] is the variable of the
    injection loop (line 478), bound once that loop has run a pass. *)
Definition checkpoint_due (l : Locals.t) (gs : Z) : bool :=
  (gs mod Locals.checkpointing_steps l =? 0)%Z.

Definition save_checkpoint (l : Locals.t) (e : step_env) : M unit :=
  gs <- get_global_step ;;
  if (Locals.checkpointing_steps l =? 0)%Z then raise ZeroDivisionError
  else
    when (checkpoint_due l gs)
         ((if (Locals.spatial_lora_num l =? 0)%nat
           then raise UnboundLocalError else ret tt) ;;
          external (e_save_spatial_raises e)
                   (SaveLoraWeights SpatialLoras gs (Locals.lora_rank l)) ;;
          when (Locals.train_temporal_lora l)
               (external (e_save_temporal_raises e)
                         (SaveLoraWeights TemporalLoras gs
                                          (Locals.lora_rank l)))).

(** Line 339. *)
Definition validation_spatial_scale : Q := 0.5.

(** Lines 724-770. *)
Definition validation_due (l : Locals.t) (gs : Z) : bool :=
  (gs mod Locals.validation_steps l =? 0)%Z
  || existsb (Z.eqb gs) (Locals.validation_steps_tuple l).

Definition validate (l : Locals.t) (e : step_env) : M unit :=
  gs <- get_global_step ;;
  if (Locals.validation_steps l =? 0)%Z then raise ZeroDivisionError
  else
    when (validation_due l gs)
         (set_samples [] ;;
          emit (ScaleLoras SpatialLoras validation_spatial_scale false) ;;
          external (e_sampler_raises e) (ValidationPipeline gs) ;;
          external (e_save_sample_raises e) (SaveVideosGrid gs) ;;
          set_samples [gs] ;;
          external (e_save_samples_raises e) (SaveVideosGrid gs) ;;
          emit (LoggingInfo gs)).

(** Lines 772-778: [loss_temporal.detach()] on None raises. *)
Definition make_logs (loss_spatial loss_temporal : option R) : M unit :=
  match loss_temporal with
  | Some _ => ret tt
  | None => raise AttributeError
  end.

(** Lines 679-693: the schedules, then [scaler.update()] and
    [global_step += 1]. *)
Definition finish_step (l : Locals.t) (step : nat) : M unit :=
  step_schedules l step ;;
  emit ScalerUpdate ;;
  incr_global_step.

Definition train_step (l : Locals.t) (w : world) (e : step_env)
    (step : nat) : M unit :=
  zero_grads l ;;
  let mask_temporal_lora := mask_temporal (Locals.train_temporal_lora l) in
  let mask_spatial_lora := mask_spatial (e_mask e) mask_temporal_lora in
  ln <- lift (shared_noise l e) ;;
  let '(latents, noise) := ln in
  loss_spatial <- spatial_branch l w e step mask_spatial_lora latents noise ;;
  loss_temporal <- temporal_branch w e mask_temporal_lora latents noise ;;
  backpropagate l e step mask_spatial_lora mask_temporal_lora ;;
  finish_step l step ;;
  save_checkpoint l e ;;
  validate l e ;;
  make_logs loss_spatial loss_temporal.

(** *** Before the loop (lines 286-525) *)

(** Lines 290-342 and 408-415: the locals the loop reads.  The
    assignments are kept in the order of the source; a later [let] of a
    name shadows the earlier one, as the assignment does. *)
Definition setup (i : Inputs.t) : result Locals.t :=
  let images := Inputs.images i in
  let max_train_epoch := Inputs.max_train_epoch i in
  let max_train_steps := Inputs.max_train_steps i in
  let checkpointing_steps := Inputs.checkpointing_steps i in
  let checkpointing_epochs := Inputs.checkpointing_epochs i in
  let lora_rank := Inputs.lora_rank i in
  let? input_height := dim 1 images in
  let? input_width := dim 2 images in
  let images := tmap (fun x => x * 2 - 1)%R images in
  let? pixel_values :=
    (if (length (shape images) =? 4)%nat
     then Ok (unsqueeze 0 (permute [0; 3; 1; 2]%nat images))
     else Raise RuntimeError) in
  let random_hflip_img := (-1)%Q in
  let single_spatial_lora := true in
  let lora_rank := 32%Z in
  let lora_unet_dropout := 0.1%Q in
  let train_temporal_lora := true in
  let cache_latents := false in
  let use_offset_noise := false in
  let validation_steps := 25%Z in
  let validation_steps_tuple := [2; 25]%Z in
  let? max_train_steps :=
    (if (max_train_steps =? -1)%Z
     then if negb (max_train_epoch =? -1)%Z then Ok max_train_epoch
          else Raise AssertionError
     else Ok max_train_steps) in
  let? checkpointing_steps :=
    (if (checkpointing_steps =? -1)%Z
     then if negb (checkpointing_epochs =? -1)%Z then Ok checkpointing_epochs
          else Raise AssertionError
     else Ok checkpointing_steps) in
  let? spatial_lora_num :=
    (if single_spatial_lora : bool then Ok 1%nat
     else Raise UnboundLocalError) in
  Ok (Locals.mk pixel_values random_hflip_img lora_rank lora_unet_dropout
                train_temporal_lora spatial_lora_num cache_latents
                use_offset_noise validation_steps validation_steps_tuple
                max_train_steps checkpointing_steps).

(** Lines 438-506: the adapters are injected, the temporal family first
    (dropout 0), then one spatial family per member. *)
Definition inject_loras (l : Locals.t) : M unit :=
  when (Locals.train_temporal_lora l)
       (emit (AddLora TemporalLoras (Locals.lora_rank l) 0)) ;;
  for_range (fun _ => emit (AddLora SpatialLoras (Locals.lora_rank l)
                                    (Locals.lora_unet_dropout l)))
            0 (Locals.spatial_lora_num l).

(** Lines 314, 509 and 512. *)
Definition gradient_accumulation_steps : Z := 1.
Definition num_update_steps_per_epoch : Q :=
  inject_Z 1 / inject_Z gradient_accumulation_steps.
Definition num_train_epochs (l : Locals.t) : Z :=
  Qceiling (inject_Z (Locals.max_train_steps l) / num_update_steps_per_epoch).

(** Line 517. *)
Definition batch_size : nat := 1.

(** Lines 528-784.  The inner loop has a single pass, so the [break] of
    line 784, which leaves the inner loop only, changes nothing; the
    outer loop makes [num_train_epochs] passes, none when that is not
    positive. *)
Definition train_loop (l : Locals.t) (w : world) : M unit :=
  for_range
    (fun epoch =>
       for_range (fun step => train_step l w (steps w epoch) step)
                 0 batch_size)
    0 (Z.to_nat (num_train_epochs l)).

(** Line 785: [samples] is bound only once a validation pass began. *)
Definition return_samples : M (list Z) :=
  fun s => match samples s with
           | Some v => (s, Ok v)
           | None => (s, Raise UnboundLocalError)
           end.

Definition process (i : Inputs.t) (w : world) : M (list Z) :=
  l <- lift (setup i) ;;
  inject_loras l ;;
  train_loop l w ;;
  return_samples.

(** The run of the node from a fresh interpreter state. *)
Definition run (i : Inputs.t) (w : world) : state * result (list Z) :=
  process i w init_state.

(** ** Reading the trace *)

Definition count (p : event -> bool) (tr : list event) : nat :=
  length (filter p tr).

Definition is_scaler_update (ev : event) : bool :=
  match ev with ScalerUpdate => true | _ => false end.

Definition is_scaler_step (ev : event) : bool :=
  match ev with ScalerStep _ => true | _ => false end.

Definition is_lr_step_spatial (ev : event) : bool :=
  match ev with LrSchedulerStep (Spatial _) => true | _ => false end.

Definition is_lr_step_temporal (ev : event) : bool :=
  match ev with LrSchedulerStep Temporal => true | _ => false end.

Definition is_hflip_forward (ev : event) : bool :=
  match ev with UnetForward _ true => true | _ => false end.

Definition is_logging (ev : event) : bool :=
  match ev with LoggingInfo _ => true | _ => false end.

(** The ranks the adapters were injected with, most recent first. *)
Definition add_lora_ranks (tr : list event) : list (family * Z) :=
  flat_map (fun ev => match ev with
                      | AddLora f rank _ => [(f, rank)]
                      | _ => []
                      end) tr.

(** How often each of the calls of lines 679-693 has been made. *)
Definition scaler_updates (s : state) : Z :=
  Z.of_nat (count is_scaler_update (trace s)).
Definition scaler_steps (s : state) : Z :=
  Z.of_nat (count is_scaler_step (trace s)).
Definition lr_steps_spatial (s : state) : Z :=
  Z.of_nat (count is_lr_step_spatial (trace s)).
Definition lr_steps_temporal (s : state) : Z :=
  Z.of_nat (count is_lr_step_temporal (trace s)).

(** The observations the loop's bookkeeping is stated on. *)
Definition counters (s : state) : Z * Z * Z * Z :=
  (global_step s, scaler_updates s, lr_steps_spatial s, lr_steps_temporal s).

(** [frame f m]: running [m] does not change the observation [f] of the
    state, whether [m] returns or raises. *)
Definition frame {X A} (f : state -> X) (m : M A) : Prop :=
  forall s, f (fst (m s)) = f s.

(** The effect of a completed pass on the counters. *)
Definition advanced (l : Locals.t) (s s' : state) : Prop :=
  counters s'
  = (global_step s + 1, scaler_updates s + 1, lr_steps_spatial s + 1,
     lr_steps_temporal s
     + (if Locals.train_temporal_lora l then 1 else 0))%Z.

(** One [scaler.update()] and one step of each schedule per completed
    pass. *)
Definition bookkeeping (l : Locals.t) (s : state) : Prop :=
  scaler_updates s = global_step s
  /\ lr_steps_spatial s = global_step s
  /\ (Locals.train_temporal_lora l = true ->
      lr_steps_temporal s = global_step s).

(** The exceptions a computation can raise all satisfy [E]. *)
Definition rmay {A} (E : exn -> Prop) (r : result A) : Prop :=
  forall e, r = Raise e -> E e.

Definition may_raise {A} (E : exn -> Prop) (m : M A) : Prop :=
  forall s e, snd (m s) = Raise e -> E e.

(** A save that is due at a pass and raises. *)
Definition save_raises (l : Locals.t) (e : step_env) (gs : Z) : bool :=
  (checkpoint_due l gs
   && (e_save_spatial_raises e
       || (Locals.train_temporal_lora l && e_save_temporal_raises e)))
  || (validation_due l gs
      && (e_save_sample_raises e || e_save_samples_raises e)).

(** The number of backbone calls made on a flipped frame. *)
Definition hflips (s : state) : nat := count is_hflip_forward (trace s).

Definition not_name_error (e : exn) : Prop := e <> NameError.

(** ** Sample inputs

    A clip of [n] frames of 2 x 2 RGB pixels, a codec that maps every
    frame to a 4-channel latent of one pixel, a backbone and noise
    schedulers that keep shapes, and draws fixed at every step. *)

Definition sample_images (n : nat) : tensor :=
  mk [n; 2; 2; 3]%nat (fun _ => 0%R).

Definition sample_vae : vae_t :=
  fun t => mk [nth 0 (shape t) 0; 4; 1; 1]%nat (fun _ => 0%R).

Definition sample_step_env (save_spatial_raises : bool) : step_env :=
  mk_step_env 0.5 [0%nat] sample_vae (fun _ => 0%R) (fun _ => 1%R)
              0 0.5 (fun _ => 0%R) 0 (fun _ t => t) true
              save_spatial_raises false false false false.

Definition sample_world (save_spatial_raises : bool) : world :=
  mk_world (fun latents _ _ => latents) (fun latents _ _ => latents)
           (fun _ => sample_step_env save_spatial_raises).

(** Four frames, three steps, a checkpoint at every step. *)
Definition sample_inputs (lora_rank : Z) : Inputs.t :=
  Inputs.mk (sample_images 4) (-1) 3 1 (-1) lora_rank.

(** The defaults of the form for the budgets: 300 epochs, no step count;
    and both budgets given. *)
Definition sample_inputs_budget (max_train_epoch max_train_steps : Z)
  : Inputs.t :=
  Inputs.mk (sample_images 4) max_train_epoch max_train_steps 100 (-1) 32.

(** A clip of 16 frames of 64 x 64 RGB pixels. *)
Definition sample_clip16 : tensor := mk [16; 64; 64; 3]%nat (fun _ => 0%R).

(** A latent clip of one frame with a constant entry. *)
Definition sample_latents (x : R) : tensor :=
  mk [1; 4; 2; 1; 1]%nat (fun _ => x).

(** The locals [setup] builds from a clip and the two resolved budgets. *)
Definition sample_locals (images : tensor)
    (max_train_steps checkpointing_steps : Z) : Locals.t :=
  Locals.mk (unsqueeze 0 (permute [0; 3; 1; 2]%nat
                                  (tmap (fun x => x * 2 - 1)%R images)))
            (-1) 32 0.1 true 1 false false 25 [2; 25]%Z
            max_train_steps checkpointing_steps.

(** The 16-frame clip with the defaults of the form. *)
Definition sample_inputs16 : Inputs.t :=
  Inputs.mk sample_clip16 300 (-1) 100 (-1) 32.

(** Both budgets given: five epochs and three steps. *)
Definition sample_inputs_both : Inputs.t :=
  Inputs.mk (sample_images 4) 5 3 100 (-1) 32.

(** A clip of two frames, and a world whose draw for the spatial frame
    index is 2. *)
Definition sample_inputs2 : Inputs.t :=
  Inputs.mk (sample_images 2) (-1) 3 1 (-1) 32.

Definition sample_world_idx2 : world :=
  mk_world (fun latents _ _ => latents) (fun latents _ _ => latents)
           (fun _ => mk_step_env 0.5 [0%nat] sample_vae (fun _ => 0%R)
                                 (fun _ => 1%R) 2 0.5 (fun _ => 0%R) 0
                                 (fun _ t => t) true
                                 false false false false false).

(** ** Reading a run *)

Definition family_eqb (f g : family) : bool :=
  match f, g with
  | SpatialLoras, SpatialLoras | TemporalLoras, TemporalLoras => true
  | _, _ => false
  end.

(** The steps at which the adapters of a family were saved, the
    optimizers that were stepped and the steps at which the sampler was
    called, most recent first. *)
Definition saved_steps (f : family) (tr : list event) : list Z :=
  flat_map (fun ev => match ev with
                      | SaveLoraWeights g step _ =>
                          if family_eqb f g then [step] else []
                      | _ => []
                      end) tr.

Definition stepped_roles (tr : list event) : list role :=
  flat_map (fun ev => match ev with ScalerStep r => [r] | _ => [] end) tr.

Definition sampled_steps (tr : list event) : list Z :=
  flat_map (fun ev => match ev with ValidationPipeline g => [g] | _ => [] end)
           tr.

(** The steps [n, n-1, ..., 1]. *)
Fixpoint steps_down (n : nat) : list Z :=
  match n with
  | O => []
  | S m => Z.of_nat (S m) :: steps_down m
  end.

(** The value of [samples] after [n] passes that returned. *)
Fixpoint samples_after (l : Locals.t) (n : nat) : option (list Z) :=
  match n with
  | O => None
  | S m => if validation_due l (Z.of_nat (S m)) then Some [Z.of_nat (S m)]
           else samples_after l m
  end.

(** The optimizers one pass steps, most recent first (one spatial
    member). *)
Definition pass_roles (l : Locals.t) (e : step_env) : list role :=
  let mask_temporal_lora := mask_temporal (Locals.train_temporal_lora l) in
  (if negb mask_temporal_lora && Locals.train_temporal_lora l
   then [Temporal] else [])
  ++ (if mask_spatial (e_mask e) mask_temporal_lora then []
      else [Spatial 0]).

(** What a pass leaves alone before and after lines 679-693. *)
Definition progress (s : state) : Z * option (list Z) :=
  (global_step s, samples s).

(** The passes [n-1, ..., 0]. *)
Fixpoint passes_down (n : nat) : list nat :=
  match n with
  | O => []
  | S m => m :: passes_down m
  end.

(** What the trace records of saves, optimizer steps and sampler
    calls. *)
Definition saves_of (s : state) : list Z * list Z :=
  (saved_steps SpatialLoras (trace s), saved_steps TemporalLoras (trace s)).
Definition roles_of (s : state) : list role := stepped_roles (trace s).
Definition sampled_of (s : state) : list Z := sampled_steps (trace s).

(** The state after [n] passes that returned, the loop having started
    with nothing recorded. *)
Definition recorded (l : Locals.t) (w : world) (n : nat) (s : state) : Prop :=
  global_step s = Z.of_nat n
  /\ samples s = samples_after l n
  /\ saves_of s
     = (filter (checkpoint_due l) (steps_down n),
        filter (fun g => checkpoint_due l g && Locals.train_temporal_lora l)
               (steps_down n))
  /\ roles_of s = flat_map (fun k => pass_roles l (steps w k)) (passes_down n)
  /\ sampled_of s = filter (validation_due l) (steps_down n).


Definition is_temporal_role (r : role) : bool :=
  match r with Temporal => true | Spatial _ => false end.

(** A budget of one pass. *)
Definition sample_inputs_one : Inputs.t :=
  Inputs.mk (sample_images 4) (-1) 1 1 (-1) 32.

(** A checkpoint cadence of 0. *)
Definition sample_inputs_cadence0 : Inputs.t :=
  Inputs.mk (sample_images 4) (-1) 3 0 (-1) 32.

Definition gs_saves (s : state) : Z * (list Z * list Z) :=
  (global_step s, saves_of s).

Definition untouched_all (s : state) :=
  (progress s, saves_of s, roles_of s, sampled_of s).

(** The locals of the node with temporal training switched off. *)
Definition sample_locals_spatial_only : Locals.t :=
  Locals.mk (Locals.pixel_values (sample_locals (sample_images 4) 3 1))
            (-1) 32 0.1 false 1 false false 25 [2; 25]%Z 3 1.

(** ** Sample tensors *)

(** A clip of two frames of one RGB pixel whose entry is its frame
    index, and a codec that returns its input. *)
Definition sample_ramp : tensor :=
  mk [1; 2; 3; 1; 1]%nat (fun idx => INR (nth 1 idx 0%nat)).

Definition identity_vae : vae_t := fun t => t.

(** A latent clip of three dimensions. *)
Definition sample_latents3 : tensor := mk [1; 4; 2]%nat (fun _ => 0%R).

(** A cached latent clip of two frames, two pixels wide, whose entry is
    its column. *)
Definition sample_cached : tensor :=
  mk [1; 1; 2; 1; 2]%nat (fun idx => INR (nth 4 idx 0%nat)).

(** ** scale_loras (lines 173-185) *)

(** scale_loras can also raise TypeError, which the loop never meets. *)
Inductive raised : Type :=
| Builtin (e : exn)
| TypeError.

Inductive outcome (A : Type) : Type :=
| Returns (a : A)
| Raises (e : raised).
Arguments Returns {A} a.
Arguments Raises {A} e.

Fixpoint range_from (start count step : nat) : list nat :=
  match count with
  | O => []
  | S k => start :: range_from (start + step) k step
  end.

(** [range(0, stop, step)]: a step of 0 raises ValueError, a negative
    step from 0 upwards is empty. *)
Definition py_range0 (stop : nat) (step : Z) : result (list nat) :=
  if (step =? 0)%Z then Raise ValueError
  else if (step <? 0)%Z then Ok []
  else Ok (range_from 0 ((stop + Z.to_nat step - 1) / Z.to_nat step)
                      (Z.to_nat step)).

Fixpoint set_nth {A} (i : nat) (x : A) (l : list A) : list A :=
  match l, i with
  | [], _ => []
  | _ :: l', O => x :: l'
  | a :: l', S j => a :: set_nth j x l'
  end.

(** [for lora_i in process_list: lora_list[lora_i].scale = scale]; the
    list holds the [scale] attribute of each module. *)
Fixpoint assign_scales (process_list : list nat) (scale : Q)
    (lora_list : list Q) : outcome (list Q) :=
  match process_list with
  | [] => Returns lora_list
  | lora_i :: rest =>
      if (lora_i <? length lora_list)%nat
      then assign_scales rest scale (set_nth lora_i scale lora_list)
      else Raises (Builtin IndexError)
  end.

(** [step] and [spatial_lora_num] default to None.  With [step] given
    and [spatial_lora_num] not, the loop indexes the list with its own
    members, which raises TypeError at the first one. *)
Definition scale_loras (lora_list : list Q) (scale : Q)
    (step spatial_lora_num : option Z) : outcome (list Q) :=
  match step, spatial_lora_num with
  | Some _, Some n =>
      match py_range0 (length lora_list) n with
      | Ok process_list => assign_scales process_list scale lora_list
      | Raise e => Raises (Builtin e)
      end
  | Some _, None =>
      match lora_list with
      | [] => Returns []
      | _ :: _ => Raises TypeError
      end
  | None, _ => Returns (map (fun _ => scale) lora_list)
  end.

(** Lines 612-613: [scale_loras(loras, 0.)] and then
    [scale_loras(loras, 1.0, step=step, spatial_lora_num=...)] on the
    same list. *)
Definition gate_ensemble_member (loras : list Q) (step spatial_lora_num : Z)
  : outcome (list Q) :=
  match scale_loras loras 0 None None with
  | Returns loras => scale_loras loras 1 (Some step) (Some spatial_lora_num)
  | Raises e => Raises e
  end.

(** ** Optimizer parameter groups (lines 118-171) *)

From Stdlib Require String.
Import String.StringSyntax.
Delimit Scope string_scope with string.

(** A parameter tensor is identified by a number. *)
Definition param := nat.

Inductive value : Type :=
| VStr (s : String.string)
| VNum (q : Q)
| VParam (p : param)
| VParams (ps : list param).          (* itertools.chain of parameters *)

(** A Python dict with string keys, in insertion order. *)
Definition dict := list (String.string * value).

Fixpoint dict_get (k : String.string) (d : dict) : option value :=
  match d with
  | [] => None
  | (k', v) :: d' => if String.eqb k' k then Some v else dict_get k d'
  end.

(** [d[k] = v]: an existing key keeps its place. *)
Fixpoint dict_set (k : String.string) (v : value) (d : dict) : dict :=
  match d with
  | [] => [(k, v)]
  | (k', v') :: d' =>
      if String.eqb k' k then (k, v) :: d' else (k', v') :: dict_set k v d'
  end.

(** What [param_optim] receives as [model]: a list of parameter lists
    (what add_lora_to_model returns) or a module with named_parameters. *)
Inductive model_t : Type :=
| ParamLists (groups : list (list param))
| NnModule (named_parameters : list (String.string * param)).

Record optim_t : Type := mk_optim {
  o_model : model_t;
  o_condition : bool;
  o_extra_params : option dict;
  o_is_lora : bool;
  o_negation : option (list String.string)
}.

(** [extra_params] defaults to None, on which [.keys()] raises. *)
Definition param_optim (model : model_t) (condition : bool)
    (extra_params : option dict) (is_lora : bool)
    (negation : option (list String.string)) : result optim_t :=
  match extra_params with
  | None => Raise AttributeError
  | Some d =>
      let extra_params := if (0 <? length d)%nat then Some d else None in
      Ok (mk_optim model condition extra_params is_lora negation)
  end.

Definition default_lr : Q := 5 # 1000000.

Definition create_optim_params (name : String.string) (params : value)
    (lr : Q) (extra_params : option dict) : dict :=
  let params :=
    [("name"%string, VStr name); ("params"%string, params);
     ("lr"%string, VNum lr)] in
  match extra_params with
  | Some e => fold_left (fun d kv => dict_set (fst kv) (snd kv) d) e params
  | None => params
  end.

(** ['lora' in n] *)
Definition contains_lora (n : String.string) : bool :=
  match String.index 0 "lora"%string n with
  | Some _ => true
  | None => false
  end.

(** The groups one entry of [model_list] appends (lines 145-169). *)
Definition optim_groups (optim : optim_t) (lr : Q) : result (list dict) :=
  let extra_params := o_extra_params optim in
  let is_lora := o_is_lora optim in
  let condition := o_condition optim in
  match o_model optim with
  | ParamLists model =>
      if is_lora && condition
      then Ok [create_optim_params "param"%string (VParams (concat model))
                                   default_lr extra_params]
      else if condition
           then Raise AttributeError        (* list.named_parameters *)
           else Ok []
  | NnModule named_parameters =>
      if is_lora && condition
      then Ok (flat_map
                 (fun np =>
                    if contains_lora (fst np)
                    then [create_optim_params (fst np) (VParam (snd np))
                                              lr extra_params]
                    else [])
                 named_parameters)
      else if condition
           then Ok (flat_map
                      (fun np =>
                         let should_negate :=
                           contains_lora (fst np) && negb is_lora in
                         if should_negate then []
                         else [create_optim_params (fst np) (VParam (snd np))
                                                   lr extra_params])
                      named_parameters)
           else Ok []
  end.

Fixpoint create_optimizer_params_from (optimizer_params : list dict)
    (model_list : list optim_t) (lr : Q) : result (list dict) :=
  match model_list with
  | [] => Ok optimizer_params
  | optim :: rest =>
      let? groups := optim_groups optim lr in
      create_optimizer_params_from (optimizer_params ++ groups) rest lr
  end.

Definition create_optimizer_params (model_list : list optim_t) (lr : Q)
  : result (list dict) :=
  create_optimizer_params_from [] model_list lr.

(** Lines 448-450 and 487-489: the groups handed to each optimizer. *)
Definition lora_optimizer_params (unet_lora_params : list (list param))
    (extra_params : dict) (learning_rate : Q) : result (list dict) :=
  let? optim := param_optim (ParamLists unet_lora_params) true
                            (Some extra_params) true None in
  create_optimizer_params [optim] learning_rate.

Definition sample_named_parameters : list (String.string * param) :=
  [("down.0.attn.to_q.weight"%string, 0%nat);
   ("down.0.attn.to_q.lora_up.weight"%string, 1%nat);
   ("down.0.attn.to_q.lora_down.weight"%string, 2%nat);
   ("mid.proj.bias"%string, 3%nat)].

Definition sample_extra : dict := [("lr"%string, VNum (1 # 2000))].

(** ** create_ad_temporal_loss on binary32 entries (lines 235-252)

    The embedding above reads tensor entries as real numbers, which
    settles shapes, control flow and exceptions.  What
    create_ad_temporal_loss returns depends on the arithmetic of the
    floats themselves: products overflow to infinity and the difference
    of two infinities is NaN.  [Float32] embeds the function again on
    tensors of dtype [torch.float32] (the dtype [.float()] converts to,
    on which it is the identity): entries are IEEE 754 binary32 numbers
    and every operation rounds to nearest, ties to even.  The Python
    scalars [beta] (an int) and [alpha] (a float, binary64) are
    converted to binary32 when they multiply a tensor. *)

From Stdlib Require SpecFloat.

Module Float32.
Import SpecFloat.

Definition float : Type := spec_float.

Definition prec : Z := 24.
Definition emax : Z := 128.

Definition zero : float := S754_zero false.
Definition neg_zero : float := S754_zero true.
Definition nan : float := S754_nan.

Definition fadd : float -> float -> float := SFadd prec emax.
Definition fsub : float -> float -> float := SFsub prec emax.
Definition fmul : float -> float -> float := SFmul prec emax.
Definition fdiv : float -> float -> float := SFdiv prec emax.

(** Neither an infinity nor NaN. *)
Definition is_finite (x : float) : bool :=
  match x with
  | S754_zero _ | S754_finite _ _ _ => true
  | S754_infinity _ | S754_nan => false
  end.

(** An integer as a binary32 number. *)
Definition of_Z (n : Z) : float := binary_normalize prec emax n 0 false.

(** A Python float (binary64) as a binary32 number. *)
Definition of_double (x : spec_float) : float :=
  match x with
  | S754_finite s m e =>
      binary_normalize prec emax (cond_Zopp s (Zpos m)) e s
  | _ => x
  end.

Record tensor : Type := mk { shape : list nat; data : list nat -> float }.

Definition numel (t : tensor) : nat := fold_right Nat.mul 1%nat (shape t).

Definition dim (d : nat) (t : tensor) : result nat :=
  match nth_error (shape t) d with
  | Some n => Ok n
  | None => Raise IndexError
  end.

Definition select (d i : nat) (t : tensor) : result tensor :=
  match nth_error (shape t) d with
  | Some n =>
      if (i <? n)%nat
      then Ok (mk (remove_at d (shape t))
                  (fun idx => data t (insert_at d i idx)))
      else Raise IndexError
  | None => Raise IndexError
  end.

Definition slice5 (d i : nat) (t : tensor) : result tensor :=
  if (length (shape t) <? 5)%nat then Raise IndexError else select d i t.

Definition unsqueeze (d : nat) (t : tensor) : tensor :=
  mk (insert_at d 1%nat (shape t)) (fun idx => data t (remove_at d idx)).

Definition binop (f : float -> float -> float) (a b : tensor)
  : result tensor :=
  match broadcast_shapes (shape a) (shape b) with
  | Some s =>
      Ok (mk s (fun idx => f (data a (bindex (shape a) idx))
                             (data b (bindex (shape b) idx))))
  | None => Raise RuntimeError
  end.

Definition sub := binop fsub.

(** Python scalar times tensor. *)
Definition smul (k : float) (t : tensor) : tensor :=
  mk (shape t) (fun idx => fmul k (data t idx)).

(** The sum of the entries, accumulated in row-major order from +0.
    torch leaves the order of a reduction open; the statements made
    about this sum hold for every order, since they are about terms
    that are all +0 or about a term that is NaN. *)
Definition sum_over (f : list nat -> float) (l : list (list nat)) : float :=
  fold_left (fun acc idx => fadd acc (f idx)) l zero.

(** [F.mse_loss(a, b, reduction="mean")]: on an empty tensor the mean
    is 0 / 0, NaN. *)
Definition mse_loss (a b : tensor) : result float :=
  let? d := sub a b in
  Ok (fdiv (sum_over (fun idx => fmul (data d idx) (data d idx))
                     (indices (shape d)))
           (of_Z (Z.of_nat (numel d)))).

Definition all_finite (t : tensor) : bool :=
  forallb (fun idx => is_finite (data t idx)) (indices (shape t)).

Definition beta : Z := 1.

(** [(beta ** 2 + 1) ** 0.5]: the int 2 raised to a float power, which
    is the binary64 square root of 2. *)
Definition alpha64 : spec_float :=
  SFsqrt 53 1024 (binary_normalize 53 1024 (beta ^ 2 + 1) 0 false).

Definition alpha : float := of_double alpha64.

Definition decent (t : tensor) (ran_idx : nat) : result tensor :=
  let? pivot := slice5 2 ran_idx t in
  sub (smul alpha t) (smul (of_Z beta) (unsqueeze 2 pivot)).

Definition create_ad_temporal_loss
    (model_pred : tensor) (loss_temporal : float) (target : tensor)
    (draw_idx : nat) : result float :=
  let? high := dim 2 model_pred in
  let? ran_idx := randint high draw_idx in
  let? model_pred_decent := decent model_pred ran_idx in
  let? target_decent := decent target ran_idx in
  let? loss_ad_temporal := mse_loss model_pred_decent target_decent in
  let loss_temporal := fadd loss_temporal loss_ad_temporal in
  Ok loss_temporal.

(** A clip of shape (1, 4, 2, 1, 1) with one value at every entry. *)
Definition constant_clip (x : float) : tensor :=
  mk [1; 4; 2; 1; 1]%nat (fun _ => x).

End Float32.

(** * Properties *)

(** ** Shapes and broadcasting *)

Section TensorFacts.

Lemma bdim_same (n : nat) : bdim n n = Some n.
Proof. unfold bdim. now rewrite Nat.eqb_refl. Qed.

Lemma bdim_one_r (n : nat) : bdim n 1 = Some n.
Proof.
  unfold bdim. destruct (n =? 1)%nat eqn:E.
  - apply Nat.eqb_eq in E. now subst.
  - reflexivity.
Qed.

(** A shape broadcasts against any shape that agrees with it except in
    dimensions of size one, and the result is the shape itself. *)
Lemma bshape_aligned_narrow (s s' : list nat) :
  Forall2 (fun a b => b = a \/ b = 1%nat) s s' ->
  bshape_aligned s s' = Some s.
Proof.
  induction 1 as [|a b s s' Hab _ IH]; simpl.
  - reflexivity.
  - rewrite IH. destruct Hab as [-> | ->].
    + now rewrite bdim_same.
    + now rewrite bdim_one_r.
Qed.

Lemma pad_same_length (s s' : list nat) :
  length s' = length s ->
  pad (Nat.max (length s) (length s')) s = s
  /\ pad (Nat.max (length s) (length s')) s' = s'.
Proof.
  intros E. unfold pad. rewrite E, Nat.max_id, Nat.sub_diag. now simpl.
Qed.

Lemma broadcast_shapes_narrow (s s' : list nat) :
  Forall2 (fun a b => b = a \/ b = 1%nat) s s' ->
  broadcast_shapes s s' = Some s.
Proof.
  intros H. unfold broadcast_shapes.
  destruct (pad_same_length s s') as [-> ->].
  - symmetry. exact (Forall2_length H).
  - now apply bshape_aligned_narrow.
Qed.

Lemma Forall2_narrow_refl (s : list nat) :
  Forall2 (fun a b => b = a \/ b = 1%nat) s s.
Proof. induction s; constructor; auto. Qed.

Lemma broadcast_shapes_same (s : list nat) : broadcast_shapes s s = Some s.
Proof. apply broadcast_shapes_narrow, Forall2_narrow_refl. Qed.

(** Replacing one dimension by a dimension of size one. *)
Lemma Forall2_narrow_unsqueeze (d : nat) (s : list nat) :
  (d < length s)%nat ->
  Forall2 (fun a b => b = a \/ b = 1%nat) s (insert_at d 1%nat (remove_at d s)).
Proof.
  revert s. induction d as [|d IH]; intros [|a s] Hlen; simpl in Hlen; try lia.
  - unfold insert_at, remove_at. simpl. constructor; auto.
    apply Forall2_narrow_refl.
  - unfold insert_at, remove_at in *. simpl. constructor; auto.
    apply IH. lia.
Qed.

Lemma numel_pos_dims (s : list nat) (d n : nat) :
  (0 < fold_right Nat.mul 1 s)%nat -> nth_error s d = Some n -> (0 < n)%nat.
Proof.
  revert d. induction s as [|a s IH]; intros [|d] Hpos Hn; simpl in *;
    try discriminate.
  - injection Hn as ->. destruct n; [simpl in Hpos|]; lia.
  - apply (IH d); [|exact Hn]. destruct (fold_right Nat.mul 1 s)%nat; lia.
Qed.

Lemma randint_pos (high draw : nat) :
  (0 < high)%nat ->
  randint high draw = Ok (draw mod high)%nat /\ (draw mod high < high)%nat.
Proof.
  intros H. unfold randint. destruct (high =? 0)%nat eqn:E.
  - apply Nat.eqb_eq in E. lia.
  - split; [reflexivity|]. apply Nat.mod_upper_bound. lia.
Qed.

Lemma randint_range (high draw i : nat) :
  randint high draw = Ok i -> (i < high)%nat.
Proof.
  unfold randint. destruct (high =? 0)%nat eqn:E; [discriminate|].
  intros [= <-]. apply Nat.mod_upper_bound. apply Nat.eqb_neq in E. lia.
Qed.

End TensorFacts.

(** ** Role masking *)

Lemma uniform_lt_spec (u t : Q) : uniform_lt u t = true <-> (u < t)%Q.
Proof.
  unfold uniform_lt. rewrite negb_true_iff.
  destruct (Qle_bool t u) eqn:E.
  - apply Qle_bool_iff in E. split; [discriminate|].
    intros H. exfalso. exact (Qlt_not_le _ _ H E).
  - split; [intros _|reflexivity].
    apply Qnot_le_lt. intros H. apply Qle_bool_iff in H. congruence.
Qed.

(** C1: at every pass through the loop body the temporal role is masked
    exactly when temporal training is disabled; the spatial role is
    masked exactly when the uniform draw is below 0.2 and the temporal
    role is not masked; so, for every draw, the two masks are never both
    set and at least one role is active. *)
Theorem masks_never_both (train_temporal_lora : bool) (draw : Q) :
  let mask_temporal_lora := mask_temporal train_temporal_lora in
  let mask_spatial_lora := mask_spatial draw mask_temporal_lora in
  mask_temporal_lora = negb train_temporal_lora
  /\ (mask_spatial_lora = true <->
      (draw < 0.2)%Q /\ mask_temporal_lora = false)
  /\ mask_spatial_lora && mask_temporal_lora = false
  /\ (negb mask_spatial_lora || negb mask_temporal_lora = true).
Proof.
  cbv zeta. unfold mask_temporal, mask_spatial.
  split; [now destruct train_temporal_lora|].
  split; [|split; destruct train_temporal_lora, (uniform_lt draw 0.2);
            reflexivity].
  rewrite andb_true_iff, uniform_lt_spec, negb_true_iff. reflexivity.
Qed.

(** ** Offset noise *)

Lemma bindex_aligned_in_range (s idx : list nat) :
  Forall2 lt idx s -> bindex_aligned s idx = idx.
Proof.
  induction 1 as [|i d idx s Hid _ IH]; simpl.
  - reflexivity.
  - rewrite IH. destruct (d =? 1)%nat eqn:E; [|reflexivity].
    apply Nat.eqb_eq in E. f_equal. lia.
Qed.

Lemma bindex_in_range (s idx : list nat) :
  Forall2 lt idx s -> bindex s idx = idx.
Proof.
  intros H. unfold bindex. rewrite (Forall2_length H), Nat.sub_diag.
  now apply bindex_aligned_in_range.
Qed.

(** sample_noise on a five-dimensional clip, toggle set: the offset draw
    is read at the frame of the entry and added [noise_strength] times. *)
Lemma sample_noise_offset
    (latents : tensor) (noise_strength : R) (gauss offset : list nat -> R) :
  length (shape latents) = 5%nat ->
  exists noise,
    sample_noise latents noise_strength true gauss offset = Ok noise
    /\ shape noise = shape latents
    /\ forall ib ic jf ih iw,
         Forall2 lt [ib; ic; jf; ih; iw] (shape latents) ->
         data noise [ib; ic; jf; ih; iw]
         = (gauss [ib; ic; jf; ih; iw]
            + noise_strength * offset [ib; ic; jf; 0; 0]%nat)%R.
Proof.
  intros Hrank.
  destruct (shape latents) as [|b [|c [|f [|h [|w [|]]]]]] eqn:Hs;
    try discriminate.
  assert (B : broadcast_shapes [b; c; f; h; w] [b; c; f; 1; 1]%nat
              = Some [b; c; f; h; w])
    by (apply broadcast_shapes_narrow; repeat constructor; auto).
  unfold sample_noise. rewrite Hs. simpl. unfold add, binop. simpl.
  rewrite B. eexists. split; [reflexivity|]. split; [reflexivity|].
  intros ib ic jf ih iw Hidx. simpl.
  rewrite (bindex_in_range _ _ Hidx).
  inversion Hidx as [|? ? ? ? Hb T1]; subst.
  inversion T1 as [|? ? ? ? Hc T2]; subst.
  inversion T2 as [|? ? ? ? Hf _]; subst.
  unfold bindex. simpl.
  destruct (b =? 1)%nat eqn:Eb; [apply Nat.eqb_eq in Eb|];
    destruct (c =? 1)%nat eqn:Ec; [apply Nat.eqb_eq in Ec| |
                                   apply Nat.eqb_eq in Ec|];
    destruct (f =? 1)%nat eqn:Ef; try apply Nat.eqb_eq in Ef;
    repeat match goal with
           | H : (?x < ?y)%nat, E : ?y = 1%nat |- _ =>
               replace x with 0%nat by lia; clear H
           end; reflexivity.
Qed.

(** With [noise_strength = 0] the toggle changes no entry. *)
Lemma sample_noise_zero_strength
    (latents : tensor) (toggle : bool) (gauss offset : list nat -> R) :
  length (shape latents) = 5%nat ->
  exists noise,
    sample_noise latents 0 toggle gauss offset = Ok noise
    /\ shape noise = shape latents
    /\ forall idx, Forall2 lt idx (shape latents) ->
                   data noise idx = gauss idx.
Proof.
  intros Hrank.
  destruct (shape latents) as [|b [|c [|f [|h [|w [|]]]]]] eqn:Hs;
    try discriminate.
  assert (B : broadcast_shapes [b; c; f; h; w] [b; c; f; 1; 1]%nat
              = Some [b; c; f; h; w])
    by (apply broadcast_shapes_narrow; repeat constructor; auto).
  unfold sample_noise. rewrite Hs. simpl. destruct toggle.
  - unfold add, binop. simpl. rewrite B.
    eexists. split; [reflexivity|]. split; [reflexivity|].
    intros idx Hidx. simpl. rewrite (bindex_in_range _ _ Hidx). lra.
  - eexists. split; [reflexivity|]. split; reflexivity.
Qed.


(** ** The frame drawn in the spatial branch *)

(** Without the flip, get_spatial_latents slices the shared tensors at
    the drawn index. *)
Lemma get_spatial_latents_no_hflip
    (pixel_values : tensor) (random_hflip_img : Q) (cache_latents : bool)
    (noisy_latents target : tensor) (timesteps : list nat)
    (noise_scheduler : scheduler_t)
    (draw_idx : nat) (draw_uniform : Q) (draw_gauss : list nat -> R) :
  uniform_lt draw_uniform random_hflip_img = false ->
  get_spatial_latents pixel_values random_hflip_img cache_latents
                      noisy_latents target timesteps noise_scheduler
                      draw_idx draw_uniform draw_gauss
  = (let? high := dim 2 pixel_values in
     let? ran_idx := randint high draw_idx in
     let? noisy_latents_input := slice5 2 ran_idx noisy_latents in
     let? target_spatial := slice5 2 ran_idx target in
     Ok (noisy_latents_input, target_spatial, false)).
Proof. intros H. unfold get_spatial_latents. now rewrite H. Qed.

Lemma uniform_lt_minus_one (u : Q) : (0 <= u)%Q -> uniform_lt u (-1) = false.
Proof.
  intros H. destruct (uniform_lt u (-1)) eqn:E; [|reflexivity].
  apply uniform_lt_spec in E. exfalso.
  apply (Qlt_not_le _ _ E). apply Qle_trans with 0%Q; [|exact H].
  discriminate.
Qed.

(** What [setup] fixes, whatever the inputs. *)
Lemma setup_locals (i : Inputs.t) (l : Locals.t) :
  setup i = Ok l ->
  Locals.pixel_values l
  = unsqueeze 0 (permute [0; 3; 1; 2]%nat
                         (tmap (fun x => x * 2 - 1)%R (Inputs.images i)))
  /\ length (shape (Inputs.images i)) = 4%nat
  /\ Locals.random_hflip_img l = (-1)%Q
  /\ Locals.lora_rank l = 32%Z
  /\ Locals.lora_unet_dropout l = 0.1%Q
  /\ Locals.train_temporal_lora l = true
  /\ Locals.spatial_lora_num l = 1%nat
  /\ Locals.cache_latents l = false
  /\ Locals.use_offset_noise l = false
  /\ Locals.validation_steps l = 25%Z
  /\ Locals.validation_steps_tuple l = [2; 25]%Z.
Proof.
  unfold setup.
  destruct (dim 1 (Inputs.images i)); [|discriminate].
  destruct (dim 2 (Inputs.images i)); [|discriminate]. simpl.
  destruct (length (shape (Inputs.images i)) =? 4)%nat eqn:E4;
    [|discriminate].
  apply Nat.eqb_eq in E4. simpl.
  destruct (Inputs.max_train_steps i =? -1)%Z;
    [destruct (Inputs.max_train_epoch i =? -1)%Z; [discriminate|]|];
    (destruct (Inputs.checkpointing_steps i =? -1)%Z;
     [destruct (Inputs.checkpointing_epochs i =? -1)%Z; [discriminate|]|]);
    simpl; intros [= <-]; simpl; repeat split; assumption.
Qed.

(** ** The offset-noise flag *)

(** C7 (corrected): the node has no offset-noise toggle.  [process]
    sets [use_offset_noise = False] as a local constant (line 337), so
    the locals of every run have the flag clear, and it calls
    sample_noise with the literal [noise_strength] 0 (line 588).
    sample_noise itself, with its flag set, adds [noise_strength] times
    an offset draw that is constant over height and width to the
    Gaussian sample.  On a five-dimensional latent clip the call of the
    loop therefore returns the plain Gaussian sample, entry for entry,
    with the flag clear and with the flag set alike, whatever the
    offset draw is: the noise shared by the two branches of a pass is
    the Gaussian draw.  In binary32 arithmetic too the bias [0 * offset]
    of a finite offset draw leaves a Gaussian entry as it is (a -0.0
    can become +0.0). *)
Theorem offset_noise_toggle_has_no_effect
    (latents : tensor) (gauss offset : list nat -> R) :
  length (shape latents) = 5%nat ->
  (forall noise_strength, exists noise,
      sample_noise latents noise_strength true gauss offset = Ok noise
      /\ shape noise = shape latents
      /\ forall ib ic jf ih iw,
           Forall2 lt [ib; ic; jf; ih; iw] (shape latents) ->
           data noise [ib; ic; jf; ih; iw]
           = (gauss [ib; ic; jf; ih; iw]
              + noise_strength * offset [ib; ic; jf; 0; 0]%nat)%R)
  /\ sample_noise latents 0 false gauss offset
     = Ok (mk (shape latents) gauss)
  /\ (exists noise,
       sample_noise latents 0 true gauss offset = Ok noise
       /\ shape noise = shape latents
       /\ forall idx, Forall2 lt idx (shape latents) ->
                      data noise idx = gauss idx)
  /\ (forall (l : Locals.t) (e : step_env) (noise : tensor),
       shared_noise l e = Ok (latents, noise) ->
       shape noise = shape latents
       /\ forall idx, Forall2 lt idx (shape latents) ->
                      data noise idx = e_gauss e idx)
  /\ (forall (i : Inputs.t) (l : Locals.t),
       setup i = Ok l -> Locals.use_offset_noise l = false)
  /\ forall g o : Float32.float,
       Float32.is_finite o = true ->
       Float32.fadd g (Float32.fmul (Float32.of_Z 0) o) = g
       \/ (g = Float32.neg_zero
           /\ Float32.fadd g (Float32.fmul (Float32.of_Z 0) o)
              = Float32.zero).
Proof.
  intros Hrank.
  split; [intros k; now apply sample_noise_offset|].
  split.
  { unfold sample_noise.
    destruct (shape latents) as [|b [|c [|f s]]]; try discriminate.
    reflexivity. }
  split; [now apply sample_noise_zero_strength|].
  split.
  { intros l e noise. unfold shared_noise. cbv zeta.
    destruct (dim 2 (Locals.pixel_values l)); [|discriminate]. simpl.
    destruct (dim 0 (Locals.pixel_values l)); [|discriminate]. simpl.
    destruct (if negb (Locals.cache_latents l)
              then tensor_to_vae_latent (Locals.pixel_values l) (e_vae e)
              else Ok (Locals.pixel_values l)) as [lat|]; [|discriminate].
    simpl.
    destruct (sample_noise lat 0 (Locals.use_offset_noise l)
                           (e_gauss e) (e_offset e)) as [n'|] eqn:Es;
      [|discriminate].
    simpl. intros [= -> ->].
    destruct (sample_noise_zero_strength
                latents (Locals.use_offset_noise l) (e_gauss e) (e_offset e)
                Hrank) as (n2 & E2 & Hs2 & Hd2).
    rewrite Es in E2. injection E2 as <-. now split. }
  split.
  { intros i l H.
    destruct (setup_locals i l H)
      as (_ & _ & _ & _ & _ & _ & _ & _ & Ho & _).
    exact Ho. }
  intros g o Ho.
  destruct o as [so|so| |so mo eo]; try discriminate;
    destruct g as [[|]|sg| |sg mg eg]; destruct so; cbv; auto.
Qed.

Lemma offset_noise_toggle_has_no_effect_witness :
  length (shape (sample_latents 0)) = 5%nat
  /\ exists noise,
       sample_noise (sample_latents 0) 0 true (fun _ => 0%R) (fun _ => 1%R)
       = Ok noise
       /\ shape noise = shape (sample_latents 0)
       /\ forall idx, Forall2 lt idx (shape (sample_latents 0)) ->
                      data noise idx = 0%R.
Proof.
  assert (H : length (shape (sample_latents 0)) = 5%nat) by reflexivity.
  split; [exact H|].
  exact (proj1 (proj2 (proj2 (offset_noise_toggle_has_no_effect
                                (sample_latents 0) (fun _ => 0%R)
                                (fun _ => 1%R) H)))).
Defined.

(** C7 as stated fails: no run has a toggle to enable.  On the sample
    clip [setup] returns locals with the flag clear, and although the
    offset draw of the pass is 1 at every entry the noise of the pass
    is the Gaussian draw; and the call of the loop with the flag set
    returns the Gaussian draw as well, the bias being 0 times the
    offset. *)
Lemma offset_draw_never_biases_noise :
  setup (sample_inputs 32) = Ok (sample_locals (sample_images 4) 3 1)
  /\ Locals.use_offset_noise (sample_locals (sample_images 4) 3 1) = false
  /\ e_offset (sample_step_env false) [0; 0; 0; 0; 0]%nat <> 0%R
  /\ (exists latents noise,
        shared_noise (sample_locals (sample_images 4) 3 1)
                     (sample_step_env false)
        = Ok (latents, noise)
        /\ shape noise = [1; 4; 4; 1; 1]%nat
        /\ forall idx, data noise idx = e_gauss (sample_step_env false) idx)
  /\ exists noise,
       sample_noise (sample_latents 0) 0 true
                    (e_gauss (sample_step_env false))
                    (e_offset (sample_step_env false))
       = Ok noise
       /\ forall idx, Forall2 lt idx (shape (sample_latents 0)) ->
                      data noise idx = e_gauss (sample_step_env false) idx.
Proof.
  split; [reflexivity|]. split; [reflexivity|].
  split; [simpl; lra|]. split.
  - eexists. eexists. split; [reflexivity|]. split; reflexivity.
  - destruct (sample_noise_zero_strength
                (sample_latents 0) true (e_gauss (sample_step_env false))
                (e_offset (sample_step_env false)) eq_refl)
      as (noise & E & _ & Hd).
    exists noise. split; [exact E | exact Hd].
Qed.

Lemma setup_pixel_values_shape (i : Inputs.t) (l : Locals.t)
    (n h w c : nat) :
  setup i = Ok l -> shape (Inputs.images i) = [n; h; w; c] ->
  shape (Locals.pixel_values l) = [1%nat; n; c; h; w].
Proof.
  intros Hs Hi. destruct (setup_locals i l Hs) as [-> _].
  unfold unsqueeze, permute, tmap, insert_at. simpl. now rewrite Hi.
Qed.

(** C6 (what the code does): [process] lays the clip out as (batch,
    frames, channels, height, width), and get_spatial_latents draws its
    index below [pixel_values.shape[2]], which in that layout is the
    number of channels, not the number of frames: for a clip of [n]
    frames with [c] channels the shared tensors are sliced at an index
    below [c]. *)
Theorem spatial_index_bound_is_channels
    (i : Inputs.t) (l : Locals.t) (n h w c : nat)
    (noisy_latents target : tensor) (timesteps : list nat)
    (noise_scheduler : scheduler_t)
    (draw_idx : nat) (draw_uniform : Q) (draw_gauss : list nat -> R) :
  setup i = Ok l ->
  shape (Inputs.images i) = [n; h; w; c] ->
  (0 <= draw_uniform)%Q ->
  dim 1 (Locals.pixel_values l) = Ok n
  /\ dim 2 (Locals.pixel_values l) = Ok c
  /\ get_spatial_latents
       (Locals.pixel_values l) (Locals.random_hflip_img l)
       (Locals.cache_latents l) noisy_latents target timesteps
       noise_scheduler draw_idx draw_uniform draw_gauss
     = (let? ran_idx := randint c draw_idx in
        let? noisy_latents_input := slice5 2 ran_idx noisy_latents in
        let? target_spatial := slice5 2 ran_idx target in
        Ok (noisy_latents_input, target_spatial, false))
  /\ forall ran_idx, randint c draw_idx = Ok ran_idx -> (ran_idx < c)%nat.
Proof.
  intros Hs Hi Hu.
  pose proof (setup_pixel_values_shape i l n h w c Hs Hi) as Hpv.
  destruct (setup_locals i l Hs) as (_ & _ & Hflip & _).
  assert (H1 : dim 1 (Locals.pixel_values l) = Ok n)
    by (unfold dim; now rewrite Hpv).
  assert (H2 : dim 2 (Locals.pixel_values l) = Ok c)
    by (unfold dim; now rewrite Hpv).
  repeat split; try assumption.
  - rewrite get_spatial_latents_no_hflip
      by (rewrite Hflip; now apply uniform_lt_minus_one).
    now rewrite H2.
  - intros ran_idx. apply randint_range.
Qed.

Lemma spatial_index_bound_is_channels_witness :
  setup sample_inputs16 = Ok (sample_locals sample_clip16 300 100)
  /\ shape (Inputs.images sample_inputs16) = [16; 64; 64; 3]%nat
  /\ (0 <= 0.5)%Q
  /\ dim 1 (Locals.pixel_values (sample_locals sample_clip16 300 100))
     = Ok 16%nat
  /\ dim 2 (Locals.pixel_values (sample_locals sample_clip16 300 100))
     = Ok 3%nat
  /\ forall ran_idx, randint 3 7 = Ok ran_idx -> (ran_idx < 3)%nat.
Proof.
  assert (H1 : setup sample_inputs16
               = Ok (sample_locals sample_clip16 300 100)) by reflexivity.
  assert (H2 : shape (Inputs.images sample_inputs16)
               = [16; 64; 64; 3]%nat) by reflexivity.
  assert (H3 : (0 <= 0.5)%Q) by discriminate.
  pose proof (spatial_index_bound_is_channels
                sample_inputs16 _ 16 64 64 3
                (sample_latents 0) (sample_latents 0) [0%nat]
                (fun t _ _ => t) 7 0.5 (fun _ => 0%R) H1 H2 H3)
    as (Ha & Hb & _ & Hc).
  repeat split; assumption.
Defined.

(** With a clip of two frames the index drawn below the three channels
    can be 2, and the slice of the two-frame latents raises in the first
    pass. *)
Lemma two_frame_clip_index_error :
  dim 1 (Locals.pixel_values (sample_locals (sample_images 2) 3 1))
  = Ok 2%nat
  /\ snd (run sample_inputs2 sample_world_idx2) = Raise IndexError
  /\ global_step (fst (run sample_inputs2 sample_world_idx2)) = 0%Z.
Proof. repeat split; vm_compute; reflexivity. Qed.

(** ** What a computation leaves unchanged *)

Section Frame.
Context {X : Type} (f : state -> X).

Lemma frame_ret {A} (a : A) : frame f (ret a).
Proof. intros s. reflexivity. Qed.

Lemma frame_raise {A} (e : exn) : frame f (raise (A:=A) e).
Proof. intros s. reflexivity. Qed.

Lemma frame_lift {A} (r : result A) : frame f (lift r).
Proof. intros s. reflexivity. Qed.

Lemma frame_get_global_step : frame f get_global_step.
Proof. intros s. reflexivity. Qed.

Lemma frame_bind {A B} (m : M A) (k : A -> M B) :
  frame f m -> (forall a, frame f (k a)) -> frame f (bind m k).
Proof.
  intros Hm Hk s. unfold bind. specialize (Hm s).
  destruct (m s) as [s1 [a|e]]; simpl in *.
  - now rewrite Hk.
  - exact Hm.
Qed.

Lemma frame_when (b : bool) (m : M unit) : frame f m -> frame f (when b m).
Proof. intros H. destruct b; [exact H | apply frame_ret]. Qed.

Lemma frame_for_range (g : nat -> M unit) (start n : nat) :
  (forall i, frame f (g i)) -> frame f (for_range g start n).
Proof.
  intros Hg. revert start. induction n as [|n IH]; intros start; simpl.
  - apply frame_ret.
  - apply frame_bind; [apply Hg | intros _; apply IH].
Qed.

Lemma frame_emit (ev : event) :
  (forall gs sm tr, f (mk_state gs sm (ev :: tr)) = f (mk_state gs sm tr)) ->
  frame f (emit ev).
Proof. intros H [gs sm tr]. apply H. Qed.

Lemma frame_external (raises : bool) (ev : event) :
  (forall gs sm tr, f (mk_state gs sm (ev :: tr)) = f (mk_state gs sm tr)) ->
  frame f (external raises ev).
Proof.
  intros H. unfold external. destruct raises;
    [apply frame_raise | now apply frame_emit].
Qed.

Lemma frame_set_samples (v : list Z) :
  (forall gs sm tr, f (mk_state gs (Some v) tr) = f (mk_state gs sm tr)) ->
  frame f (set_samples v).
Proof. intros H [gs sm tr]. apply H. Qed.

Lemma frame_incr_global_step :
  (forall gs sm tr, f (mk_state (gs + 1) sm tr) = f (mk_state gs sm tr)) ->
  frame f incr_global_step.
Proof. intros H [gs sm tr]. apply H. Qed.

Lemma frame_return_samples : frame f return_samples.
Proof. intros s. unfold return_samples. now destruct (samples s). Qed.

End Frame.

(** Frames of the phases of the loop body, by the rules above. *)
Ltac frame_tac :=
  repeat first
    [ apply frame_ret | apply frame_raise | apply frame_lift
    | apply frame_get_global_step | apply frame_return_samples
    | apply frame_bind; [|intros]
    | apply frame_when
    | apply frame_for_range; intros
    | apply frame_emit; intros; reflexivity
    | apply frame_external; intros; reflexivity
    | apply frame_set_samples; intros; reflexivity
    | apply frame_incr_global_step; intros; reflexivity
    | match goal with
      | |- frame _ (if ?b then _ else _) => destruct b
      | |- frame _ (match ?x with _ => _ end) => destruct x
      | |- frame _ (let _ := _ in _) => cbv zeta
      end ].

Lemma zero_grads_counters (l : Locals.t) : frame counters (zero_grads l).
Proof. unfold zero_grads. frame_tac. Qed.

Lemma spatial_branch_counters l w e step mask latents noise :
  frame counters (spatial_branch l w e step mask latents noise).
Proof. unfold spatial_branch. frame_tac. Qed.

Lemma temporal_branch_counters w e mask latents noise :
  frame counters (temporal_branch w e mask latents noise).
Proof. unfold temporal_branch. frame_tac. Qed.

Lemma backpropagate_counters l e step ms mt :
  frame counters (backpropagate l e step ms mt).
Proof. unfold backpropagate, spatial_member. frame_tac. Qed.

Lemma save_checkpoint_counters l e : frame counters (save_checkpoint l e).
Proof. unfold save_checkpoint. frame_tac. Qed.

Lemma validate_counters l e : frame counters (validate l e).
Proof. unfold validate. frame_tac. Qed.

Lemma make_logs_counters ls lt : frame counters (make_logs ls lt).
Proof. unfold make_logs. frame_tac. Qed.

Lemma inject_loras_counters l : frame counters (inject_loras l).
Proof. unfold inject_loras. frame_tac. Qed.

Lemma return_samples_counters : frame counters return_samples.
Proof. frame_tac. Qed.

Lemma backpropagate_scaler_steps l e step ms mt s :
  (scaler_steps s <= scaler_steps (fst (backpropagate l e step ms mt s))
   <= scaler_steps s + 2)%Z.
Proof.
  destruct s as [gs sm tr].
  unfold backpropagate, spatial_member, bind, when, emit, ret, raise.
  destruct ms, mt, (Locals.train_temporal_lora l),
    (Locals.spatial_lora_num l =? 1)%nat,
    (step <? Locals.spatial_lora_num l)%nat, (e_has_grad e);
    simpl; unfold scaler_steps, count; simpl; lia.
Qed.

Lemma zero_grads_scaler_steps l : frame scaler_steps (zero_grads l).
Proof. unfold zero_grads. frame_tac. Qed.

Lemma spatial_branch_scaler_steps l w e step mask latents noise :
  frame scaler_steps (spatial_branch l w e step mask latents noise).
Proof. unfold spatial_branch. frame_tac. Qed.

Lemma temporal_branch_scaler_steps w e mask latents noise :
  frame scaler_steps (temporal_branch w e mask latents noise).
Proof. unfold temporal_branch. frame_tac. Qed.

Lemma save_checkpoint_scaler_steps l e :
  frame scaler_steps (save_checkpoint l e).
Proof. unfold save_checkpoint. frame_tac. Qed.

Lemma validate_scaler_steps l e : frame scaler_steps (validate l e).
Proof. unfold validate. frame_tac. Qed.

Lemma make_logs_scaler_steps ls lt : frame scaler_steps (make_logs ls lt).
Proof. unfold make_logs. frame_tac. Qed.

(** ** One pass through the loop body *)

Lemma bind_cases {A B} (m : M A) (k : A -> M B) (s : state) :
  (exists s1 a, m s = (s1, Ok a) /\ bind m k s = k a s1)
  \/ (exists s1 e, m s = (s1, Raise e) /\ bind m k s = (s1, Raise e)).
Proof.
  unfold bind. destruct (m s) as [s1 [a|e]]; [left|right]; eauto.
Qed.

Lemma bind_frame_cases {X A B} (f : state -> X) (m : M A) (k : A -> M B)
    (s : state) :
  frame f m ->
  (exists s1 a, f s1 = f s /\ bind m k s = k a s1)
  \/ (exists s1 e, f s1 = f s /\ bind m k s = (s1, Raise e)).
Proof.
  intros F. specialize (F s).
  destruct (bind_cases m k s) as [(s1 & a & E & ->) | (s1 & e & E & ->)];
    rewrite E in F; simpl in F; [left|right]; eauto.
Qed.

(** Runs the first phase of a sequence whose frame is [F]. *)
Ltac phase f F :=
  match goal with
  | |- context [bind ?m ?k ?s] =>
      let s1 := fresh "s" in
      let Fr := fresh "Fr" in
      destruct (bind_frame_cases f m k s F)
        as [(s1 & ? & Fr & ->) | (s1 & ? & Fr & ->)];
      cbv beta zeta
  end.

Ltac split_pair :=
  match goal with
  | |- context [let '(_, _) := ?p in _] => destruct p
  end.

Lemma finish_step_spec (l : Locals.t) (step : nat) (s : state) :
  match finish_step l step s with
  | (s', Ok _) => advanced l s s' /\ scaler_steps s' = scaler_steps s
  | (s', Raise _) => s' = s
  end.
Proof.
  destruct s as [gs sm tr].
  unfold finish_step, step_schedules, spatial_member, bind, when, emit,
    incr_global_step, ret, raise, advanced.
  destruct (Locals.spatial_lora_num l =? 1)%nat;
    [|destruct (step <? Locals.spatial_lora_num l)%nat];
    destruct (Locals.train_temporal_lora l); simpl;
    unfold counters, scaler_updates, lr_steps_spatial, lr_steps_temporal,
      scaler_steps, count; simpl.
  all: try reflexivity.
  all: repeat split; repeat f_equal; lia.
Qed.

(** A pass either raises before line 679 and leaves the counters alone,
    or makes the calls of lines 679-693 once each. *)
Lemma train_step_counters (l : Locals.t) (w : world) (e : step_env)
    (step : nat) (s : state) :
  (counters (fst (train_step l w e step s)) = counters s
   /\ exists ex, snd (train_step l w e step s) = Raise ex)
  \/ advanced l s (fst (train_step l w e step s)).
Proof.
  unfold train_step.
  phase counters (zero_grads_counters l).
  2:{ left. simpl. eauto. }
  phase counters (frame_lift counters (shared_noise l e)).
  2:{ left. simpl. split; [congruence | eauto]. }
  split_pair.
  phase counters (spatial_branch_counters l w e step
                    (mask_spatial (e_mask e)
                       (mask_temporal (Locals.train_temporal_lora l)))
                    t t0).
  2:{ left. simpl. split; [congruence | eauto]. }
  phase counters (temporal_branch_counters w e
                    (mask_temporal (Locals.train_temporal_lora l)) t t0).
  2:{ left. simpl. split; [congruence | eauto]. }
  phase counters (backpropagate_counters l e step
                    (mask_spatial (e_mask e)
                       (mask_temporal (Locals.train_temporal_lora l)))
                    (mask_temporal (Locals.train_temporal_lora l))).
  2:{ left. simpl. split; [congruence | eauto]. }
  assert (E4 : counters s4 = counters s) by congruence.
  clear Fr Fr0 Fr1 Fr2 Fr3.
  match goal with
  | |- context [bind ?m ?k ?s] =>
      destruct (bind_cases m k s) as [(s5 & ? & E & ->) | (s5 & ? & E & ->)]
  end; pose proof (finish_step_spec l step s4) as F; rewrite E in F.
  2:{ left. simpl. subst s5. eauto. }
  destruct F as (F & _).
  assert (A5 : advanced l s s5).
  { unfold advanced in *. rewrite F. unfold counters in E4.
    injection E4 as -> -> -> ->. reflexivity. }
  right. unfold advanced in *. rewrite <- A5.
  phase counters (save_checkpoint_counters l e); [|simpl; congruence].
  phase counters (validate_counters l e); [|simpl; congruence].
  rewrite (make_logs_counters _ _ _). congruence.
Qed.

Lemma train_step_scaler_steps (l : Locals.t) (w : world) (e : step_env)
    (step : nat) (s : state) :
  (scaler_steps s <= scaler_steps (fst (train_step l w e step s))
   <= scaler_steps s + 2)%Z.
Proof.
  unfold train_step.
  phase scaler_steps (zero_grads_scaler_steps l); [|simpl; lia].
  phase scaler_steps (frame_lift scaler_steps (shared_noise l e));
    [|simpl; lia].
  split_pair.
  phase scaler_steps (spatial_branch_scaler_steps l w e step
                        (mask_spatial (e_mask e)
                           (mask_temporal (Locals.train_temporal_lora l)))
                        t t0); [|simpl; lia].
  phase scaler_steps (temporal_branch_scaler_steps w e
                        (mask_temporal (Locals.train_temporal_lora l)) t t0);
    [|simpl; lia].
  assert (E3 : scaler_steps s3 = scaler_steps s) by congruence.
  clear Fr Fr0 Fr1 Fr2.
  match goal with
  | |- context [bind ?m ?k ?s] =>
      pose proof (backpropagate_scaler_steps
                    l e step
                    (mask_spatial (e_mask e)
                       (mask_temporal (Locals.train_temporal_lora l)))
                    (mask_temporal (Locals.train_temporal_lora l)) s) as B;
      destruct (bind_cases m k s) as [(s4 & ? & E & ->) | (s4 & ? & E & ->)]
  end; rewrite E in B; simpl in B; [|simpl; lia].
  match goal with
  | |- context [bind ?m ?k ?s] =>
      destruct (bind_cases m k s) as [(s5 & ? & E' & ->) | (s5 & ? & E' & ->)]
  end; pose proof (finish_step_spec l step s4) as F; rewrite E' in F.
  2:{ simpl. subst s5. lia. }
  destruct F as (_ & F).
  phase scaler_steps (save_checkpoint_scaler_steps l e); [|simpl; lia].
  phase scaler_steps (validate_scaler_steps l e); [|simpl; lia].
  rewrite (make_logs_scaler_steps _ _ _). lia.
Qed.

Lemma train_step_ok_advanced l w e step s s' :
  train_step l w e step s = (s', Ok tt) -> advanced l s s'.
Proof.
  intros H. destruct (train_step_counters l w e step s) as [[_ [ex E]]|A];
    rewrite H in *; simpl in *; [discriminate | exact A].
Qed.

Lemma advanced_bookkeeping l s s' :
  bookkeeping l s -> advanced l s s' -> bookkeeping l s'.
Proof.
  unfold bookkeeping, advanced, counters.
  intros (H1 & H2 & H3) [= -> E2 E3 E4].
  repeat split; try lia.
  intros Ht. rewrite Ht in E4. specialize (H3 Ht). lia.
Qed.

Lemma same_counters_bookkeeping l s s' :
  bookkeeping l s -> counters s' = counters s -> bookkeeping l s'.
Proof.
  unfold bookkeeping, counters. intros H [= -> -> -> ->]. exact H.
Qed.

Lemma train_step_bookkeeping l w e step s :
  bookkeeping l s -> bookkeeping l (fst (train_step l w e step s)).
Proof.
  intros H. destruct (train_step_counters l w e step s) as [[E _]|A].
  - now apply (same_counters_bookkeeping l s).
  - now apply (advanced_bookkeeping l s).
Qed.

(** ** The loop *)

Lemma for_range_preserves (I : state -> Prop) (g : nat -> M unit) :
  (forall i s, I s -> I (fst (g i s))) ->
  forall n start s, I s -> I (fst (for_range g start n s)).
Proof.
  intros Hg. induction n as [|n IH]; intros start s Hs; simpl.
  - exact Hs.
  - specialize (Hg start s Hs). unfold bind.
    destruct (g start s) as [s1 [[]|e]]; simpl in *.
    + now apply IH.
    + exact Hg.
Qed.

(** A loop that returns has made all its passes, each of which
    returned. *)
Lemma for_range_ok (P : nat -> state -> Prop) (g : nat -> M unit) :
  (forall i s s', P i s -> g i s = (s', Ok tt) -> P (S i) s') ->
  forall n start s s',
    P start s -> for_range g start n s = (s', Ok tt) -> P (start + n)%nat s'.
Proof.
  intros Hg. induction n as [|n IH]; intros start s s' Hs; simpl.
  - intros [= <-]. now rewrite Nat.add_0_r.
  - unfold bind. destruct (g start s) as [s1 [[]|e]] eqn:E; [|discriminate].
    intros H. rewrite Nat.add_succ_r. apply (IH (S start) s1 s').
    + exact (Hg _ _ _ Hs E).
    + exact H.
Qed.

Lemma inner_loop_eq l w e s :
  for_range (fun step => train_step l w e step) 0 batch_size s
  = match train_step l w e 0%nat s with
    | (s', Ok _) => (s', Ok tt)
    | (s', Raise ex) => (s', Raise ex)
    end.
Proof. reflexivity. Qed.

Lemma inner_loop_ok l w e s s' :
  for_range (fun step => train_step l w e step) 0 batch_size s = (s', Ok tt)
  -> train_step l w e 0%nat s = (s', Ok tt).
Proof.
  rewrite inner_loop_eq.
  destruct (train_step l w e 0%nat s) as [s1 [[]|ex]]; congruence.
Qed.

Lemma inner_loop_fst l w e s :
  fst (for_range (fun step => train_step l w e step) 0 batch_size s)
  = fst (train_step l w e 0%nat s).
Proof.
  rewrite inner_loop_eq. now destruct (train_step l w e 0%nat s) as [s1 [|]].
Qed.

Lemma num_train_epochs_eq (l : Locals.t) :
  num_train_epochs l = Locals.max_train_steps l.
Proof.
  unfold num_train_epochs, num_update_steps_per_epoch,
    gradient_accumulation_steps.
  rewrite <- (Qceiling_Z (Locals.max_train_steps l)) at 2.
  apply Qceiling_comp. field.
Qed.

Lemma train_loop_bookkeeping l w s :
  bookkeeping l s -> bookkeeping l (fst (train_loop l w s)).
Proof.
  intros H. unfold train_loop. apply for_range_preserves; [|exact H].
  intros i s0 H0. rewrite inner_loop_fst. now apply train_step_bookkeeping.
Qed.

Lemma train_loop_ok_steps l w s s' :
  train_loop l w s = (s', Ok tt) ->
  global_step s' = (global_step s + Z.max 0 (Locals.max_train_steps l))%Z.
Proof.
  unfold train_loop. rewrite num_train_epochs_eq. intros H.
  assert (L : global_step s'
              = (global_step s
                 + Z.of_nat (0 + Z.to_nat (Locals.max_train_steps l)))%Z).
  { revert H.
    apply (for_range_ok
             (fun i s0 => global_step s0 = (global_step s + Z.of_nat i)%Z)).
    - intros i s0 s0' H0 E. apply inner_loop_ok in E.
      apply train_step_ok_advanced in E. unfold advanced, counters in E.
      injection E as -> _ _ _. lia.
    - cbn. lia. }
  lia.
Qed.

(** ** The run of the node *)

Lemma for_range_emit_ok (ev : event) (n start : nat) (s : state) :
  snd (for_range (fun _ => emit ev) start n s) = Ok tt.
Proof.
  revert start s. induction n as [|n IH]; intros start s; simpl.
  - reflexivity.
  - unfold bind. simpl. apply IH.
Qed.

Lemma inject_loras_ok (l : Locals.t) (s : state) :
  snd (inject_loras l s) = Ok tt.
Proof.
  unfold inject_loras, bind, when.
  destruct (Locals.train_temporal_lora l); simpl; apply for_range_emit_ok.
Qed.

(** The state in which the loop starts. *)
Lemma inject_loras_bookkeeping (l : Locals.t) :
  counters (fst (inject_loras l init_state)) = (0, 0, 0, 0)%Z
  /\ bookkeeping l (fst (inject_loras l init_state)).
Proof.
  pose proof (inject_loras_counters l init_state) as H.
  split; [exact H|]. apply (same_counters_bookkeeping l init_state).
  - repeat split.
  - exact H.
Qed.

Lemma run_cases (i : Inputs.t) (w : world) :
  match setup i with
  | Raise e => run i w = (init_state, Raise e)
  | Ok l =>
      run i w
      = match train_loop l w (fst (inject_loras l init_state)) with
        | (s, Ok _) => return_samples s
        | (s, Raise e) => (s, Raise e)
        end
  end.
Proof.
  unfold run, process, bind, lift. destruct (setup i) as [l|e]; simpl.
  - pose proof (inject_loras_ok l init_state) as H.
    destruct (inject_loras l init_state) as [s1 [[]|e]]; simpl in *;
      [reflexivity | discriminate].
  - reflexivity.
Qed.

Lemma run_state (i : Inputs.t) (w : world) (l : Locals.t) :
  setup i = Ok l ->
  counters (fst (run i w))
  = counters (fst (train_loop l w (fst (inject_loras l init_state)))).
Proof.
  intros H. pose proof (run_cases i w) as R. rewrite H in R. rewrite R.
  destruct (train_loop l w (fst (inject_loras l init_state)))
    as [s [[]|e]]; simpl; [|reflexivity].
  apply return_samples_counters.
Qed.

Lemma run_ok_loop_ok (i : Inputs.t) (w : world) (l : Locals.t) (v : list Z) :
  setup i = Ok l -> snd (run i w) = Ok v ->
  exists s, train_loop l w (fst (inject_loras l init_state)) = (s, Ok tt).
Proof.
  intros H. pose proof (run_cases i w) as R. rewrite H in R. rewrite R.
  destruct (train_loop l w (fst (inject_loras l init_state)))
    as [s [[]|e]]; simpl; [eauto | discriminate].
Qed.

Lemma run_bookkeeping (i : Inputs.t) (w : world) (l : Locals.t) :
  setup i = Ok l -> bookkeeping l (fst (run i w)).
Proof.
  intros H.
  apply (same_counters_bookkeeping
           l (fst (train_loop l w (fst (inject_loras l init_state))))).
  - apply train_loop_bookkeeping, inject_loras_bookkeeping.
  - now apply run_state.
Qed.

Lemma run_ok_steps (i : Inputs.t) (w : world) (l : Locals.t) (v : list Z) :
  setup i = Ok l -> snd (run i w) = Ok v ->
  global_step (fst (run i w)) = Z.max 0 (Locals.max_train_steps l).
Proof.
  intros H Hv. destruct (run_ok_loop_ok i w l v H Hv) as [s E].
  pose proof (run_state i w l H) as C. rewrite E in C. simpl in C.
  pose proof (train_loop_ok_steps l w _ _ E) as G.
  destruct (inject_loras_bookkeeping l) as [Z0 _].
  unfold counters in C, Z0. injection C as C _ _ _. injection Z0 as Z0 _ _ _.
  lia.
Qed.

(** With one spatial member, what lines 662-677 add to the trace. *)
Lemma backpropagate_trace l e step ms mt s :
  Locals.spatial_lora_num l = 1%nat ->
  trace (fst (backpropagate l e step ms mt s))
  = (if negb mt && Locals.train_temporal_lora l
     then [ScalerStep Temporal; ScalerBackward TemporalLoras] else [])
    ++ (if ms then []
        else [ScalerStep (Spatial 0); ScalerBackward SpatialLoras])
    ++ trace s.
Proof.
  intros H. destruct s as [gs sm tr].
  unfold backpropagate, bind, when, emit, ret. rewrite H.
  destruct ms, mt, (Locals.train_temporal_lora l); reflexivity.
Qed.

(** C4: there is one gradient scaler, and both roles' backward passes
    and optimizer steps go through it (lines 662-677).  A pass through
    the loop body makes between zero and two [scaler.step] calls, and
    whatever their number a pass that returns has made exactly one
    [scaler.update()] call; a pass that raises has made one exactly if
    it had reached [global_step += 1].  Over a run of the node the
    number of [scaler.update()] calls is therefore the number of passes
    counted by [global_step]. *)
Theorem scaler_update_once_per_step :
  (forall (l : Locals.t) (e : step_env) (step : nat)
          (mask_spatial_lora mask_temporal_lora : bool) (s : state),
      Locals.spatial_lora_num l = 1%nat ->
      trace (fst (backpropagate l e step mask_spatial_lora
                                mask_temporal_lora s))
      = (if negb mask_temporal_lora && Locals.train_temporal_lora l
         then [ScalerStep Temporal; ScalerBackward TemporalLoras] else [])
        ++ (if mask_spatial_lora then []
            else [ScalerStep (Spatial 0); ScalerBackward SpatialLoras])
        ++ trace s)
  /\ (forall (l : Locals.t) (w : world) (e : step_env) (step : nat)
             (s : state),
      let r := train_step l w e step s in
      (scaler_steps s <= scaler_steps (fst r) <= scaler_steps s + 2)%Z
      /\ match snd r with
         | Ok _ =>
             scaler_updates (fst r) = (scaler_updates s + 1)%Z
             /\ global_step (fst r) = (global_step s + 1)%Z
         | Raise _ =>
             (scaler_updates (fst r) = scaler_updates s
              /\ global_step (fst r) = global_step s)
             \/ (scaler_updates (fst r) = (scaler_updates s + 1)%Z
                 /\ global_step (fst r) = (global_step s + 1)%Z)
         end)
  /\ (forall (i : Inputs.t) (w : world),
         scaler_updates (fst (run i w)) = global_step (fst (run i w))).
Proof.
  split; [exact backpropagate_trace|]. split.
  - intros l w e step s r. subst r.
    split; [apply train_step_scaler_steps|].
    destruct (train_step_counters l w e step s) as [[C [ex E]]|A].
    + rewrite E. left. unfold counters in C. injection C as -> -> _ _.
      now split.
    + unfold advanced, counters in A. injection A as -> -> _ _.
      destruct (snd (train_step l w e step s)); [|right]; now split.
  - intros i w. destruct (setup i) as [l|e] eqn:E.
    + now destruct (run_bookkeeping i w l E) as (H & _).
    + pose proof (run_cases i w) as R. rewrite E in R. now rewrite R.
Qed.

Lemma scaler_update_once_per_step_witness :
  Locals.spatial_lora_num (sample_locals (sample_images 4) 3 1) = 1%nat
  /\ trace (fst (backpropagate (sample_locals (sample_images 4) 3 1)
                               (sample_step_env false) 0 false false
                               init_state))
     = [ScalerStep Temporal; ScalerBackward TemporalLoras;
        ScalerStep (Spatial 0); ScalerBackward SpatialLoras]
  /\ scaler_updates (fst (run (sample_inputs 32) (sample_world false)))
     = global_step (fst (run (sample_inputs 32) (sample_world false))).
Proof.
  assert (H : Locals.spatial_lora_num (sample_locals (sample_images 4) 3 1)
              = 1%nat) by reflexivity.
  split; [exact H|]. split.
  - exact (proj1 scaler_update_once_per_step
                 (sample_locals (sample_images 4) 3 1)
                 (sample_step_env false) 0%nat false false init_state H).
  - exact (proj2 (proj2 scaler_update_once_per_step)
                 (sample_inputs 32) (sample_world false)).
Defined.

(** C5: the schedules are stepped on every pass, masked or not.
    Starting the loop from a state where each schedule has been stepped
    once per pass counted so far, the loop ends, for every choice of
    draws, with the spatial schedule and (when temporal training is
    enabled) the temporal schedule stepped once per pass counted by
    [global_step]; when the loop returns that count has grown by
    [max_train_steps].  For the node: after a run the two schedules have
    been stepped [global_step] times each, and [max_train_steps] times
    each when the run returns. *)
Theorem lr_schedules_step_every_step :
  (forall (l : Locals.t) (w : world) (s : state),
      bookkeeping l s ->
      let r := train_loop l w s in
      lr_steps_spatial (fst r) = global_step (fst r)
      /\ (Locals.train_temporal_lora l = true ->
          lr_steps_temporal (fst r) = global_step (fst r))
      /\ (snd r = Ok tt ->
          global_step (fst r)
          = (global_step s + Z.max 0 (Locals.max_train_steps l))%Z))
  /\ (forall (i : Inputs.t) (w : world) (l : Locals.t),
         setup i = Ok l ->
         lr_steps_spatial (fst (run i w)) = global_step (fst (run i w))
         /\ lr_steps_temporal (fst (run i w)) = global_step (fst (run i w))
         /\ forall v, snd (run i w) = Ok v ->
              lr_steps_spatial (fst (run i w))
              = Z.max 0 (Locals.max_train_steps l)
              /\ lr_steps_temporal (fst (run i w))
                 = Z.max 0 (Locals.max_train_steps l)).
Proof.
  split.
  - intros l w s B r. subst r.
    destruct (train_loop_bookkeeping l w s B) as (_ & H2 & H3).
    repeat split; try assumption.
    intros E. apply (train_loop_ok_steps l w).
    destruct (train_loop l w s) as [s' [[]|e]]; simpl in *; congruence.
  - intros i w l H.
    destruct (run_bookkeeping i w l H) as (_ & H2 & H3).
    destruct (setup_locals i l H) as (_ & _ & _ & _ & _ & Ht & _).
    specialize (H3 Ht). repeat split; try assumption.
    + rewrite H2. now apply (run_ok_steps i w l v).
    + rewrite H3. now apply (run_ok_steps i w l v).
Qed.

Lemma lr_schedules_step_every_step_witness :
  setup (sample_inputs 32) = Ok (sample_locals (sample_images 4) 3 1)
  /\ snd (run (sample_inputs 32) (sample_world false)) = Ok [2%Z]
  /\ lr_steps_spatial (fst (run (sample_inputs 32) (sample_world false)))
     = 3%Z
  /\ lr_steps_temporal (fst (run (sample_inputs 32) (sample_world false)))
     = 3%Z.
Proof.
  assert (H1 : setup (sample_inputs 32)
               = Ok (sample_locals (sample_images 4) 3 1)) by reflexivity.
  assert (H2 : snd (run (sample_inputs 32) (sample_world false)) = Ok [2%Z])
    by (vm_compute; reflexivity).
  split; [exact H1|]. split; [exact H2|].
  exact (proj2 (proj2 (proj2 lr_schedules_step_every_step
                         (sample_inputs 32) (sample_world false) _ H1))
               [2%Z] H2).
Defined.

(** ** The step budget *)

Lemma setup_budgets (i : Inputs.t) :
  length (shape (Inputs.images i)) = 4%nat ->
  let steps := Inputs.max_train_steps i in
  let epochs := Inputs.max_train_epoch i in
  let cks := Inputs.checkpointing_steps i in
  let cke := Inputs.checkpointing_epochs i in
  if ((steps =? -1) && (epochs =? -1) || (cks =? -1) && (cke =? -1))%Z
  then setup i = Raise AssertionError
  else exists l,
      setup i = Ok l
      /\ Locals.max_train_steps l = (if (steps =? -1)%Z then epochs else steps)
      /\ Locals.checkpointing_steps l = (if (cks =? -1)%Z then cke else cks).
Proof.
  intros Hrank. unfold setup, dim. cbn [tmap shape].
  destruct (shape (Inputs.images i)) as [|n [|h [|w' [|c [|]]]]] eqn:Hs;
    try discriminate.
  cbn [nth_error rbind length Nat.eqb].
  destruct (Inputs.max_train_steps i =? -1)%Z,
    (Inputs.max_train_epoch i =? -1)%Z,
    (Inputs.checkpointing_steps i =? -1)%Z,
    (Inputs.checkpointing_epochs i =? -1)%Z; cbn;
    try reflexivity; eexists; repeat split.
Qed.

(** C3 (amended): with a well-formed clip, the set-up of the node fails
    its assertion exactly when [max_train_steps] and [max_train_epoch]
    are both -1, or [checkpointing_steps] and [checkpointing_epochs] are
    both -1, and the node then stops before the adapters are injected
    and before any pass of the loop.  Otherwise [max_train_steps], when
    it is not -1, is the step budget whatever [max_train_epoch] is, and
    [max_train_epoch] is the budget when [max_train_steps] is -1
    (likewise for the checkpoint cadence); a run that returns has made
    exactly that many passes (300 for [max_train_epoch = 300],
    [max_train_steps = -1]). *)
Theorem step_budget_resolution (i : Inputs.t) (w : world) :
  length (shape (Inputs.images i)) = 4%nat ->
  let steps := Inputs.max_train_steps i in
  let epochs := Inputs.max_train_epoch i in
  let cks := Inputs.checkpointing_steps i in
  let cke := Inputs.checkpointing_epochs i in
  let unset := ((steps = -1 /\ epochs = -1) \/ (cks = -1 /\ cke = -1))%Z in
  (setup i = Raise AssertionError <-> unset)
  /\ (unset -> run i w = (init_state, Raise AssertionError))
  /\ (~ unset ->
      exists l,
        setup i = Ok l
        /\ Locals.max_train_steps l
           = (if (steps =? -1)%Z then epochs else steps)
        /\ Locals.checkpointing_steps l
           = (if (cks =? -1)%Z then cke else cks)
        /\ forall v, snd (run i w) = Ok v ->
             global_step (fst (run i w))
             = Z.max 0 (Locals.max_train_steps l)).
Proof.
  intros Hrank steps epochs cks cke unset.
  pose proof (setup_budgets i Hrank) as S. cbv zeta in S.
  fold steps epochs cks cke in S.
  pose proof (run_cases i w) as R.
  destruct ((steps =? -1) && (epochs =? -1) || (cks =? -1) && (cke =? -1))%Z
    eqn:E.
  - rewrite S in R.
    assert (D : unset).
    { apply orb_true_iff in E.
      destruct E as [E|E]; apply andb_true_iff in E;
        rewrite !Z.eqb_eq in E; unfold unset; tauto. }
    split; [tauto|]. split; [intros _; exact R|]. tauto.
  - destruct S as (l & Hl & Hm & Hc). rewrite Hl in R.
    apply orb_false_iff in E. destruct E as [E1 E2].
    apply andb_false_iff in E1. apply andb_false_iff in E2.
    rewrite !Z.eqb_neq in E1, E2.
    assert (D : ~ unset) by (unfold unset; lia).
    split; [split; [rewrite Hl; discriminate | tauto]|].
    split; [tauto|].
    intros _. exists l. repeat split; try assumption.
    intros v Hv. now apply (run_ok_steps i w l v).
Qed.

Lemma step_budget_resolution_witness :
  length (shape (Inputs.images (sample_inputs_budget 300 (-1)))) = 4%nat
  /\ snd (run (sample_inputs_budget 300 (-1)) (sample_world false))
     = Ok [300%Z]
  /\ exists l,
       setup (sample_inputs_budget 300 (-1)) = Ok l
       /\ Locals.max_train_steps l = 300%Z
       /\ global_step
            (fst (run (sample_inputs_budget 300 (-1)) (sample_world false)))
          = Z.max 0 (Locals.max_train_steps l).
Proof.
  assert (H : length (shape (Inputs.images (sample_inputs_budget 300 (-1))))
              = 4%nat) by reflexivity.
  assert (Hv : snd (run (sample_inputs_budget 300 (-1)) (sample_world false))
               = Ok [300%Z]) by (vm_compute; reflexivity).
  split; [exact H|]. split; [exact Hv|].
  destruct (proj2 (proj2 (step_budget_resolution
                            (sample_inputs_budget 300 (-1))
                            (sample_world false) H)))
    as (l & Hl & Hm & _ & Hg).
  - cbn. lia.
  - exists l. split; [exact Hl|]. split; [exact Hm|]. exact (Hg _ Hv).
Defined.

(** C3 as stated fails: with both budgets given (five epochs and three
    steps) the node raises nothing; it runs the three steps and
    returns. *)
Lemma both_budgets_set_is_accepted :
  Inputs.max_train_steps sample_inputs_both <> (-1)%Z
  /\ Inputs.max_train_epoch sample_inputs_both <> (-1)%Z
  /\ snd (run sample_inputs_both (sample_world false)) = Ok [2%Z]
  /\ global_step (fst (run sample_inputs_both (sample_world false))) = 3%Z.
Proof.
  split; [discriminate|]. split; [discriminate|].
  split; vm_compute; reflexivity.
Qed.

(** ** The adapter rank *)

(** C8 (what the code does): [process] assigns [lora_rank = 32] (line
    326) after receiving the input of that name, so whatever the value
    of the node's [lora_rank] input, the temporal and the spatial
    adapters are both injected with rank 32. *)
Theorem lora_rank_input_is_overridden
    (i : Inputs.t) (l : Locals.t) (s : state) :
  setup i = Ok l ->
  Locals.lora_rank l = 32%Z
  /\ add_lora_ranks (trace (fst (inject_loras l s)))
     = (SpatialLoras, 32%Z) :: (TemporalLoras, 32%Z)
       :: add_lora_ranks (trace s).
Proof.
  intros H.
  destruct (setup_locals i l H) as (_ & _ & _ & Hr & _ & Ht & Hn & _).
  split; [exact Hr|].
  unfold inject_loras. rewrite Hr, Ht, Hn. destruct s as [gs sm tr].
  reflexivity.
Qed.

Lemma lora_rank_input_is_overridden_witness :
  setup (sample_inputs 64) = Ok (sample_locals (sample_images 4) 3 1)
  /\ Inputs.lora_rank (sample_inputs 64) = 64%Z
  /\ Locals.lora_rank (sample_locals (sample_images 4) 3 1) = 32%Z
  /\ add_lora_ranks
       (trace (fst (inject_loras (sample_locals (sample_images 4) 3 1)
                                 init_state)))
     = [(SpatialLoras, 32%Z); (TemporalLoras, 32%Z)]
  /\ add_lora_ranks
       (trace (fst (run (sample_inputs 64) (sample_world false))))
     = [(SpatialLoras, 32%Z); (TemporalLoras, 32%Z)].
Proof.
  assert (H : setup (sample_inputs 64)
              = Ok (sample_locals (sample_images 4) 3 1)) by reflexivity.
  split; [exact H|]. split; [reflexivity|].
  destruct (lora_rank_input_is_overridden (sample_inputs 64) _ init_state H)
    as [H1 H2].
  split; [exact H1|]. split; [exact H2|]. vm_compute. reflexivity.
Defined.

(** ** Failing saves *)

Lemma save_checkpoint_raises (l : Locals.t) (e : step_env) (s : state) :
  checkpoint_due l (global_step s) = true ->
  e_save_spatial_raises e
  || (Locals.train_temporal_lora l && e_save_temporal_raises e) = true ->
  exists ex, snd (save_checkpoint l e s) = Raise ex.
Proof.
  intros Hd Hf. destruct s as [gs sm tr]. simpl in Hd.
  unfold save_checkpoint, bind, get_global_step, when, external, raise, ret,
    emit. simpl. rewrite Hd.
  destruct (Locals.checkpointing_steps l =? 0)%Z; [simpl; eauto|].
  destruct (Locals.spatial_lora_num l =? 0)%nat; [simpl; eauto|].
  destruct (e_save_spatial_raises e); [simpl; eauto|].
  simpl in Hf. apply andb_true_iff in Hf. destruct Hf as [-> ->].
  simpl. eauto.
Qed.

Lemma validate_raises (l : Locals.t) (e : step_env) (s : state) :
  validation_due l (global_step s) = true ->
  e_save_sample_raises e || e_save_samples_raises e = true ->
  exists ex, snd (validate l e s) = Raise ex.
Proof.
  intros Hd Hf. destruct s as [gs sm tr]. simpl in Hd.
  unfold validate, bind, get_global_step, when, external, raise, ret,
    emit, set_samples. simpl. rewrite Hd.
  destruct (Locals.validation_steps l =? 0)%Z; [simpl; eauto|].
  destruct (e_sampler_raises e); [simpl; eauto|].
  destruct (e_save_sample_raises e); [simpl; eauto|].
  simpl in Hf. rewrite Hf. simpl. eauto.
Qed.

Lemma bind_raises {A B} (m : M A) (k : A -> M B) (s : state) :
  (exists ex, snd (m s) = Raise ex) ->
  exists ex, snd (bind m k s) = Raise ex.
Proof.
  intros [ex H]. unfold bind. destruct (m s) as [s1 [a|e]]; simpl in *;
    [discriminate | eauto].
Qed.

Lemma frame_counters_global_step {A} (m : M A) :
  frame counters m -> frame global_step m.
Proof.
  intros F s. specialize (F s). unfold counters in F.
  now injection F as -> _ _ _.
Qed.

(** After line 693 a due save that raises ends the pass. *)
Lemma after_step_raises (l : Locals.t) (e : step_env)
    (loss_spatial loss_temporal : option R) (s : state) :
  save_raises l e (global_step s) = true ->
  exists ex,
    snd ((save_checkpoint l e ;; validate l e ;;
          make_logs loss_spatial loss_temporal) s) = Raise ex.
Proof.
  unfold save_raises. intros H. apply orb_true_iff in H.
  destruct H as [H|H]; apply andb_true_iff in H; destruct H as [Hd Hf].
  - apply bind_raises. now apply save_checkpoint_raises.
  - phase global_step (frame_counters_global_step
                         _ (save_checkpoint_counters l e)).
    + apply bind_raises. apply validate_raises; [congruence | exact Hf].
    + simpl. eauto.
Qed.

Lemma train_step_save_raises (l : Locals.t) (w : world) (e : step_env)
    (step : nat) (s : state) :
  save_raises l e (global_step s + 1) = true ->
  exists ex, snd (train_step l w e step s) = Raise ex.
Proof.
  intros H. unfold train_step.
  phase global_step (frame_counters_global_step _ (zero_grads_counters l));
    [|simpl; eauto].
  phase global_step (frame_lift global_step (shared_noise l e));
    [|simpl; eauto].
  split_pair.
  phase global_step
        (frame_counters_global_step
           _ (spatial_branch_counters l w e step
                (mask_spatial (e_mask e)
                   (mask_temporal (Locals.train_temporal_lora l))) t t0));
    [|simpl; eauto].
  phase global_step
        (frame_counters_global_step
           _ (temporal_branch_counters w e
                (mask_temporal (Locals.train_temporal_lora l)) t t0));
    [|simpl; eauto].
  phase global_step
        (frame_counters_global_step
           _ (backpropagate_counters l e step
                (mask_spatial (e_mask e)
                   (mask_temporal (Locals.train_temporal_lora l)))
                (mask_temporal (Locals.train_temporal_lora l))));
    [|simpl; eauto].
  match goal with
  | |- context [bind ?m ?k ?s] =>
      destruct (bind_cases m k s) as [(s5 & ? & E & ->) | (s5 & ? & E & ->)]
  end; [|simpl; eauto].
  pose proof (finish_step_spec l step s4) as F. rewrite E in F.
  destruct F as (F & _). unfold advanced, counters in F.
  injection F as F _ _ _.
  apply after_step_raises. rewrite F.
  replace (global_step s4) with (global_step s) by congruence. exact H.
Qed.

(** A loop one of whose passes must raise does not get past it. *)
Lemma for_range_raises (g : nat -> M unit) (k : nat) :
  (forall i s, global_step s = Z.of_nat i ->
      (global_step (fst (g i s)) = global_step s
       /\ exists ex, snd (g i s) = Raise ex)
      \/ global_step (fst (g i s)) = (global_step s + 1)%Z) ->
  (forall s, global_step s = Z.of_nat k -> exists ex, snd (g k s) = Raise ex)
  ->
  forall n start s,
    global_step s = Z.of_nat start -> (start <= k < start + n)%nat ->
    (exists ex, snd (for_range g start n s) = Raise ex)
    /\ (global_step (fst (for_range g start n s)) <= Z.of_nat k + 1)%Z.
Proof.
  intros Hg Hk. induction n as [|n IH]; intros start s Hs Hr; [lia|].
  simpl. unfold bind.
  destruct (Hg start s Hs) as [[G [ex E]]|G];
    destruct (g start s) as [s1 [[]|e]] eqn:Eg; simpl in *;
    try discriminate.
  - split; [eauto | lia].
  - destruct (Nat.eq_dec start k) as [->|Hne].
    + destruct (Hk s Hs) as [ex E]. rewrite Eg in E. discriminate.
    + apply IH; lia.
  - split; [eauto | lia].
Qed.

Lemma train_loop_save_raises (l : Locals.t) (w : world) (s : state)
    (k : nat) :
  global_step s = 0%Z ->
  (Z.of_nat k < Locals.max_train_steps l)%Z ->
  save_raises l (steps w k) (Z.of_nat k + 1) = true ->
  (exists ex, snd (train_loop l w s) = Raise ex)
  /\ (global_step (fst (train_loop l w s)) <= Z.of_nat k + 1)%Z.
Proof.
  intros H0 Hk Hr. unfold train_loop. rewrite num_train_epochs_eq.
  apply for_range_raises; [| |exact H0|lia].
  - intros i s0 _. rewrite inner_loop_eq.
    destruct (train_step_counters l w (steps w i) 0%nat s0)
      as [[C [ex E]]|A];
      destruct (train_step l w (steps w i) 0%nat s0) as [s1 [[]|e]];
      simpl in *; try discriminate.
    + left. unfold counters in C. injection C as -> _ _ _. eauto.
    + right. unfold advanced, counters in A. now injection A as -> _ _ _.
    + right. unfold advanced, counters in A. now injection A as -> _ _ _.
  - intros s0 Hs0. rewrite inner_loop_eq.
    destruct (train_step_save_raises l w (steps w k) 0%nat s0) as [ex E].
    + now rewrite Hs0.
    + destruct (train_step l w (steps w k) 0%nat s0) as [s1 [[]|e]];
        simpl in *; [discriminate | eauto].
Qed.

(** C9 (amended): the loop has no handler around its saves.  If at some
    pass a checkpoint or a sample is due and its save raises, the pass
    raises, the run of the node ends with an exception at that pass at
    the latest, and no later pass is made. *)
Theorem save_failure_ends_run
    (i : Inputs.t) (w : world) (l : Locals.t) (k : nat) :
  setup i = Ok l ->
  (Z.of_nat k < Locals.max_train_steps l)%Z ->
  save_raises l (steps w k) (Z.of_nat k + 1) = true ->
  (forall step s, global_step s = Z.of_nat k ->
      exists ex, snd (train_step l w (steps w k) step s) = Raise ex)
  /\ (exists ex, snd (run i w) = Raise ex)
  /\ (global_step (fst (run i w)) <= Z.of_nat k + 1)%Z.
Proof.
  intros H Hk Hr. split.
  { intros step s Hs. apply train_step_save_raises. now rewrite Hs. }
  pose proof (run_cases i w) as R. rewrite H in R.
  destruct (inject_loras_bookkeeping l) as [Z0 _].
  unfold counters in Z0. injection Z0 as Z0 _ _ _.
  destruct (train_loop_save_raises
              l w (fst (inject_loras l init_state)) k Z0 Hk Hr)
    as [[ex E] G].
  rewrite R.
  destruct (train_loop l w (fst (inject_loras l init_state)))
    as [s [[]|e]]; simpl in *; [discriminate|].
  split; [eauto | exact G].
Qed.

Lemma save_failure_ends_run_witness :
  setup (sample_inputs 32) = Ok (sample_locals (sample_images 4) 3 1)
  /\ (Z.of_nat 0 < Locals.max_train_steps
                     (sample_locals (sample_images 4) 3 1))%Z
  /\ save_raises (sample_locals (sample_images 4) 3 1)
                 (steps (sample_world true) 0) (Z.of_nat 0 + 1) = true
  /\ (exists ex, snd (run (sample_inputs 32) (sample_world true)) = Raise ex)
  /\ (global_step (fst (run (sample_inputs 32) (sample_world true)))
      <= Z.of_nat 0 + 1)%Z.
Proof.
  assert (H1 : setup (sample_inputs 32)
               = Ok (sample_locals (sample_images 4) 3 1)) by reflexivity.
  assert (H2 : (Z.of_nat 0 < Locals.max_train_steps
                               (sample_locals (sample_images 4) 3 1))%Z)
    by (cbn; lia).
  assert (H3 : save_raises (sample_locals (sample_images 4) 3 1)
                 (steps (sample_world true) 0) (Z.of_nat 0 + 1) = true)
    by reflexivity.
  split; [exact H1|]. split; [exact H2|]. split; [exact H3|].
  exact (proj2 (save_failure_ends_run
                  (sample_inputs 32) (sample_world true) _ 0 H1 H2 H3)).
Defined.

(** C9 as stated fails: with a checkpoint due at every step and a save
    that raises, the run of three steps ends at its first pass with the
    exception of the save; no later pass is made and nothing is
    logged. *)
Lemma save_failure_aborts_training :
  snd (run (sample_inputs 32) (sample_world true)) = Raise OSError
  /\ global_step (fst (run (sample_inputs 32) (sample_world true))) = 1%Z
  /\ count is_logging
           (trace (fst (run (sample_inputs 32) (sample_world true))))
     = 0%nat
  /\ snd (run (sample_inputs 32) (sample_world false)) = Ok [2%Z]
  /\ global_step (fst (run (sample_inputs 32) (sample_world false))) = 3%Z.
Proof. repeat split; vm_compute; reflexivity. Qed.

(** ** The exceptions a computation can raise *)

Section MayRaise.
Context (E : exn -> Prop).

Lemma rmay_ok {A} (a : A) : rmay E (Ok a).
Proof. intros e H. discriminate. Qed.

Lemma rmay_raise {A} (e : exn) : E e -> rmay E (Raise (A:=A) e).
Proof. intros H e' [= <-]. exact H. Qed.

Lemma rmay_bind {A B} (r : result A) (k : A -> result B) :
  rmay E r -> (forall a, rmay E (k a)) -> rmay E (rbind r k).
Proof.
  intros Hr Hk. destruct r as [a|e]; simpl; [apply Hk|].
  intros e' [= <-]. now apply Hr.
Qed.

Lemma may_ret {A} (a : A) : may_raise E (ret a).
Proof. intros s e H. discriminate. Qed.

Lemma may_raise_raise {A} (e : exn) : E e -> may_raise E (raise (A:=A) e).
Proof. intros H s e' [= <-]. exact H. Qed.

Lemma may_lift {A} (r : result A) : rmay E r -> may_raise E (lift r).
Proof. intros H s e He. now apply H. Qed.

Lemma may_bind {A B} (m : M A) (k : A -> M B) :
  may_raise E m -> (forall a, may_raise E (k a)) -> may_raise E (bind m k).
Proof.
  intros Hm Hk s e. unfold bind. specialize (Hm s).
  destruct (m s) as [s1 [a|e1]]; simpl in *.
  - apply Hk.
  - intros [= <-]. now apply Hm.
Qed.

Lemma may_when (b : bool) (m : M unit) :
  may_raise E m -> may_raise E (when b m).
Proof. intros H. destruct b; [exact H | apply may_ret]. Qed.

Lemma may_for_range (g : nat -> M unit) (start n : nat) :
  (forall i, may_raise E (g i)) -> may_raise E (for_range g start n).
Proof.
  intros Hg. revert start. induction n as [|n IH]; intros start; simpl.
  - apply may_ret.
  - apply may_bind; [apply Hg | intros _; apply IH].
Qed.

Lemma may_emit (ev : event) : may_raise E (emit ev).
Proof. intros s e H. discriminate. Qed.

Lemma may_external (raises : bool) (ev : event) :
  E OSError -> may_raise E (external raises ev).
Proof.
  intros H. unfold external.
  destruct raises; [now apply may_raise_raise | apply may_emit].
Qed.

Lemma may_get_global_step : may_raise E get_global_step.
Proof. intros s e H. discriminate. Qed.

Lemma may_incr_global_step : may_raise E incr_global_step.
Proof. intros s e H. discriminate. Qed.

Lemma may_set_samples (v : list Z) : may_raise E (set_samples v).
Proof. intros s e H. discriminate. Qed.

Lemma may_return_samples : E UnboundLocalError -> may_raise E return_samples.
Proof.
  intros H s e. unfold return_samples.
  destruct (samples s); simpl; [discriminate|]. now intros [= <-].
Qed.

End MayRaise.

Ltac rmay_tac :=
  repeat first
    [ apply rmay_ok
    | apply rmay_raise; discriminate
    | apply rmay_bind; [|intros]
    | match goal with
      | |- rmay _ (if ?b then _ else _) => destruct b
      | |- rmay _ (match ?x with _ => _ end) => destruct x
      | |- rmay _ (let _ := _ in _) => cbv zeta
      end ].

Lemma dim_not_name_error d t : rmay not_name_error (dim d t).
Proof. unfold dim. rmay_tac. Qed.

Lemma slice5_not_name_error d i t : rmay not_name_error (slice5 d i t).
Proof. unfold slice5, select. rmay_tac. Qed.

Lemma randint_not_name_error h d : rmay not_name_error (randint h d).
Proof. unfold randint. rmay_tac. Qed.

Lemma binop_not_name_error f a b : rmay not_name_error (binop f a b).
Proof. unfold binop. rmay_tac. Qed.

Lemma mse_loss_not_name_error a b : rmay not_name_error (mse_loss a b).
Proof. unfold mse_loss, sub. rmay_tac. apply binop_not_name_error. Qed.

Lemma sample_noise_not_name_error t k b g o :
  rmay not_name_error (sample_noise t k b g o).
Proof.
  unfold sample_noise, unpack_bcf, add. rmay_tac.
  all: apply binop_not_name_error.
Qed.

Lemma tensor_to_vae_latent_not_name_error t v :
  rmay not_name_error (tensor_to_vae_latent t v).
Proof.
  unfold tensor_to_vae_latent. apply rmay_bind; [apply dim_not_name_error|].
  intros f. apply rmay_bind.
  { unfold merge_bf. rmay_tac. }
  intros t'. cbv zeta. apply rmay_bind; [|intros; apply rmay_ok].
  unfold split_bf_to_bcfhw. rmay_tac.
Qed.

Lemma create_ad_temporal_loss_not_name_error p x t d :
  rmay not_name_error (create_ad_temporal_loss p x t d).
Proof.
  unfold create_ad_temporal_loss, decent, sub.
  repeat first
    [ apply rmay_ok
    | apply dim_not_name_error | apply slice5_not_name_error
    | apply randint_not_name_error | apply binop_not_name_error
    | apply mse_loss_not_name_error
    | apply rmay_bind; [|intros] ].
Qed.

Lemma shared_noise_not_name_error l e :
  rmay not_name_error (shared_noise l e).
Proof.
  unfold shared_noise. cbv zeta.
  repeat first
    [ apply rmay_ok
    | apply dim_not_name_error
    | apply sample_noise_not_name_error
    | apply tensor_to_vae_latent_not_name_error
    | apply rmay_bind; [|intros]
    | match goal with
      | |- rmay _ (if ?b then _ else _) => destruct b
      end ].
Qed.

Lemma bind_lift {A B} (r : result A) (k : A -> M B) :
  bind (lift r) k = match r with Ok a => k a | Raise e => raise e end.
Proof. destruct r; reflexivity. Qed.

Lemma get_spatial_latents_flag pv th cache noisy target ts sched idx u g r :
  uniform_lt u th = false ->
  get_spatial_latents pv th cache noisy target ts sched idx u g = Ok r ->
  snd r = false.
Proof.
  intros H. rewrite (get_spatial_latents_no_hflip _ _ _ _ _ _ _ _ _ _ H).
  destruct (dim 2 pv); [|discriminate]. simpl.
  destruct (randint _ idx); [|discriminate]. simpl.
  destruct (slice5 2 _ noisy); [|discriminate]. simpl.
  destruct (slice5 2 _ target); [|discriminate]. simpl.
  now intros [= <-].
Qed.

Lemma get_spatial_latents_not_name_error
    pv th cache noisy target ts sched idx u g :
  uniform_lt u th = false ->
  rmay not_name_error
       (get_spatial_latents pv th cache noisy target ts sched idx u g).
Proof.
  intros H. rewrite (get_spatial_latents_no_hflip _ _ _ _ _ _ _ _ _ _ H).
  repeat first
    [ apply rmay_ok
    | apply dim_not_name_error | apply slice5_not_name_error
    | apply randint_not_name_error
    | apply rmay_bind; [|intros] ].
Qed.

Create HintDb no_name_error.
#[local] Hint Resolve dim_not_name_error slice5_not_name_error
  randint_not_name_error mse_loss_not_name_error
  create_ad_temporal_loss_not_name_error shared_noise_not_name_error
  : no_name_error.

Ltac may_tac :=
  repeat first
    [ apply may_ret | apply may_emit | apply may_get_global_step
    | apply may_incr_global_step | apply may_set_samples
    | apply may_raise_raise; discriminate
    | apply may_external; discriminate
    | apply may_return_samples; discriminate
    | apply may_lift; solve [auto with no_name_error]
    | apply may_bind; [|intros]
    | apply may_when
    | apply may_for_range; intros
    | match goal with
      | |- may_raise _ (if ?b then _ else _) => destruct b
      | |- may_raise _ (match ?x with _ => _ end) => destruct x
      | |- may_raise _ (let _ := _ in _) => cbv zeta
      end ].

Section NoHflip.
Context (l : Locals.t) (w : world) (e : step_env).
Hypothesis Hflip : uniform_lt (e_hflip e) (Locals.random_hflip_img l) = false.

Lemma spatial_branch_hflips step mask latents noise :
  frame hflips (spatial_branch l w e step mask latents noise).
Proof.
  unfold spatial_branch. cbv zeta. destruct mask; [frame_tac|].
  apply frame_bind; [frame_tac|intros _].
  apply frame_bind; [frame_tac|intros _].
  rewrite bind_lift.
  match goal with
  | |- context [get_spatial_latents ?a ?b ?c ?d ?e0 ?f ?g ?h ?i ?j] =>
      destruct (get_spatial_latents a b c d e0 f g h i j)
        as [[[x y] u]|ex] eqn:G
  end; [|frame_tac].
  apply (get_spatial_latents_flag _ _ _ _ _ _ _ _ _ _ _ Hflip) in G.
  simpl in G. subst u. frame_tac.
Qed.

Lemma spatial_branch_not_name_error step mask latents noise :
  may_raise not_name_error (spatial_branch l w e step mask latents noise).
Proof.
  unfold spatial_branch. cbv zeta. destruct mask; [may_tac|].
  apply may_bind; [may_tac|intros _].
  apply may_bind; [may_tac|intros _].
  apply may_bind.
  - apply may_lift. now apply get_spatial_latents_not_name_error.
  - intros [[x y] u]. may_tac.
Qed.

Lemma temporal_branch_not_name_error mask latents noise :
  may_raise not_name_error (temporal_branch w e mask latents noise).
Proof. unfold temporal_branch. may_tac. Qed.

Lemma train_step_hflips step : frame hflips (train_step l w e step).
Proof.
  unfold train_step, zero_grads, temporal_branch, backpropagate,
    finish_step, step_schedules, save_checkpoint, validate, make_logs,
    spatial_member.
  repeat first
    [ apply spatial_branch_hflips
    | progress frame_tac ].
Qed.

Lemma train_step_not_name_error step :
  may_raise not_name_error (train_step l w e step).
Proof.
  unfold train_step, zero_grads, temporal_branch, backpropagate,
    finish_step, step_schedules, save_checkpoint, validate, make_logs,
    spatial_member.
  repeat first
    [ apply spatial_branch_not_name_error
    | progress may_tac ].
Qed.

End NoHflip.

Lemma run_no_hflip (i : Inputs.t) (w : world) (l : Locals.t) :
  setup i = Ok l ->
  (forall k, (0 <= e_hflip (steps w k))%Q) ->
  hflips (fst (run i w)) = 0%nat /\ snd (run i w) <> Raise NameError.
Proof.
  intros H Hu.
  assert (Hf : forall k, uniform_lt (e_hflip (steps w k))
                                    (Locals.random_hflip_img l) = false).
  { intros k. destruct (setup_locals i l H) as (_ & _ & -> & _).
    apply uniform_lt_minus_one, Hu. }
  split.
  - unfold run, process.
    assert (F : frame hflips (process i w)).
    { unfold process. rewrite bind_lift, H.
      apply frame_bind; [unfold inject_loras; frame_tac|intros _].
      apply frame_bind; [|intros _; apply frame_return_samples].
      unfold train_loop. apply frame_for_range. intros epoch.
      apply frame_for_range. intros step.
      now apply train_step_hflips. }
    apply (F init_state).
  - assert (N : may_raise not_name_error (process i w)).
    { unfold process. rewrite bind_lift, H.
      apply may_bind; [unfold inject_loras; may_tac|intros _].
      apply may_bind;
        [|intros _; apply may_return_samples; discriminate].
      unfold train_loop. apply may_for_range. intros epoch.
      apply may_for_range. intros step.
      now apply train_step_not_name_error. }
    intros E. exact (N init_state NameError E eq_refl).
Qed.

(** C10: [process] fixes [random_hflip_img = -1] and
    [cache_latents = False], so for every uniform draw in [0, 1]
    [use_hflip] is false and get_spatial_latents returns the shared
    noised latents and target sliced at the drawn index.  The flipped
    branch, which with [cache_latents] false raises NameError on the
    unbound name [vae] as soon as it has picked its frame, is never
    entered: in every run of the node no backbone call is made on a
    flipped frame and NameError is never raised. *)
Theorem hflip_branch_unreachable (i : Inputs.t) (w : world) (l : Locals.t) :
  setup i = Ok l ->
  (forall k, (0 <= e_hflip (steps w k) <= 1)%Q) ->
  Locals.random_hflip_img l = (-1)%Q
  /\ Locals.cache_latents l = false
  /\ (forall k, uniform_lt (e_hflip (steps w k))
                           (Locals.random_hflip_img l) = false)
  /\ (forall k noisy_latents target draw_idx draw_gauss,
        get_spatial_latents
          (Locals.pixel_values l) (Locals.random_hflip_img l)
          (Locals.cache_latents l) noisy_latents target
          (e_timesteps (steps w k)) (add_noise_spatial w)
          draw_idx (e_hflip (steps w k)) draw_gauss
        = (let? high := dim 2 (Locals.pixel_values l) in
           let? ran_idx := randint high draw_idx in
           let? noisy_latents_input := slice5 2 ran_idx noisy_latents in
           let? target_spatial := slice5 2 ran_idx target in
           Ok (noisy_latents_input, target_spatial, false)))
  /\ (forall pixel_values threshold noisy_latents target timesteps
             noise_scheduler draw_idx draw_uniform draw_gauss
             high ran_idx frame,
        uniform_lt draw_uniform threshold = true ->
        dim 2 pixel_values = Ok high ->
        randint high draw_idx = Ok ran_idx ->
        slice5 1 ran_idx pixel_values = Ok frame ->
        get_spatial_latents pixel_values threshold false noisy_latents
                            target timesteps noise_scheduler
                            draw_idx draw_uniform draw_gauss
        = Raise NameError)
  /\ hflips (fst (run i w)) = 0%nat
  /\ snd (run i w) <> Raise NameError.
Proof.
  intros H Hu.
  destruct (setup_locals i l H) as (_ & _ & Hr & _ & _ & _ & _ & Hc & _).
  assert (Hf : forall k, uniform_lt (e_hflip (steps w k))
                                    (Locals.random_hflip_img l) = false).
  { intros k. rewrite Hr. apply uniform_lt_minus_one, Hu. }
  split; [exact Hr|]. split; [exact Hc|]. split; [exact Hf|].
  split; [intros; now apply get_spatial_latents_no_hflip|].
  split.
  { intros pv th noisy target ts sched idx u g high ran frame Ht Hd Hi Hs.
    unfold get_spatial_latents. rewrite Ht, Hd. simpl. rewrite Hi. simpl.
    now rewrite Hs. }
  apply (run_no_hflip i w l H). intros k. apply Hu.
Qed.

Lemma hflip_branch_unreachable_witness :
  setup (sample_inputs 32) = Ok (sample_locals (sample_images 4) 3 1)
  /\ (forall k, (0 <= e_hflip (steps (sample_world false) k) <= 1)%Q)
  /\ hflips (fst (run (sample_inputs 32) (sample_world false))) = 0%nat
  /\ snd (run (sample_inputs 32) (sample_world false)) <> Raise NameError.
Proof.
  assert (H1 : setup (sample_inputs 32)
               = Ok (sample_locals (sample_images 4) 3 1)) by reflexivity.
  assert (H2 : forall k,
             (0 <= e_hflip (steps (sample_world false) k) <= 1)%Q)
    by (intros k; split; discriminate).
  split; [exact H1|]. split; [exact H2|].
  exact (proj2 (proj2 (proj2 (proj2 (proj2
    (hflip_branch_unreachable (sample_inputs 32) (sample_world false)
                              _ H1 H2)))))).
Defined.

(** ** A pass that returns *)

(** A pass that returns has returned from each of its phases. *)
Lemma train_step_ok_inv (l : Locals.t) (w : world) (e : step_env)
    (step : nat) (s s' : state) :
  train_step l w e step s = (s', Ok tt) ->
  let mt := mask_temporal (Locals.train_temporal_lora l) in
  let ms := mask_spatial (e_mask e) mt in
  exists latents noise s1 s2 ls s3 lt s4 s5 s6 s7,
    zero_grads l s = (s1, Ok tt)
    /\ shared_noise l e = Ok (latents, noise)
    /\ spatial_branch l w e step ms latents noise s1 = (s2, Ok ls)
    /\ temporal_branch w e mt latents noise s2 = (s3, Ok lt)
    /\ backpropagate l e step ms mt s3 = (s4, Ok tt)
    /\ finish_step l step s4 = (s5, Ok tt)
    /\ save_checkpoint l e s5 = (s6, Ok tt)
    /\ validate l e s6 = (s7, Ok tt)
    /\ make_logs ls lt s7 = (s', Ok tt).
Proof.
  unfold train_step. cbv zeta. intros H.
  unfold bind at 1 in H.
  destruct (zero_grads l s) as [s1 [[]|?]] eqn:E1; [|discriminate].
  unfold bind at 1 in H. unfold lift at 1 in H.
  destruct (shared_noise l e) as [[latents noise]|?] eqn:E2; [|discriminate].
  unfold bind at 1 in H.
  destruct (spatial_branch l w e step _ latents noise s1)
    as [s2 [ls|?]] eqn:E3; [|discriminate].
  unfold bind at 1 in H.
  destruct (temporal_branch w e _ latents noise s2)
    as [s3 [lt|?]] eqn:E4; [|discriminate].
  unfold bind at 1 in H.
  destruct (backpropagate l e step _ _ s3) as [s4 [[]|?]] eqn:E5;
    [|discriminate].
  unfold bind at 1 in H.
  destruct (finish_step l step s4) as [s5 [[]|?]] eqn:E6; [|discriminate].
  unfold bind at 1 in H.
  destruct (save_checkpoint l e s5) as [s6 [[]|?]] eqn:E7; [|discriminate].
  unfold bind at 1 in H.
  destruct (validate l e s6) as [s7 [[]|?]] eqn:E8; [|discriminate].
  exists latents, noise, s1, s2, ls, s3, lt, s4, s5, s6, s7.
  repeat split; assumption.
Qed.

Lemma frame_pair {X Y A} (f : state -> X) (g : state -> Y) (m : M A) :
  frame (fun s => (f s, g s)) m -> frame f m /\ frame g m.
Proof.
  intros F. split; intros s; specialize (F s); simpl in F;
    now injection F.
Qed.

Lemma zero_grads_untouched l : frame untouched_all (zero_grads l).
Proof. unfold zero_grads. frame_tac. Qed.

Lemma spatial_branch_untouched l w e step mask latents noise :
  frame untouched_all (spatial_branch l w e step mask latents noise).
Proof. unfold spatial_branch. frame_tac. Qed.

Lemma temporal_branch_untouched w e mask latents noise :
  frame untouched_all (temporal_branch w e mask latents noise).
Proof. unfold temporal_branch. frame_tac. Qed.

Lemma make_logs_untouched ls lt : frame untouched_all (make_logs ls lt).
Proof. unfold make_logs. frame_tac. Qed.

Lemma inject_loras_untouched l : frame untouched_all (inject_loras l).
Proof. unfold inject_loras. frame_tac. Qed.

Lemma backpropagate_untouched l e step ms mt :
  frame (fun s => (progress s, saves_of s, sampled_of s))
        (backpropagate l e step ms mt).
Proof. unfold backpropagate, spatial_member. frame_tac. Qed.

Lemma finish_step_untouched l step :
  frame (fun s => (samples s, saves_of s, roles_of s, sampled_of s))
        (finish_step l step).
Proof. unfold finish_step, step_schedules, spatial_member. frame_tac. Qed.

Lemma save_checkpoint_untouched l e :
  frame (fun s => (progress s, roles_of s, sampled_of s))
        (save_checkpoint l e).
Proof. unfold save_checkpoint. frame_tac. Qed.

Lemma validate_untouched l e :
  frame (fun s => (global_step s, saves_of s, roles_of s)) (validate l e).
Proof. unfold validate. frame_tac. Qed.

(** What the saves of a pass that returns add. *)
Lemma save_checkpoint_ok l e s s' :
  save_checkpoint l e s = (s', Ok tt) ->
  Locals.checkpointing_steps l <> 0%Z
  /\ saves_of s'
     = ((if checkpoint_due l (global_step s) then [global_step s] else [])
        ++ saved_steps SpatialLoras (trace s),
        (if checkpoint_due l (global_step s) && Locals.train_temporal_lora l
         then [global_step s] else [])
        ++ saved_steps TemporalLoras (trace s)).
Proof.
  destruct s as [gs sm tr].
  unfold save_checkpoint, bind, get_global_step, when, external, raise, ret,
    emit, saves_of. simpl.
  destruct (Locals.checkpointing_steps l =? 0)%Z eqn:E0; [discriminate|].
  apply Z.eqb_neq in E0.
  destruct (checkpoint_due l gs); simpl.
  2:{ intros [= <-]. now split. }
  destruct (Locals.spatial_lora_num l =? 0)%nat; [discriminate|]. simpl.
  destruct (e_save_spatial_raises e); [discriminate|]. simpl.
  destruct (Locals.train_temporal_lora l); simpl.
  - destruct (e_save_temporal_raises e); [discriminate|]. simpl.
    intros [= <-]. now split.
  - intros [= <-]. now split.
Qed.

Lemma validate_ok l e s s' :
  validate l e s = (s', Ok tt) ->
  samples s'
  = (if validation_due l (global_step s) then Some [global_step s]
     else samples s)
  /\ sampled_of s'
     = (if validation_due l (global_step s) then [global_step s] else [])
       ++ sampled_of s.
Proof.
  destruct s as [gs sm tr].
  unfold validate, bind, get_global_step, when, external, raise, ret,
    emit, set_samples, sampled_of. simpl.
  destruct (Locals.validation_steps l =? 0)%Z; [discriminate|].
  destruct (validation_due l gs); simpl.
  2:{ intros [= <-]. now split. }
  destruct (e_sampler_raises e); [discriminate|]. simpl.
  destruct (e_save_sample_raises e); [discriminate|]. simpl.
  destruct (e_save_samples_raises e); [discriminate|]. simpl.
  intros [= <-]. now split.
Qed.

Lemma frame_at {X A} (f : state -> X) (m : M A) s s' r :
  frame f m -> m s = (s', r) -> f s' = f s.
Proof. intros F E. specialize (F s). now rewrite E in F. Qed.

(** The effect of a pass that returns (one spatial member). *)
Lemma train_step_ok_effect (l : Locals.t) (w : world) (e : step_env)
    (step : nat) (s s' : state) :
  Locals.spatial_lora_num l = 1%nat ->
  train_step l w e step s = (s', Ok tt) ->
  let g := (global_step s + 1)%Z in
  Locals.checkpointing_steps l <> 0%Z
  /\ global_step s' = g
  /\ samples s' = (if validation_due l g then Some [g] else samples s)
  /\ saves_of s'
     = ((if checkpoint_due l g then [g] else [])
        ++ saved_steps SpatialLoras (trace s),
        (if checkpoint_due l g && Locals.train_temporal_lora l
         then [g] else [])
        ++ saved_steps TemporalLoras (trace s))
  /\ roles_of s' = pass_roles l e ++ roles_of s
  /\ sampled_of s' = (if validation_due l g then [g] else []) ++ sampled_of s.
Proof.
  intros Hn H.
  destruct (train_step_ok_inv l w e step s s' H)
    as (latents & noise & s1 & s2 & ls & s3 & lt & s4 & s5 & s6 & s7
        & E1 & _ & E3 & E4 & E5 & E6 & E7 & E8 & E9).
  pose proof (frame_at _ _ _ _ _ (zero_grads_untouched l) E1) as F1.
  pose proof (frame_at _ _ _ _ _ (spatial_branch_untouched _ _ _ _ _ _ _) E3)
    as F3.
  pose proof (frame_at _ _ _ _ _ (temporal_branch_untouched _ _ _ _ _) E4)
    as F4.
  pose proof (frame_at _ _ _ _ _ (backpropagate_untouched _ _ _ _ _) E5)
    as F5.
  pose proof (backpropagate_trace
                l e step
                (mask_spatial (e_mask e)
                   (mask_temporal (Locals.train_temporal_lora l)))
                (mask_temporal (Locals.train_temporal_lora l)) s3 Hn) as T5.
  rewrite E5 in T5. simpl in T5.
  pose proof (frame_at _ _ _ _ _ (finish_step_untouched _ _) E6) as F6.
  pose proof (finish_step_spec l step s4) as G6. rewrite E6 in G6.
  destruct G6 as [G6 _]. unfold advanced, counters in G6.
  injection G6 as G6 _ _ _.
  pose proof (frame_at _ _ _ _ _ (save_checkpoint_untouched _ _) E7) as F7.
  destruct (save_checkpoint_ok l e s5 s6 E7) as [C0 C7].
  pose proof (frame_at _ _ _ _ _ (validate_untouched _ _) E8) as F8.
  destruct (validate_ok l e s6 s7 E8) as [V8 S8].
  pose proof (frame_at _ _ _ _ _ (make_logs_untouched _ _) E9) as F9.
  unfold untouched_all, progress in *. cbv beta in *.
  injection F1 as A1 B1 C1 D1 R1 H0.
  injection F3 as A3 B3 C3 D3 R3 H1.
  injection F4 as A4 B4 C4 D4 R4 H2.
  injection F5 as A5 B5' C5 D5 H3.
  injection F6 as A6 B6 C6 D6 H4.
  injection F7 as A7 B7 C7' D7.
  injection F8 as A8 B8 C8 H5.
  injection F9 as A9 B9 C9 D9 R9 H6.
  assert (G5 : global_step s5 = (global_step s + 1)%Z) by lia.
  assert (G6' : global_step s6 = (global_step s + 1)%Z) by lia.
  assert (R5 : roles_of s4 = pass_roles l e ++ roles_of s).
  { unfold roles_of in *. rewrite T5, <- R1, <- R3, <- R4.
    unfold stepped_roles, pass_roles.
    rewrite !flat_map_app.
    destruct (negb (mask_temporal (Locals.train_temporal_lora l))
              && Locals.train_temporal_lora l),
      (mask_spatial (e_mask e)
         (mask_temporal (Locals.train_temporal_lora l))); reflexivity. }
  split; [exact C0|]. split; [lia|]. split.
  { rewrite B9, V8, G6'. destruct (validation_due l (global_step s + 1));
      [reflexivity | congruence]. }
  split.
  { unfold saves_of in *. injection C7 as P7 Q7.
    rewrite C9, D9, B8, C8, P7, Q7, G5, B6, C6, C5, D5, C4, D4, C3, D3,
      C1, D1.
    reflexivity. }
  split.
  { rewrite R9, H5, C7', D6. exact R5. }
  rewrite H6, S8, G6', D7, H4, H3, H2, H1, H0. reflexivity.
Qed.

(** ** A run that returns *)

Lemma train_step_recorded l w n s s' :
  Locals.spatial_lora_num l = 1%nat ->
  recorded l w n s ->
  train_step l w (steps w n) 0%nat s = (s', Ok tt) ->
  recorded l w (S n) s'.
Proof.
  intros Hn (R1 & R2 & R3 & R4 & R5) H.
  destruct (train_step_ok_effect l w _ _ s s' Hn H)
    as (_ & G & Sm & Sv & Ro & Sa).
  assert (Eg : (global_step s + 1)%Z = Z.of_nat (S n)) by lia.
  rewrite Eg in *. unfold saves_of in *. injection R3 as R3a R3b.
  unfold recorded. cbn [samples_after steps_down passes_down flat_map filter].
  split; [exact G|]. split.
  { rewrite Sm, R2. reflexivity. }
  split.
  { unfold saves_of. rewrite Sv, R3a, R3b.
    destruct (checkpoint_due l (Z.of_nat (S n))),
      (Locals.train_temporal_lora l); reflexivity. }
  split.
  { rewrite Ro, R4. reflexivity. }
  rewrite Sa, R5. destruct (validation_due l (Z.of_nat (S n))); reflexivity.
Qed.

Lemma train_loop_recorded l w s s' :
  Locals.spatial_lora_num l = 1%nat ->
  recorded l w 0 s ->
  train_loop l w s = (s', Ok tt) ->
  recorded l w (Z.to_nat (Locals.max_train_steps l)) s'.
Proof.
  intros Hn H0. unfold train_loop. rewrite num_train_epochs_eq.
  intros H.
  change (Z.to_nat (Locals.max_train_steps l))
    with (0 + Z.to_nat (Locals.max_train_steps l))%nat.
  revert H. apply (for_range_ok (recorded l w)); [|exact H0].
  intros k s0 s0' Hk E. apply inner_loop_ok in E.
  now apply (train_step_recorded l w k s0 s0' Hn).
Qed.

(** Once the loop has returned, the node returns [samples]. *)
Lemma loop_ok_recorded (i : Inputs.t) (w : world) (l : Locals.t) (s : state) :
  setup i = Ok l ->
  train_loop l w (fst (inject_loras l init_state)) = (s, Ok tt) ->
  recorded l w (Z.to_nat (Locals.max_train_steps l)) s
  /\ run i w = return_samples s.
Proof.
  intros H T.
  destruct (setup_locals i l H) as (_ & _ & _ & _ & _ & _ & Hn & _).
  pose proof (run_cases i w) as R. rewrite H, T in R.
  split; [|exact R].
  apply (train_loop_recorded l w (fst (inject_loras l init_state)) s Hn);
    [|exact T].
  pose proof (inject_loras_untouched l init_state) as F.
  unfold untouched_all, progress, saves_of in F.
  injection F as F1 F2 F3 F4 F5 F6.
  unfold recorded, saves_of. cbn. rewrite F1, F2, F3, F4, F5, F6.
  repeat split.
Qed.

Lemma run_ok_recorded (i : Inputs.t) (w : world) (l : Locals.t) (v : list Z) :
  setup i = Ok l -> snd (run i w) = Ok v ->
  recorded l w (Z.to_nat (Locals.max_train_steps l)) (fst (run i w))
  /\ samples (fst (run i w)) = Some v.
Proof.
  intros H Hv. destruct (run_ok_loop_ok i w l v H Hv) as [s T].
  destruct (loop_ok_recorded i w l s H T) as [Rec R].
  rewrite R in Hv |- *. unfold return_samples in *.
  destruct (samples s) as [v'|] eqn:Es; simpl in *; [|discriminate].
  injection Hv as ->. split; [exact Rec | exact Es].
Qed.

Lemma samples_after_last (l : Locals.t) (n : nat) (v : list Z) :
  samples_after l n = Some v ->
  exists g, v = [g] /\ (1 <= g <= Z.of_nat n)%Z
            /\ validation_due l g = true
            /\ forall g', (g < g' <= Z.of_nat n)%Z ->
                          validation_due l g' = false.
Proof.
  induction n as [|n IH]; [discriminate|].
  cbn [samples_after].
  destruct (validation_due l (Z.of_nat (S n))) eqn:D.
  - intros [= <-]. exists (Z.of_nat (S n)).
    split; [reflexivity|]. split; [lia|]. split; [exact D|].
    intros g' Hg. lia.
  - intros H. destruct (IH H) as (g & -> & Hg & Dg & Hlast).
    exists g. split; [reflexivity|]. split; [lia|]. split; [exact Dg|].
    intros g' Hg'. destruct (Z.eq_dec g' (Z.of_nat (S n))) as [->|Hne].
    + exact D.
    + apply Hlast. lia.
Qed.

Lemma steps_down_In (n : nat) (g : Z) :
  In g (steps_down n) <-> (1 <= g <= Z.of_nat n)%Z.
Proof.
  induction n as [|n IH]; cbn [steps_down In].
  - lia.
  - rewrite IH. lia.
Qed.

Lemma validation_due_setup (i : Inputs.t) (l : Locals.t) (g : Z) :
  setup i = Ok l ->
  validation_due l g = true <-> (g mod 25 = 0 \/ g = 2)%Z.
Proof.
  intros H.
  destruct (setup_locals i l H)
    as (_ & _ & _ & _ & _ & _ & _ & _ & _ & Hv & Ht).
  unfold validation_due. rewrite Hv, Ht. cbn [existsb].
  rewrite !orb_true_iff, !Z.eqb_eq. split.
  - intros [E|[E|[E|E]]]; try discriminate; auto.
    left. subst g. reflexivity.
  - tauto.
Qed.

Lemma run_ok_last_sample
    (i : Inputs.t) (w : world) (l : Locals.t) (v : list Z) :
  setup i = Ok l -> snd (run i w) = Ok v ->
  exists g,
    v = [g]
    /\ (2 <= g <= Locals.max_train_steps l)%Z
    /\ (g mod 25 = 0 \/ g = 2)%Z
    /\ forall g', (g < g' <= Locals.max_train_steps l)%Z ->
                  (g' mod 25 <> 0)%Z.
Proof.
  intros H Hv.
  destruct (run_ok_recorded i w l v H Hv) as [(_ & Sm & _) Es].
  rewrite Es in Sm. symmetry in Sm.
  destruct (samples_after_last l _ v Sm) as (g & -> & Hg & Dg & Hlast).
  apply (validation_due_setup i l g H) in Dg.
  exists g. split; [reflexivity|]. split.
  { split; [|lia]. destruct Dg as [Dg| ->]; [|lia].
    destruct (Z.eq_dec g 1) as [->|]; [discriminate | lia]. }
  split; [exact Dg|].
  intros g' Hg' E.
  assert (D' : validation_due l g' = false) by (apply Hlast; lia).
  assert (D'' : validation_due l g' = true)
    by (apply (validation_due_setup i l g' H); now left).
  congruence.
Qed.

(** X1: the value the node returns is the sample of the last validation
    step: a run that returns has a budget of at least two steps and
    returns the one sample made at the last step of 1..max_train_steps
    that is 2 or a multiple of 25. *)
Theorem run_returns_last_sample
    (i : Inputs.t) (w : world) (l : Locals.t) (v : list Z) :
  setup i = Ok l -> snd (run i w) = Ok v ->
  exists g,
    v = [g]
    /\ (2 <= g <= Locals.max_train_steps l)%Z
    /\ (g mod 25 = 0 \/ g = 2)%Z
    /\ forall g', (g < g' <= Locals.max_train_steps l)%Z ->
                  (g' mod 25 <> 0)%Z.
Proof. exact (run_ok_last_sample i w l v). Qed.

Lemma run_returns_last_sample_witness :
  setup (sample_inputs 32) = Ok (sample_locals (sample_images 4) 3 1)
  /\ snd (run (sample_inputs 32) (sample_world false)) = Ok [2%Z]
  /\ exists g,
       [2%Z] = [g]
       /\ (2 <= g <= 3)%Z
       /\ (g mod 25 = 0 \/ g = 2)%Z
       /\ forall g', (g < g' <= 3)%Z -> (g' mod 25 <> 0)%Z.
Proof.
  assert (H1 : setup (sample_inputs 32)
               = Ok (sample_locals (sample_images 4) 3 1)) by reflexivity.
  assert (H2 : snd (run (sample_inputs 32) (sample_world false)) = Ok [2%Z])
    by (vm_compute; reflexivity).
  split; [exact H1|]. split; [exact H2|].
  exact (run_returns_last_sample (sample_inputs 32) (sample_world false)
                                 _ _ H1 H2).
Defined.

(** X2: with a budget below two steps the node cannot return: when the
    loop itself returns, no validation pass has bound [samples] and the
    final [return samples] raises UnboundLocalError. *)
Theorem short_budget_cannot_return
    (i : Inputs.t) (w : world) (l : Locals.t) :
  setup i = Ok l -> (Locals.max_train_steps l < 2)%Z ->
  (exists ex, snd (run i w) = Raise ex)
  /\ forall s,
       train_loop l w (fst (inject_loras l init_state)) = (s, Ok tt) ->
       snd (run i w) = Raise UnboundLocalError.
Proof.
  intros H Hm. split.
  - destruct (snd (run i w)) as [v|ex] eqn:E; [|eauto].
    destruct (run_ok_last_sample i w l v H E) as (g & _ & Hg & _). lia.
  - intros s T. destruct (loop_ok_recorded i w l s H T) as [(_ & Sm & _) R].
    rewrite R. unfold return_samples. rewrite Sm.
    assert (N : samples_after l (Z.to_nat (Locals.max_train_steps l)) = None).
    { destruct (samples_after l (Z.to_nat (Locals.max_train_steps l)))
        as [v|] eqn:E; [|reflexivity].
      destruct (samples_after_last l _ v E) as (g & _ & Hg & Dg & _).
      apply (validation_due_setup i l g H) in Dg.
      destruct Dg as [Dg| ->]; [|lia].
      assert (g = 1)%Z as -> by lia. discriminate. }
    now rewrite N.
Qed.

Lemma short_budget_cannot_return_witness :
  setup sample_inputs_one = Ok (sample_locals (sample_images 4) 1 1)
  /\ (Locals.max_train_steps (sample_locals (sample_images 4) 1 1) < 2)%Z
  /\ snd (run sample_inputs_one (sample_world false))
     = Raise UnboundLocalError
  /\ global_step (fst (run sample_inputs_one (sample_world false))) = 1%Z.
Proof.
  assert (H1 : setup sample_inputs_one
               = Ok (sample_locals (sample_images 4) 1 1)) by reflexivity.
  assert (H2 : (Locals.max_train_steps (sample_locals (sample_images 4) 1 1)
                < 2)%Z) by (cbn; lia).
  split; [exact H1|]. split; [exact H2|]. split; [|vm_compute; reflexivity].
  destruct (train_loop (sample_locals (sample_images 4) 1 1)
                       (sample_world false)
                       (fst (inject_loras
                               (sample_locals (sample_images 4) 1 1)
                               init_state))) as [s r] eqn:T.
  assert (Hr : r = Ok tt).
  { change r with (snd (s, r)). rewrite <- T. vm_compute. reflexivity. }
  subst r.
  exact (proj2 (short_budget_cannot_return
                  sample_inputs_one (sample_world false) _ H1 H2) s T).
Defined.

(** ** Checkpoints, optimizer steps and sampler calls of a run *)

(** X3: in a run that returns, the adapters of each family have been
    saved at exactly the steps of 1..max_train_steps that are multiples
    of the checkpoint cadence, once each and in increasing order of
    time. *)
Theorem checkpoints_written_on_cadence
    (i : Inputs.t) (w : world) (l : Locals.t) (v : list Z) :
  setup i = Ok l -> snd (run i w) = Ok v ->
  let tr := trace (fst (run i w)) in
  let n := Z.to_nat (Locals.max_train_steps l) in
  saved_steps SpatialLoras tr = filter (checkpoint_due l) (steps_down n)
  /\ saved_steps TemporalLoras tr = filter (checkpoint_due l) (steps_down n)
  /\ forall g f,
       In g (saved_steps f tr)
       <-> (1 <= g <= Locals.max_train_steps l)%Z
           /\ (g mod Locals.checkpointing_steps l = 0)%Z.
Proof.
  intros H Hv tr n.
  destruct (run_ok_recorded i w l v H Hv) as [(_ & _ & Sv & _) _].
  destruct (setup_locals i l H) as (_ & _ & _ & _ & _ & Ht & _).
  unfold saves_of in Sv. injection Sv as S1 S2. fold tr n in S1, S2.
  rewrite Ht in S2.
  assert (S2' : saved_steps TemporalLoras tr
                = filter (checkpoint_due l) (steps_down n)).
  { rewrite S2. apply filter_ext. intros g. apply andb_true_r. }
  split; [exact S1|]. split; [exact S2'|].
  intros g f.
  assert (E : saved_steps f tr = filter (checkpoint_due l) (steps_down n))
    by (destruct f; assumption).
  rewrite E, filter_In, steps_down_In. unfold checkpoint_due.
  rewrite Z.eqb_eq. subst n. split; intros [A B]; (split; [lia | exact B]).
Qed.

Lemma checkpoints_written_on_cadence_witness :
  setup (sample_inputs 32) = Ok (sample_locals (sample_images 4) 3 1)
  /\ snd (run (sample_inputs 32) (sample_world false)) = Ok [2%Z]
  /\ saved_steps SpatialLoras
       (trace (fst (run (sample_inputs 32) (sample_world false))))
     = filter (checkpoint_due (sample_locals (sample_images 4) 3 1))
              (steps_down 3).
Proof.
  assert (H1 : setup (sample_inputs 32)
               = Ok (sample_locals (sample_images 4) 3 1)) by reflexivity.
  assert (H2 : snd (run (sample_inputs 32) (sample_world false)) = Ok [2%Z])
    by (vm_compute; reflexivity).
  split; [exact H1|]. split; [exact H2|].
  exact (proj1 (checkpoints_written_on_cadence
                  (sample_inputs 32) (sample_world false) _ _ H1 H2)).
Defined.

Lemma pass_roles_setup (i : Inputs.t) (l : Locals.t) (e : step_env) :
  setup i = Ok l ->
  pass_roles l e
  = Temporal :: (if uniform_lt (e_mask e) 0.2 then [] else [Spatial 0]).
Proof.
  intros H. destruct (setup_locals i l H) as (_ & _ & _ & _ & _ & Ht & _).
  unfold pass_roles, mask_spatial, mask_temporal. rewrite Ht. cbn.
  now rewrite andb_true_r.
Qed.

(** X4: in a run that returns, every pass has called [scaler.step] on
    the temporal optimizer once, and on the spatial optimizer once
    exactly when its mask draw was not below 0.2: the call has been made
    max_train_steps times on the temporal optimizer and as many times
    on the spatial one as there were unmasked passes. *)
Theorem optimizer_steps_of_a_run
    (i : Inputs.t) (w : world) (l : Locals.t) (v : list Z) :
  setup i = Ok l -> snd (run i w) = Ok v ->
  let roles := stepped_roles (trace (fst (run i w))) in
  let n := Z.to_nat (Locals.max_train_steps l) in
  roles
  = flat_map (fun k => Temporal
                       :: (if uniform_lt (e_mask (steps w k)) 0.2 then []
                           else [Spatial 0]))
             (passes_down n)
  /\ Z.of_nat (length (filter is_temporal_role roles))
     = Locals.max_train_steps l
  /\ length (filter (fun r => negb (is_temporal_role r)) roles)
     = length (filter (fun k => negb (uniform_lt (e_mask (steps w k)) 0.2))
                      (passes_down n)).
Proof.
  intros H Hv roles n.
  destruct (run_ok_recorded i w l v H Hv) as [(G & _ & _ & Ro & _) _].
  unfold roles_of in Ro. fold roles n in Ro.
  assert (E : roles
              = flat_map (fun k => Temporal
                                   :: (if uniform_lt (e_mask (steps w k)) 0.2
                                       then [] else [Spatial 0]))
                         (passes_down n)).
  { rewrite Ro. apply flat_map_ext. intros k.
    apply (pass_roles_setup i l _ H). }
  split; [exact E|]. rewrite E.
  assert (C : forall m,
             length (filter is_temporal_role
                       (flat_map (fun k => Temporal
                                    :: (if uniform_lt (e_mask (steps w k)) 0.2
                                        then [] else [Spatial 0]))
                                 (passes_down m))) = m
             /\ length (filter (fun r => negb (is_temporal_role r))
                          (flat_map (fun k => Temporal
                                       :: (if uniform_lt
                                                (e_mask (steps w k)) 0.2
                                           then [] else [Spatial 0]))
                                    (passes_down m)))
                = length (filter (fun k => negb (uniform_lt
                                                   (e_mask (steps w k)) 0.2))
                                 (passes_down m))).
  { induction m as [|m [IH1 IH2]]; [split; reflexivity|].
    cbn [passes_down flat_map filter app is_temporal_role negb length].
    rewrite !filter_app, !length_app.
    destruct (uniform_lt (e_mask (steps w m)) 0.2); cbn; lia. }
  destruct (C n) as [C1 C2]. split; [|exact C2].
  destruct (run_ok_last_sample i w l v H Hv) as (g & _ & Hg & _).
  rewrite C1. subst n. lia.
Qed.

Lemma optimizer_steps_of_a_run_witness :
  setup (sample_inputs 32) = Ok (sample_locals (sample_images 4) 3 1)
  /\ snd (run (sample_inputs 32) (sample_world false)) = Ok [2%Z]
  /\ Z.of_nat (length (filter is_temporal_role
                         (stepped_roles
                            (trace (fst (run (sample_inputs 32)
                                             (sample_world false)))))))
     = 3%Z.
Proof.
  assert (H1 : setup (sample_inputs 32)
               = Ok (sample_locals (sample_images 4) 3 1)) by reflexivity.
  assert (H2 : snd (run (sample_inputs 32) (sample_world false)) = Ok [2%Z])
    by (vm_compute; reflexivity).
  split; [exact H1|]. split; [exact H2|].
  exact (proj1 (proj2 (optimizer_steps_of_a_run
                         (sample_inputs 32) (sample_world false)
                         _ _ H1 H2))).
Defined.

(** X5: in a run that returns, the sampler has been called at exactly
    the steps of 1..max_train_steps that are 2 or a multiple of 25, once
    each. *)
Theorem sampler_called_on_cadence
    (i : Inputs.t) (w : world) (l : Locals.t) (v : list Z) :
  setup i = Ok l -> snd (run i w) = Ok v ->
  let tr := trace (fst (run i w)) in
  let n := Z.to_nat (Locals.max_train_steps l) in
  sampled_steps tr = filter (validation_due l) (steps_down n)
  /\ forall g,
       In g (sampled_steps tr)
       <-> (1 <= g <= Locals.max_train_steps l)%Z
           /\ (g mod 25 = 0 \/ g = 2)%Z.
Proof.
  intros H Hv tr n.
  destruct (run_ok_recorded i w l v H Hv) as [(_ & _ & _ & _ & Sa) _].
  unfold sampled_of in Sa. fold tr n in Sa.
  split; [exact Sa|]. intros g.
  rewrite Sa, filter_In, steps_down_In, (validation_due_setup i l g H).
  subst n. split; intros [A B]; (split; [lia | exact B]).
Qed.

Lemma sampler_called_on_cadence_witness :
  setup (sample_inputs 32) = Ok (sample_locals (sample_images 4) 3 1)
  /\ snd (run (sample_inputs 32) (sample_world false)) = Ok [2%Z]
  /\ sampled_steps
       (trace (fst (run (sample_inputs 32) (sample_world false))))
     = filter (validation_due (sample_locals (sample_images 4) 3 1))
              (steps_down 3).
Proof.
  assert (H1 : setup (sample_inputs 32)
               = Ok (sample_locals (sample_images 4) 3 1)) by reflexivity.
  assert (H2 : snd (run (sample_inputs 32) (sample_world false)) = Ok [2%Z])
    by (vm_compute; reflexivity).
  split; [exact H1|]. split; [exact H2|].
  exact (proj1 (sampler_called_on_cadence
                  (sample_inputs 32) (sample_world false) _ _ H1 H2)).
Defined.

(** ** Bounds and a cadence of zero *)

Lemma for_range_global_step_bound (g : nat -> M unit) :
  (forall i s, (global_step s <= global_step (fst (g i s))
                <= global_step s + 1)%Z) ->
  forall n start s,
    (global_step s <= global_step (fst (for_range g start n s))
     <= global_step s + Z.of_nat n)%Z.
Proof.
  intros Hg. induction n as [|n IH]; intros start s; simpl; [lia|].
  unfold bind. specialize (Hg start s).
  destruct (g start s) as [s1 [[]|e]]; simpl in *.
  - specialize (IH (S start) s1). lia.
  - lia.
Qed.

Lemma train_step_global_step l w e step s :
  (global_step s <= global_step (fst (train_step l w e step s))
   <= global_step s + 1)%Z.
Proof.
  destruct (train_step_counters l w e step s) as [[C _]|A].
  - unfold counters in C. injection C as -> _ _ _. lia.
  - unfold advanced, counters in A. injection A as -> _ _ _. lia.
Qed.

(** X6: whatever is raised and wherever, [global_step] never leaves the
    range from 0 to the step budget: a run makes at most max_train_steps
    passes. *)
Theorem global_step_within_budget (i : Inputs.t) (w : world) :
  (0 <= global_step (fst (run i w))
   <= match setup i with
      | Ok l => Z.max 0 (Locals.max_train_steps l)
      | Raise _ => 0
      end)%Z.
Proof.
  pose proof (run_cases i w) as R. destruct (setup i) as [l|e] eqn:E.
  - pose proof (run_state i w l E) as C. unfold counters in C.
    injection C as -> _ _ _.
    destruct (inject_loras_bookkeeping l) as [Z0 _].
    unfold counters in Z0. injection Z0 as Z0 _ _ _.
    unfold train_loop. rewrite num_train_epochs_eq.
    pose proof (for_range_global_step_bound
                  (fun epoch =>
                     for_range
                       (fun step => train_step l w (steps w epoch) step)
                       0 batch_size)) as B.
    assert (Hb : forall k s,
               (global_step s
                <= global_step
                     (fst (for_range
                             (fun step => train_step l w (steps w k) step)
                             0 batch_size s))
                <= global_step s + 1)%Z).
    { intros k s. rewrite inner_loop_fst. apply train_step_global_step. }
    specialize (B Hb (Z.to_nat (Locals.max_train_steps l)) 0%nat
                  (fst (inject_loras l init_state))).
    lia.
  - rewrite R. simpl. lia.
Qed.

Lemma gs_saves_eq (s s' : state) :
  gs_saves s' = gs_saves s ->
  global_step s' = global_step s /\ saves_of s' = saves_of s.
Proof.
  unfold gs_saves. intros E.
  split; [exact (f_equal fst E) | exact (f_equal snd E)].
Qed.

Lemma untouched_gs_saves {A} (m : M A) :
  frame untouched_all m -> frame gs_saves m.
Proof.
  intros F s. specialize (F s). unfold untouched_all, progress in F.
  unfold gs_saves.
  pose proof (f_equal (fun x => fst (fst (fst (fst x)))) F) as G.
  pose proof (f_equal (fun x => snd (fst (fst x))) F) as S.
  simpl in G, S. now rewrite G, S.
Qed.

Lemma backpropagate_gs_saves l e step ms mt :
  frame gs_saves (backpropagate l e step ms mt).
Proof.
  intros s. pose proof (backpropagate_untouched l e step ms mt s) as F.
  unfold progress in F. unfold gs_saves.
  pose proof (f_equal (fun x => fst (fst (fst x))) F) as G.
  pose proof (f_equal (fun x => snd (fst x)) F) as S.
  simpl in G, S. now rewrite G, S.
Qed.

(** With a checkpoint cadence of 0 a pass that reaches line 696 raises
    ZeroDivisionError there. *)
Lemma train_step_zero_cadence l w e step s :
  Locals.checkpointing_steps l = 0%Z ->
  exists s' ex,
    train_step l w e step s = (s', Raise ex)
    /\ (global_step s' = global_step s
        \/ (global_step s' = (global_step s + 1)%Z
            /\ ex = ZeroDivisionError))
    /\ saves_of s' = saves_of s.
Proof.
  intros H0. unfold train_step.
  phase gs_saves (untouched_gs_saves _ (zero_grads_untouched l)).
  2:{ apply gs_saves_eq in Fr. do 2 eexists. split; [reflexivity|].
      split; [left|]; apply Fr. }
  phase gs_saves (frame_lift gs_saves (shared_noise l e)).
  2:{ do 2 eexists. split; [reflexivity|].
      assert (E : gs_saves s1 = gs_saves s) by congruence.
      apply gs_saves_eq in E. split; [left|]; apply E. }
  split_pair.
  phase gs_saves
        (untouched_gs_saves
           _ (spatial_branch_untouched l w e step
                (mask_spatial (e_mask e)
                   (mask_temporal (Locals.train_temporal_lora l))) t t0)).
  2:{ do 2 eexists. split; [reflexivity|].
      assert (E : gs_saves s2 = gs_saves s) by congruence.
      apply gs_saves_eq in E. split; [left|]; apply E. }
  phase gs_saves
        (untouched_gs_saves
           _ (temporal_branch_untouched w e
                (mask_temporal (Locals.train_temporal_lora l)) t t0)).
  2:{ do 2 eexists. split; [reflexivity|].
      assert (E : gs_saves s3 = gs_saves s) by congruence.
      apply gs_saves_eq in E. split; [left|]; apply E. }
  phase gs_saves
        (backpropagate_gs_saves l e step
           (mask_spatial (e_mask e)
              (mask_temporal (Locals.train_temporal_lora l)))
           (mask_temporal (Locals.train_temporal_lora l))).
  2:{ do 2 eexists. split; [reflexivity|].
      assert (E : gs_saves s4 = gs_saves s) by congruence.
      apply gs_saves_eq in E. split; [left|]; apply E. }
  assert (E4 : gs_saves s4 = gs_saves s) by congruence.
  apply gs_saves_eq in E4. destruct E4 as [G4 S4].
  clear Fr Fr0 Fr1 Fr2 Fr3.
  match goal with
  | |- context [bind ?m ?k ?s] =>
      destruct (bind_cases m k s) as [(s5 & ? & E & ->) | (s5 & ? & E & ->)]
  end; pose proof (finish_step_spec l step s4) as F; rewrite E in F.
  2:{ subst s5. do 2 eexists. split; [reflexivity|].
      split; [left; exact G4 | exact S4]. }
  destruct F as [F _]. unfold advanced, counters in F.
  injection F as F _ _ _.
  pose proof (frame_at _ _ _ _ _ (finish_step_untouched l step) E) as U.
  cbv beta in U.
  assert (S5 : saves_of s5 = saves_of s4)
    by exact (f_equal (fun x => snd (fst (fst x))) U).
  exists s5, ZeroDivisionError. split.
  - destruct s5 as [gs sm tr].
    unfold bind, save_checkpoint, get_global_step. simpl.
    rewrite H0. reflexivity.
  - split; [right; split; [congruence | reflexivity] | congruence].
Qed.

(** X7: a checkpoint cadence of 0, which the form allows, stops the
    node in its first pass: the run raises, at the latest when line 696
    divides by the cadence (ZeroDivisionError, after the first
    optimizer and schedule steps were made), and nothing is ever
    saved. *)
Theorem zero_checkpoint_cadence_stops_run
    (i : Inputs.t) (w : world) (l : Locals.t) :
  setup i = Ok l ->
  Locals.checkpointing_steps l = 0%Z ->
  (0 < Locals.max_train_steps l)%Z ->
  (Inputs.checkpointing_steps i = 0
   \/ (Inputs.checkpointing_steps i = -1
       /\ Inputs.checkpointing_epochs i = 0))%Z
  /\ exists ex,
       snd (run i w) = Raise ex
       /\ (global_step (fst (run i w)) = 0%Z
           \/ (global_step (fst (run i w)) = 1%Z
               /\ ex = ZeroDivisionError))
       /\ saves_of (fst (run i w)) = ([], []).
Proof.
  intros H H0 Hm. split.
  { destruct (setup_locals i l H) as (_ & Hrank & _).
    pose proof (setup_budgets i Hrank) as S. cbv zeta in S.
    destruct (((Inputs.max_train_steps i =? -1)
               && (Inputs.max_train_epoch i =? -1)
               || (Inputs.checkpointing_steps i =? -1)
                  && (Inputs.checkpointing_epochs i =? -1))%Z);
      [congruence|].
    destruct S as (l' & Hl' & _ & Hc).
    assert (l' = l) by congruence. subst l'. rewrite H0 in Hc.
    destruct (Inputs.checkpointing_steps i =? -1)%Z eqn:E.
    - apply Z.eqb_eq in E. right. split; [exact E | now symmetry].
    - left. now symmetry. }
  pose proof (run_cases i w) as R. rewrite H in R.
  pose proof (untouched_gs_saves _ (inject_loras_untouched l) init_state)
    as F0.
  apply gs_saves_eq in F0. destruct F0 as [G0 S0].
  unfold train_loop in R. rewrite num_train_epochs_eq in R.
  destruct (Z.to_nat (Locals.max_train_steps l)) as [|n] eqn:En; [lia|].
  cbn [for_range] in R. unfold bind at 1 in R.
  rewrite inner_loop_eq in R.
  destruct (train_step_zero_cadence
              l w (steps w 0) 0%nat (fst (inject_loras l init_state)) H0)
    as (s' & ex & T & G & Sv).
  rewrite T in R. rewrite R. simpl. exists ex.
  split; [reflexivity|]. split.
  - destruct G as [G|[G ->]]; [left | right; split; [|reflexivity]];
      rewrite G, G0; reflexivity.
  - rewrite Sv, S0. reflexivity.
Qed.

Lemma zero_checkpoint_cadence_stops_run_witness :
  setup sample_inputs_cadence0 = Ok (sample_locals (sample_images 4) 3 0)
  /\ Locals.checkpointing_steps (sample_locals (sample_images 4) 3 0) = 0%Z
  /\ (0 < Locals.max_train_steps (sample_locals (sample_images 4) 3 0))%Z
  /\ snd (run sample_inputs_cadence0 (sample_world false))
     = Raise ZeroDivisionError
  /\ exists ex,
       snd (run sample_inputs_cadence0 (sample_world false)) = Raise ex
       /\ (global_step (fst (run sample_inputs_cadence0
                                 (sample_world false))) = 0%Z
           \/ (global_step (fst (run sample_inputs_cadence0
                                     (sample_world false))) = 1%Z
               /\ ex = ZeroDivisionError))
       /\ saves_of (fst (run sample_inputs_cadence0 (sample_world false)))
          = ([], []).
Proof.
  assert (H1 : setup sample_inputs_cadence0
               = Ok (sample_locals (sample_images 4) 3 0)) by reflexivity.
  assert (H2 : Locals.checkpointing_steps
                 (sample_locals (sample_images 4) 3 0) = 0%Z) by reflexivity.
  assert (H3 : (0 < Locals.max_train_steps
                      (sample_locals (sample_images 4) 3 0))%Z)
    by (cbn; lia).
  split; [exact H1|]. split; [exact H2|]. split; [exact H3|].
  split; [vm_compute; reflexivity|].
  exact (proj2 (zero_checkpoint_cadence_stops_run
                  sample_inputs_cadence0 (sample_world false) _ H1 H2 H3)).
Defined.

(** X8: the log line of the loop body reads [loss_temporal.detach()]
    without the guard it has for the spatial loss, so with temporal
    training disabled (where the temporal role is masked at every pass
    and the spatial role never is) no pass through the loop body can
    return. *)
Theorem temporal_disabled_pass_never_returns
    (l : Locals.t) (w : world) (e : step_env) (step : nat) (s : state) :
  Locals.train_temporal_lora l = false ->
  mask_temporal (Locals.train_temporal_lora l) = true
  /\ mask_spatial (e_mask e) (mask_temporal (Locals.train_temporal_lora l))
     = false
  /\ exists ex, snd (train_step l w e step s) = Raise ex.
Proof.
  intros Ht. rewrite Ht. split; [reflexivity|]. split.
  { unfold mask_spatial. cbn. apply andb_false_r. }
  destruct (train_step l w e step s) as [s' [[]|ex]] eqn:T; [|simpl; eauto].
  exfalso.
  destruct (train_step_ok_inv l w e step s s' T)
    as (latents & noise & s1 & s2 & ls & s3 & lt & s4 & s5 & s6 & s7
        & _ & _ & _ & E4 & _ & _ & _ & _ & E9).
  rewrite Ht in E4. unfold temporal_branch, mask_temporal, bind, emit, ret in E4.
  injection E4 as _ <-. discriminate.
Qed.

Lemma temporal_disabled_pass_never_returns_witness :
  Locals.train_temporal_lora sample_locals_spatial_only = false
  /\ snd (train_step sample_locals_spatial_only (sample_world false)
                     (sample_step_env false) 0 init_state)
     = Raise AttributeError
  /\ exists ex,
       snd (train_step sample_locals_spatial_only (sample_world false)
                       (sample_step_env false) 0 init_state) = Raise ex.
Proof.
  assert (H : Locals.train_temporal_lora sample_locals_spatial_only = false)
    by reflexivity.
  split; [exact H|]. split; [vm_compute; reflexivity|].
  exact (proj2 (proj2 (temporal_disabled_pass_never_returns
                         sample_locals_spatial_only (sample_world false)
                         (sample_step_env false) 0%nat init_state H))).
Defined.

(** ** The latent encoder bridge *)

Lemma flat_index_div (f ib jf : nat) :
  (jf < f)%nat -> ((ib * f + jf) / f = ib /\ (ib * f + jf) mod f = jf)%nat.
Proof.
  intros H. split.
  - rewrite Nat.div_add_l by lia. rewrite Nat.div_small by lia. lia.
  - rewrite Nat.add_comm, Nat.Div0.mod_add. now apply Nat.mod_small.
Qed.

(** X9: tensor_to_vae_latent keeps the frames in order.  For a clip of
    layout (b, f, c, h, w) with at least one frame and a codec that
    returns one latent frame per pixel frame, the result has layout
    (b, c', f, h', w'), and its frame [jf] of batch [ib] is 0.18215
    times the codec's output for the row [ib * f + jf] of the merged
    batch, which is pixel frame [jf] of clip [ib]. *)
Theorem tensor_to_vae_latent_frames
    (t : tensor) (vae : vae_t) (b f c h w c' h' w' : nat) :
  shape t = [b; f; c; h; w] -> (0 < f)%nat ->
  exists merged,
    merge_bf t = Ok merged
    /\ shape merged = [(b * f)%nat; c; h; w]
    /\ (forall ib jf rest, (jf < f)%nat ->
           data merged ((ib * f + jf)%nat :: rest)
           = data t (ib :: jf :: rest))
    /\ (shape (vae merged) = [(b * f)%nat; c'; h'; w'] ->
        exists latents,
          tensor_to_vae_latent t vae = Ok latents
          /\ shape latents = [b; c'; f; h'; w']
          /\ forall ib ic jf ih iw,
               data latents [ib; ic; jf; ih; iw]
               = (18215 / 100000
                  * data (vae merged) [(ib * f + jf)%nat; ic; ih; iw])%R).
Proof.
  intros Hs Hf. unfold tensor_to_vae_latent, merge_bf, dim. rewrite Hs.
  cbn [nth_error rbind]. eexists. split; [reflexivity|].
  split; [reflexivity|]. split.
  - intros ib jf rest Hj. cbn [data].
    destruct (flat_index_div f ib jf Hj) as [-> ->]. reflexivity.
  - intros Hv. unfold split_bf_to_bcfhw. rewrite Hv.
    assert (E0 : (f =? 0)%nat = false) by (apply Nat.eqb_neq; lia).
    assert (E1 : ((b * f) mod f =? 0)%nat = true)
      by (apply Nat.eqb_eq, Nat.Div0.mod_mul).
    rewrite E0, E1. cbn [orb negb rbind].
    eexists. split; [reflexivity|]. split.
    + cbn [smul shape]. now rewrite Nat.div_mul by lia.
    + intros. reflexivity.
Qed.

Lemma tensor_to_vae_latent_frames_witness :
  shape sample_ramp = [1; 2; 3; 1; 1]%nat /\ (0 < 2)%nat
  /\ exists latents,
       tensor_to_vae_latent sample_ramp identity_vae = Ok latents
       /\ shape latents = [1; 3; 2; 1; 1]%nat
       /\ data latents [0; 0; 1; 0; 0]%nat = (18215 / 100000 * 1)%R.
Proof.
  assert (H1 : shape sample_ramp = [1; 2; 3; 1; 1]%nat) by reflexivity.
  assert (H2 : (0 < 2)%nat) by lia.
  split; [exact H1|]. split; [exact H2|].
  destruct (tensor_to_vae_latent_frames
              sample_ramp identity_vae 1 2 3 1 1 3 1 1 H1 H2)
    as (merged & Hm & _ & Hd & Hl).
  injection Hm as <-.
  destruct (Hl eq_refl) as (latents & E & Hs & He).
  exists latents. split; [exact E|]. split; [exact Hs|].
  rewrite He. reflexivity.
Defined.

(** X10: tensor_to_vae_latent accepts five-dimensional clips only: on a
    tensor of fewer than two dimensions reading [t.shape[1]] raises
    IndexError, and on any other tensor that is not five-dimensional
    the rearrangement raises (an einops error is a RuntimeError),
    before the codec is called. *)
Theorem tensor_to_vae_latent_rank (t : tensor) (vae : vae_t) :
  length (shape t) <> 5%nat ->
  tensor_to_vae_latent t vae
  = Raise (if (length (shape t) <? 2)%nat then IndexError
           else RuntimeError).
Proof.
  intros H. unfold tensor_to_vae_latent, merge_bf, dim.
  destruct (shape t) as [|b [|f [|c [|h [|w [|x s]]]]]]; cbn in *;
    try reflexivity. lia.
Qed.

Lemma tensor_to_vae_latent_rank_witness :
  length (shape sample_latents3) <> 5%nat
  /\ tensor_to_vae_latent sample_latents3 identity_vae = Raise RuntimeError.
Proof.
  assert (H : length (shape sample_latents3) <> 5%nat) by (cbn; lia).
  split; [exact H|].
  exact (tensor_to_vae_latent_rank sample_latents3 identity_vae H).
Defined.

(** ** Shapes of the sampled noise *)

Lemma bshape_aligned_length (s1 s2 s : list nat) :
  bshape_aligned s1 s2 = Some s -> length s = length s1.
Proof.
  revert s2 s. induction s1 as [|a s1 IH]; intros [|b s2] s; simpl;
    try discriminate.
  - now intros [= <-].
  - destruct (bdim a b); [|discriminate].
    destruct (bshape_aligned s1 s2) as [s'|] eqn:E; [|discriminate].
    intros [= <-]. simpl. f_equal. exact (IH _ _ E).
Qed.

Lemma broadcast_shapes_length (s1 s2 s : list nat) :
  broadcast_shapes s1 s2 = Some s ->
  length s = Nat.max (length s1) (length s2).
Proof.
  unfold broadcast_shapes. intros H.
  rewrite (bshape_aligned_length _ _ _ H). unfold pad.
  rewrite length_app, repeat_length. lia.
Qed.

(** X11: sample_noise needs three dimensions to unpack (fewer raise
    ValueError, whatever the toggle); with the toggle clear it returns
    the Gaussian draw in the shape of the latents; with the toggle set
    the offset draw has five dimensions, so on latents of three or four
    dimensions the call either raises or returns noise of five
    dimensions, never noise of the latents' shape. *)
Theorem sample_noise_shapes
    (latents : tensor) (noise_strength : R) (gauss offset : list nat -> R) :
  ((length (shape latents) < 3)%nat ->
   forall toggle,
     sample_noise latents noise_strength toggle gauss offset
     = Raise ValueError)
  /\ ((3 <= length (shape latents))%nat ->
      sample_noise latents noise_strength false gauss offset
      = Ok (mk (shape latents) gauss)
      /\ forall noise,
           sample_noise latents noise_strength true gauss offset = Ok noise ->
           length (shape noise) = Nat.max (length (shape latents)) 5).
Proof.
  unfold sample_noise, unpack_bcf. split.
  - intros H toggle.
    destruct (shape latents) as [|b [|c [|f s]]]; cbn in *;
      try reflexivity. lia.
  - intros H.
    destruct (shape latents) as [|b [|c [|f s]]] eqn:Hs; cbn in H; try lia.
    cbn [rbind]. split; [reflexivity|].
    intros noise. unfold add, binop. cbn [shape smul].
    destruct (broadcast_shapes (b :: c :: f :: s) [b; c; f; 1; 1]%nat)
      as [s'|] eqn:B; [|discriminate].
    intros [= <-]. cbn [shape].
    exact (broadcast_shapes_length _ _ _ B).
Qed.

Lemma sample_noise_shapes_witness :
  (3 <= length (shape sample_latents3))%nat
  /\ sample_noise sample_latents3 1 false (fun _ => 0%R) (fun _ => 1%R)
     = Ok (mk (shape sample_latents3) (fun _ => 0%R))
  /\ exists noise,
       sample_noise sample_latents3 1 true (fun _ => 0%R) (fun _ => 1%R)
       = Ok noise
       /\ length (shape noise) = 5%nat.
Proof.
  assert (H : (3 <= length (shape sample_latents3))%nat) by (cbn; lia).
  split; [exact H|].
  destruct (proj2 (sample_noise_shapes sample_latents3 1
                     (fun _ => 0%R) (fun _ => 1%R)) H) as [E1 E2].
  split; [exact E1|].
  eexists. split; [reflexivity|]. reflexivity.
Defined.

(** ** The slice of the spatial branch *)

(** X14: without the flip, get_spatial_latents draws its index below
    [pixel_values.shape[2]] and slices the shared five-dimensional
    tensors at it along their frame dimension.  The call returns exactly
    when the drawn index is below their number of frames, and then
    returns their frame at that index, the same for the noised latents
    and for the target; it returns for every draw exactly when
    [pixel_values.shape[2]] is at most that number of frames. *)
Theorem spatial_slice_in_range
    (pixel_values : tensor) (random_hflip_img : Q) (cache_latents : bool)
    (noisy_latents target : tensor) (timesteps : list nat)
    (noise_scheduler : scheduler_t) (draw_uniform : Q)
    (draw_gauss : list nat -> R) (high b c f h w : nat) :
  uniform_lt draw_uniform random_hflip_img = false ->
  dim 2 pixel_values = Ok high -> (0 < high)%nat ->
  shape noisy_latents = [b; c; f; h; w] ->
  shape target = [b; c; f; h; w] ->
  let call draw :=
    get_spatial_latents pixel_values random_hflip_img cache_latents
                        noisy_latents target timesteps noise_scheduler
                        draw draw_uniform draw_gauss in
  (forall draw,
      ((draw mod high < f)%nat ->
       call draw
       = Ok (mk [b; c; h; w]
                (fun idx => data noisy_latents
                                 (insert_at 2 (draw mod high)%nat idx)),
             mk [b; c; h; w]
                (fun idx => data target
                                 (insert_at 2 (draw mod high)%nat idx)),
             false))
      /\ ((f <= draw mod high)%nat -> call draw = Raise IndexError))
  /\ ((forall draw, exists r, call draw = Ok r) <-> (high <= f)%nat).
Proof.
  intros Hu Hd Hpos Hn Ht call.
  assert (E : forall draw,
             call draw
             = (let? noisy_latents_input :=
                  slice5 2 (draw mod high) noisy_latents in
                let? target_spatial := slice5 2 (draw mod high) target in
                Ok (noisy_latents_input, target_spatial, false))).
  { intros draw. unfold call.
    rewrite (get_spatial_latents_no_hflip _ _ _ _ _ _ _ _ _ _ Hu), Hd.
    cbn [rbind]. destruct (randint_pos high draw Hpos) as [-> _].
    reflexivity. }
  assert (A : forall draw,
             ((draw mod high < f)%nat ->
              call draw
              = Ok (mk [b; c; h; w]
                       (fun idx => data noisy_latents
                                        (insert_at 2 (draw mod high)%nat idx)),
                    mk [b; c; h; w]
                       (fun idx => data target
                                        (insert_at 2 (draw mod high)%nat idx)),
                    false))
             /\ ((f <= draw mod high)%nat -> call draw = Raise IndexError)).
  { intros draw. rewrite E. unfold slice5, select. rewrite Hn, Ht.
    change (length [b; c; f; h; w] <? 5)%nat with false.
    cbn [nth_error].
    split; intros Hlt.
    - apply Nat.ltb_lt in Hlt. rewrite Hlt. reflexivity.
    - apply Nat.ltb_ge in Hlt. rewrite Hlt. reflexivity. }
  split; [exact A|]. split.
  - intros Hall. destruct (Nat.le_gt_cases high f) as [|Hgt]; [assumption|].
    exfalso. destruct (Hall f) as [r Hr].
    destruct (A f) as [_ A2]. rewrite A2 in Hr; [discriminate|].
    rewrite Nat.mod_small by lia. lia.
  - intros Hle draw. destruct (A draw) as [A1 _]. eexists. apply A1.
    pose proof (Nat.mod_upper_bound draw high). lia.
Qed.

Lemma spatial_slice_in_range_witness :
  uniform_lt 0.5 (-1) = false
  /\ dim 2 (Locals.pixel_values (sample_locals (sample_images 2) 3 1))
     = Ok 3%nat
  /\ (0 < 3)%nat
  /\ shape (sample_latents 0) = [1; 4; 2; 1; 1]%nat
  /\ get_spatial_latents
       (Locals.pixel_values (sample_locals (sample_images 2) 3 1))
       (-1) false (sample_latents 0) (sample_latents 0) [0%nat]
       (fun t _ _ => t) 2 0.5 (fun _ => 0%R)
     = Raise IndexError
  /\ ~ (forall draw, exists r,
           get_spatial_latents
             (Locals.pixel_values (sample_locals (sample_images 2) 3 1))
             (-1) false (sample_latents 0) (sample_latents 0) [0%nat]
             (fun t _ _ => t) draw 0.5 (fun _ => 0%R)
           = Ok r).
Proof.
  assert (H1 : uniform_lt 0.5 (-1) = false) by reflexivity.
  assert (H2 : dim 2 (Locals.pixel_values
                        (sample_locals (sample_images 2) 3 1)) = Ok 3%nat)
    by reflexivity.
  assert (H3 : (0 < 3)%nat) by lia.
  assert (H4 : shape (sample_latents 0) = [1; 4; 2; 1; 1]%nat)
    by reflexivity.
  split; [exact H1|]. split; [exact H2|]. split; [exact H3|].
  split; [exact H4|].
  destruct (spatial_slice_in_range
              (Locals.pixel_values (sample_locals (sample_images 2) 3 1))
              (-1) false (sample_latents 0) (sample_latents 0) [0%nat]
              (fun t _ _ => t) 0.5 (fun _ => 0%R) 3 1 4 2 1 1
              H1 H2 H3 H4 H4) as [A B].
  split.
  - apply (proj2 (A 2%nat)). cbn. lia.
  - intros Hall. apply B in Hall. lia.
Defined.

(** ** The flipped branch on cached latents *)

(** X15: with the flip drawn and the latents cached (layout (b, c, f, h,
    w), at least one frame), get_spatial_latents always returns: it
    picks a frame below the number of frames, mirrors it left to right,
    puts it in the shape (b, 1, c, h, w), and pairs the scheduler's
    noising of it with a fresh Gaussian draw of that shape as target;
    the shared noised latents and target it was given are not read. *)
Theorem flipped_branch_on_cached_latents
    (pixel_values : tensor) (random_hflip_img : Q)
    (noisy_latents target : tensor) (timesteps : list nat)
    (noise_scheduler : scheduler_t) (draw_idx : nat) (draw_uniform : Q)
    (draw_gauss : list nat -> R) (b c f h w : nat) :
  uniform_lt draw_uniform random_hflip_img = true ->
  shape pixel_values = [b; c; f; h; w] -> (0 < f)%nat ->
  exists flipped,
    shape flipped = [b; 1%nat; c; h; w]
    /\ (forall ib ic ih iw,
           data flipped [ib; 0%nat; ic; ih; iw]
           = data pixel_values
                  [ib; ic; (draw_idx mod f)%nat; ih; (w - 1 - iw)%nat])
    /\ get_spatial_latents pixel_values random_hflip_img true
                           noisy_latents target timesteps noise_scheduler
                           draw_idx draw_uniform draw_gauss
       = Ok (noise_scheduler flipped (mk [b; 1%nat; c; h; w] draw_gauss)
                             timesteps,
             mk [b; 1%nat; c; h; w] draw_gauss, true).
Proof.
  intros Hu Hs Hf. unfold get_spatial_latents, dim. rewrite Hu, Hs.
  cbn [nth_error rbind negb]. destruct (randint_pos f draw_idx Hf) as [-> Hlt].
  cbn [rbind]. unfold slice5, select. rewrite Hs.
  change (length [b; c; f; h; w] <? 5)%nat with false. cbn [nth_error].
  apply Nat.ltb_lt in Hlt. rewrite Hlt. cbn [rbind].
  eexists. split; [|split; [|reflexivity]].
  - reflexivity.
  - intros. reflexivity.
Qed.

Lemma flipped_branch_on_cached_latents_witness :
  uniform_lt 0 1 = true
  /\ shape sample_cached = [1; 1; 2; 1; 2]%nat /\ (0 < 2)%nat
  /\ exists flipped,
       data flipped [0; 0; 0; 0; 0]%nat = 1%R
       /\ get_spatial_latents sample_cached 1 true
            (sample_latents 0) (sample_latents 0) [0%nat]
            (fun t _ _ => t) 1 0 (fun _ => 0%R)
          = Ok (flipped, mk [1; 1; 1; 1; 2]%nat (fun _ => 0%R), true).
Proof.
  assert (H1 : uniform_lt 0 1 = true) by reflexivity.
  assert (H2 : shape sample_cached = [1; 1; 2; 1; 2]%nat) by reflexivity.
  assert (H3 : (0 < 2)%nat) by lia.
  split; [exact H1|]. split; [exact H2|]. split; [exact H3|].
  destruct (flipped_branch_on_cached_latents
              sample_cached 1 (sample_latents 0) (sample_latents 0)
              [0%nat] (fun t _ _ => t) 1 0 (fun _ => 0%R) 1 1 2 1 2
              H1 H2 H3) as (flipped & _ & Hd & E).
  exists flipped. split; [|exact E].
  rewrite Hd. reflexivity.
Defined.

(** ** scale_loras *)

Lemma set_nth_length {A} (i : nat) (x : A) (l : list A) :
  length (set_nth i x l) = length l.
Proof.
  revert i. induction l as [|a l IH]; intros [|i]; simpl; auto.
Qed.

Lemma set_nth_nth {A} (i j : nat) (x d : A) (l : list A) :
  (i < length l)%nat ->
  nth j (set_nth i x l) d = if (j =? i)%nat then x else nth j l d.
Proof.
  revert i j. induction l as [|a l IH]; intros [|i] [|j] H; simpl in *;
    try lia; try reflexivity.
  apply IH. lia.
Qed.

Lemma assign_scales_spec (idxs : list nat) (scale : Q) (l : list Q) :
  Forall (fun i => (i < length l)%nat) idxs ->
  exists l',
    assign_scales idxs scale l = Returns l'
    /\ length l' = length l
    /\ forall j d, nth j l' d
                   = if existsb (Nat.eqb j) idxs then scale else nth j l d.
Proof.
  revert l. induction idxs as [|i idxs IH]; intros l H; simpl.
  - exists l. repeat split.
  - inversion H as [|? ? Hi Hrest]; subst.
    apply Nat.ltb_lt in Hi. rewrite Hi. apply Nat.ltb_lt in Hi.
    destruct (IH (set_nth i scale l)) as (l' & E & Hl & Hn).
    { rewrite set_nth_length. exact Hrest. }
    exists l'. split; [exact E|]. split.
    + now rewrite Hl, set_nth_length.
    + intros j d. rewrite Hn, set_nth_nth by exact Hi.
      destruct (j =? i)%nat; simpl; [|reflexivity].
      now destruct (existsb (Nat.eqb j) idxs).
Qed.

Lemma range_from_In (start count step i : nat) :
  In i (range_from start count step)
  <-> exists j, (j < count)%nat /\ i = (start + j * step)%nat.
Proof.
  revert start. induction count as [|count IH]; intros start; simpl.
  - split; [tauto | intros (j & Hj & _); lia].
  - rewrite IH. split.
    + intros [<-|(j & Hj & ->)].
      * exists 0%nat. split; lia.
      * exists (S j). split; lia.
    + intros ([|j] & Hj & ->).
      * left. lia.
      * right. exists j. split; lia.
Qed.

(** The members of [range(0, stop, k)] for a positive [k]. *)
Lemma py_range0_members (stop k i : nat) :
  (0 < k)%nat ->
  In i (range_from 0 ((stop + k - 1) / k) k)
  <-> (i < stop)%nat /\ (i mod k = 0)%nat.
Proof.
  intros Hk. rewrite range_from_In. split.
  - intros (j & Hj & ->). simpl. split.
    + assert (j * k < (stop + k - 1) / k * k)%nat by nia.
      pose proof (Nat.Div0.mul_div_le (stop + k - 1) k) as M. nia.
    + apply Nat.Div0.mod_mul.
  - intros [Hi Hm]. exists (i / k)%nat. split.
    + pose proof (Nat.div_mod_eq i k) as D. rewrite Hm in D.
      apply Nat.Div0.div_lt_upper_bound.
      pose proof (Nat.div_mod_eq (stop + k - 1) k) as D2.
      pose proof (Nat.mod_upper_bound (stop + k - 1) k). nia.
    + pose proof (Nat.div_mod_eq i k) as D. rewrite Hm in D. simpl. lia.
Qed.

Lemma strided_scale_loras_spec (lora_list : list Q) (scale : Q)
    (step n : Z) :
  (0 < n)%Z ->
  exists l',
    scale_loras lora_list scale (Some step) (Some n) = Returns l'
    /\ length l' = length lora_list
    /\ forall i d, (i < length lora_list)%nat ->
         nth i l' d
         = if (Z.of_nat i mod n =? 0)%Z then scale else nth i lora_list d.
Proof.
  intros Hn. unfold scale_loras, py_range0.
  destruct (Z.eqb_spec n 0) as [->|_]; [lia|].
  destruct (Z.ltb_spec n 0) as [?|_]; [lia|].
  set (k := Z.to_nat n). assert (Hk : (0 < k)%nat) by (subst k; lia).
  destruct (assign_scales_spec
              (range_from 0 ((length lora_list + k - 1) / k) k)
              scale lora_list) as (l' & E & Hl & Hnth).
  { apply Forall_forall. intros i Hi.
    now apply (py_range0_members _ _ _ Hk) in Hi. }
  exists l'. split; [exact E|]. split; [exact Hl|].
  intros i d Hi. rewrite Hnth.
  assert (Hmod : (Z.of_nat i mod n)%Z = Z.of_nat (i mod k)).
  { rewrite Nat2Z.inj_mod. subst k. now rewrite Z2Nat.id by lia. }
  rewrite Hmod.
  destruct (existsb (Nat.eqb i) _) eqn:Ex.
  - apply existsb_exists in Ex. destruct Ex as (j & Hj & Hij).
    apply Nat.eqb_eq in Hij. subst j.
    apply (py_range0_members _ _ _ Hk) in Hj. destruct Hj as [_ Hm].
    now rewrite Hm.
  - destruct (Z.eqb_spec (Z.of_nat (i mod k)) 0) as [Hz|_]; [|reflexivity].
    assert (Hin : In i (range_from 0 ((length lora_list + k - 1) / k) k)).
    { apply (py_range0_members _ _ _ Hk). split; [exact Hi | lia]. }
    assert (existsb (Nat.eqb i)
              (range_from 0 ((length lora_list + k - 1) / k) k) = true).
    { apply existsb_exists. exists i. split; [exact Hin|].
      apply Nat.eqb_refl. }
    congruence.
Qed.

(** X16: Called with a step and a positive [spatial_lora_num],
    scale_loras returns and sets the scale of exactly the adapters at
    positions 0, n, 2n, ... of the list, leaving the others as they
    were; which positions are set does not depend on the step. *)
Theorem scale_loras_strided (lora_list : list Q) (scale : Q) (step n : Z) :
  (0 < n)%Z ->
  exists l',
    scale_loras lora_list scale (Some step) (Some n) = Returns l'
    /\ length l' = length lora_list
    /\ (forall i d, (i < length lora_list)%nat ->
          nth i l' d
          = if (Z.of_nat i mod n =? 0)%Z then scale else nth i lora_list d)
    /\ forall step',
         scale_loras lora_list scale (Some step') (Some n) = Returns l'.
Proof.
  intros Hn.
  destruct (strided_scale_loras_spec lora_list scale step n Hn)
    as (l' & E & Hl & Hnth).
  exists l'. split; [exact E|]. split; [exact Hl|]. split; [exact Hnth|].
  intros step'. exact E.
Qed.

Lemma scale_loras_strided_witness :
  exists l',
    scale_loras [5; 5; 5; 5; 5]%Q 1 (Some 7%Z) (Some 2%Z) = Returns l'
    /\ length l' = 5%nat
    /\ (forall i d, (i < 5)%nat ->
          nth i l' d
          = if (Z.of_nat i mod 2 =? 0)%Z then 1%Q
            else nth i [5; 5; 5; 5; 5]%Q d)
    /\ forall step',
         scale_loras [5; 5; 5; 5; 5]%Q 1 (Some step') (Some 2%Z) = Returns l'.
Proof.
  assert (H : (0 < 2)%Z) by reflexivity.
  exact (scale_loras_strided [5; 5; 5; 5; 5]%Q 1 7%Z 2%Z H).
Defined.

(** X17: Lines 612-613: after the two calls that gate the spatial
    ensemble, the adapters at positions 0, n, 2n, ... have scale 1 and
    all others scale 0, at every step alike; with [spatial_lora_num]
    0 the second call raises ValueError. *)
Theorem gate_ensemble_member_positions (loras : list Q) (step n : Z) :
  (0 <= n)%Z ->
  if (n =? 0)%Z
  then gate_ensemble_member loras step n = Raises (Builtin ValueError)
  else exists l',
      gate_ensemble_member loras step n = Returns l'
      /\ length l' = length loras
      /\ forall i d, (i < length loras)%nat ->
           nth i l' d = if (Z.of_nat i mod n =? 0)%Z then 1%Q else 0%Q.
Proof.
  intros Hn. unfold gate_ensemble_member.
  change (scale_loras loras 0 None None)
    with (Returns (map (fun _ : Q => 0%Q) loras)).
  destruct (Z.eqb_spec n 0) as [->|Hz].
  - reflexivity.
  - destruct (strided_scale_loras_spec (map (fun _ : Q => 0%Q) loras)
                1%Q step n) as (l' & E & Hl & Hnth); [lia|].
    rewrite length_map in Hl, Hnth.
    exists l'. split; [exact E|]. split; [exact Hl|].
    intros i d Hi. rewrite (Hnth i d Hi).
    destruct (Z.of_nat i mod n =? 0)%Z; [reflexivity|].
    rewrite (nth_indep _ d 0%Q) by now rewrite length_map.
    exact (map_nth (fun _ : Q => 0%Q) loras 0%Q i).
Qed.

Lemma gate_ensemble_member_positions_witness :
  exists l',
    gate_ensemble_member [1; 1; 1; 1; 1; 1]%Q 4%Z 3%Z = Returns l'
    /\ length l' = 6%nat
    /\ forall i d, (i < 6)%nat ->
         nth i l' d = if (Z.of_nat i mod 3 =? 0)%Z then 1%Q else 0%Q.
Proof.
  assert (H : (0 <= 3)%Z) by lia.
  exact (gate_ensemble_member_positions [1; 1; 1; 1; 1; 1]%Q 4%Z 3%Z H).
Defined.

(** X18: Edge cases of scale_loras: a [spatial_lora_num] of 0 raises
    ValueError even on an empty list; a negative one changes nothing;
    a step without [spatial_lora_num] raises TypeError on a list that
    is not empty and returns on an empty one; without a step every
    adapter gets the scale, whatever [spatial_lora_num] is. *)
Theorem scale_loras_edge_cases (lora_list : list Q) (scale x : Q)
    (step : Z) (p : positive) (n : option Z) :
  scale_loras lora_list scale (Some step) (Some 0%Z)
    = Raises (Builtin ValueError)
  /\ scale_loras lora_list scale (Some step) (Some (Z.neg p))
     = Returns lora_list
  /\ scale_loras (x :: lora_list) scale (Some step) None = Raises TypeError
  /\ scale_loras [] scale (Some step) None = Returns []
  /\ scale_loras lora_list scale None n
     = Returns (map (fun _ => scale) lora_list).
Proof.
  repeat split; destruct n; reflexivity.
Qed.

(** ** Optimizer parameter groups *)

Lemma dict_get_set (k k' : String.string) (v : value) (d : dict) :
  dict_get k (dict_set k' v d)
  = if String.eqb k' k then Some v else dict_get k d.
Proof.
  induction d as [|[k0 v0] d IH]; simpl.
  - reflexivity.
  - destruct (String.eqb_spec k0 k') as [->|Hne]; simpl.
    + now destruct (String.eqb k' k).
    + rewrite IH. destruct (String.eqb_spec k0 k) as [->|_]; [|reflexivity].
      destruct (String.eqb_spec k' k) as [->|_]; [|reflexivity].
      now contradiction Hne.
Qed.

Lemma dict_get_not_in (k : String.string) (d : dict) :
  ~ In k (map fst d) -> dict_get k d = None.
Proof.
  induction d as [|[k0 v0] d IH]; simpl; intros H; [reflexivity|].
  destruct (String.eqb_spec k0 k) as [->|_]; [tauto|].
  apply IH. tauto.
Qed.

(** Updating a dict with the items of another: the other's binding wins. *)
Lemma dict_update_get (k : String.string) (e d : dict) :
  NoDup (map fst e) ->
  dict_get k (fold_left (fun d kv => dict_set (fst kv) (snd kv) d) e d)
  = match dict_get k e with
    | Some v => Some v
    | None => dict_get k d
    end.
Proof.
  revert d. induction e as [|[k0 v0] e IH]; intros d H; simpl.
  - reflexivity.
  - inversion H as [|? ? Hnot Hrest]; subst.
    rewrite (IH _ Hrest), dict_get_set.
    destruct (String.eqb_spec k0 k) as [->|_].
    + now rewrite (dict_get_not_in _ _ Hnot).
    + reflexivity.
Qed.

Lemma create_optim_params_get (name : String.string) (params : value)
    (lr : Q) (e : dict) (k : String.string) :
  NoDup (map fst e) ->
  dict_get k (create_optim_params name params lr (Some e))
  = match dict_get k e with
    | Some v => Some v
    | None => dict_get k (create_optim_params name params lr None)
    end.
Proof. intros H. unfold create_optim_params. now apply dict_update_get. Qed.

Lemma create_optimizer_params_from_spec (acc : list dict)
    (model_list : list optim_t) (lr : Q) :
  create_optimizer_params_from acc model_list lr
  = let? groups := create_optimizer_params_from [] model_list lr in
    Ok (acc ++ groups).
Proof.
  revert acc. induction model_list as [|o rest IH]; intros acc; simpl.
  - now rewrite app_nil_r.
  - destruct (optim_groups o lr) as [g|e]; simpl; [|reflexivity].
    rewrite (IH (acc ++ g)), (IH g).
    destruct (create_optimizer_params_from [] rest lr); simpl;
      [|reflexivity].
    now rewrite app_assoc.
Qed.

Lemma create_optimizer_params_cons (o : optim_t) (rest : list optim_t)
    (lr : Q) :
  create_optimizer_params (o :: rest) lr
  = let? g := optim_groups o lr in
    let? gs := create_optimizer_params rest lr in
    Ok (g ++ gs).
Proof.
  unfold create_optimizer_params. simpl.
  destruct (optim_groups o lr) as [g|e]; simpl; [|reflexivity].
  apply create_optimizer_params_from_spec.
Qed.

Lemma create_optimizer_params_app (l1 l2 : list optim_t) (lr : Q) :
  create_optimizer_params (l1 ++ l2) lr
  = let? g1 := create_optimizer_params l1 lr in
    let? g2 := create_optimizer_params l2 lr in
    Ok (g1 ++ g2).
Proof.
  induction l1 as [|o l1 IH]; simpl.
  - change (create_optimizer_params [] lr) with (Ok (@nil dict)). simpl.
    now destruct (create_optimizer_params l2 lr).
  - rewrite !create_optimizer_params_cons, IH.
    destruct (optim_groups o lr) as [g|e]; simpl; [|reflexivity].
    destruct (create_optimizer_params l1 lr) as [g1|e]; simpl;
      [|reflexivity].
    destruct (create_optimizer_params l2 lr) as [g2|e]; simpl;
      [|reflexivity].
    now rewrite app_assoc.
Qed.

Lemma optim_groups_module (named : list (String.string * param))
    (extra : option dict) (is_lora : bool)
    (negation : option (list String.string)) (lr : Q) :
  optim_groups (mk_optim (NnModule named) true extra is_lora negation) lr
  = Ok (map (fun np => create_optim_params (fst np) (VParam (snd np))
                                           lr extra)
            (filter (fun np => Bool.eqb (contains_lora (fst np)) is_lora)
                    named)).
Proof.
  unfold optim_groups. cbn [o_model o_condition o_extra_params o_is_lora].
  destruct is_lora; cbn [andb negb]; f_equal;
    induction named as [|[n p] named IH]; simpl; try reflexivity;
    destruct (contains_lora n); simpl; now rewrite IH.
Qed.

Lemma create_optimizer_params_raises (l : list optim_t) (lr : Q) (e : exn) :
  create_optimizer_params l lr = Raise e -> e = AttributeError.
Proof.
  induction l as [|o l IH]; [discriminate|].
  rewrite create_optimizer_params_cons.
  destruct (optim_groups o lr) as [g|e'] eqn:G; simpl.
  - destruct (create_optimizer_params l lr) as [gs|e'']; simpl;
      [discriminate|].
    intros H. injection H as <-. now apply IH.
  - intros H. injection H as <-.
    unfold optim_groups in G.
    destruct (o_model o);
      destruct (o_is_lora o && o_condition o); try discriminate;
      destruct (o_condition o); try discriminate.
    now injection G as <-.
Qed.

(** X19: The groups process hands to each optimizer (lines 448-450,
    487-489): a list model marked as LoRA gives exactly one group; each
    of its keys holds the value of [extra_params] when that has the key,
    and otherwise the name "param", all parameters of all lists chained
    in order, and the learning rate 5e-6.  The [lr] argument of
    create_optimizer_params is not used; with [extra_params] holding
    only the learning rate, as process passes it, the group is
    name, params, lr with that rate. *)
Theorem lora_optimizer_params_group (unet_lora_params : list (list param))
    (extra_params : dict) (lr : Q) :
  NoDup (map fst extra_params) ->
  (exists g,
      lora_optimizer_params unet_lora_params extra_params lr = Ok [g]
      /\ (forall lr',
             lora_optimizer_params unet_lora_params extra_params lr'
             = Ok [g])
      /\ forall k,
           dict_get k g
           = match dict_get k extra_params with
             | Some v => Some v
             | None =>
                 dict_get k [("name"%string, VStr "param"%string);
                             ("params"%string,
                              VParams (concat unet_lora_params));
                             ("lr"%string, VNum default_lr)]
             end)
  /\ forall x,
       lora_optimizer_params unet_lora_params
                             [("lr"%string, VNum x)] lr
       = Ok [[("name"%string, VStr "param"%string);
              ("params"%string, VParams (concat unet_lora_params));
              ("lr"%string, VNum x)]].
Proof.
  intros Hnd. split; [|reflexivity].
  destruct extra_params as [|kv e].
  - eexists. split; [reflexivity|]. split; [reflexivity|].
    intros k. reflexivity.
  - exists (create_optim_params "param"%string
              (VParams (concat unet_lora_params)) default_lr
              (Some (kv :: e))).
    split; [reflexivity|]. split; [reflexivity|].
    intros k. now rewrite create_optim_params_get.
Qed.

Lemma lora_optimizer_params_group_witness :
  (exists g,
      lora_optimizer_params [[0; 1]; [2]]%nat sample_extra (1 # 100)
      = Ok [g]
      /\ (forall lr',
             lora_optimizer_params [[0; 1]; [2]]%nat sample_extra lr'
             = Ok [g])
      /\ forall k,
           dict_get k g
           = match dict_get k sample_extra with
             | Some v => Some v
             | None =>
                 dict_get k [("name"%string, VStr "param"%string);
                             ("params"%string,
                              VParams (concat [[0; 1]; [2]]%nat));
                             ("lr"%string, VNum default_lr)]
             end)
  /\ forall x,
       lora_optimizer_params [[0; 1]; [2]]%nat
                             [("lr"%string, VNum x)] (1 # 100)
       = Ok [[("name"%string, VStr "param"%string);
              ("params"%string, VParams (concat [[0; 1]; [2]]%nat));
              ("lr"%string, VNum x)]].
Proof.
  assert (H : NoDup (map fst sample_extra)).
  { simpl. constructor; [simpl; tauto | constructor]. }
  exact (lora_optimizer_params_group [[0; 1]; [2]]%nat sample_extra
                                     (1 # 100) H).
Defined.

(** X20: For a module whose condition holds, create_optimizer_params
    makes one group per selected parameter, in the order of
    named_parameters: with [is_lora] the parameters whose name contains
    "lora", without it those whose name does not.  The two selections
    split the module's parameters: every parameter is in exactly one. *)
Theorem module_parameters_split_by_name
    (named : list (String.string * param)) (extra : option dict)
    (negation : option (list String.string)) (lr : Q) :
  let group np :=
    create_optim_params (fst np) (VParam (snd np)) lr extra in
  let selected is_lora :=
    filter (fun np => Bool.eqb (contains_lora (fst np)) is_lora) named in
  (forall is_lora,
      create_optimizer_params
        [mk_optim (NnModule named) true extra is_lora negation] lr
      = Ok (map group (selected is_lora)))
  /\ Forall (fun np =>
               (In np (selected true) /\ ~ In np (selected false))
               \/ (In np (selected false) /\ ~ In np (selected true)))
            named
  /\ (length (selected true) + length (selected false))%nat = length named.
Proof.
  intros group selected. split; [|split].
  - intros is_lora.
    rewrite create_optimizer_params_cons, optim_groups_module.
    change (create_optimizer_params [] lr) with (Ok (@nil dict)).
    cbn [rbind]. now rewrite app_nil_r.
  - apply Forall_forall. intros np Hin. subst selected. cbn beta.
    rewrite !filter_In.
    destruct (contains_lora (fst np)); simpl; [left|right];
      (split; [now split | intros [_ C]; discriminate C]).
  - subst selected. cbn beta. clear group.
    induction named as [|[n p] named IH]; simpl; [reflexivity|].
    destruct (contains_lora n); simpl; lia.
Qed.

(** X21: An entry of the model list whose condition is false adds no
    group and raises nothing, whatever its model and flags: dropping it
    from the list leaves the result of create_optimizer_params as it
    was. *)
Theorem condition_false_entry_is_skipped (l1 l2 : list optim_t)
    (o : optim_t) (lr : Q) :
  o_condition o = false ->
  create_optimizer_params (l1 ++ o :: l2) lr
  = create_optimizer_params (l1 ++ l2) lr.
Proof.
  intros Hc. rewrite !create_optimizer_params_app.
  rewrite create_optimizer_params_cons.
  assert (G : optim_groups o lr = Ok []).
  { unfold optim_groups. rewrite Hc, andb_false_r.
    now destruct (o_model o). }
  rewrite G. cbn [rbind app].
  now destruct (create_optimizer_params l2 lr).
Qed.

Lemma condition_false_entry_is_skipped_witness :
  create_optimizer_params
    ([mk_optim (NnModule sample_named_parameters) true None true None]
       ++ mk_optim (ParamLists [[7%nat]]) false None false None
       :: [mk_optim (NnModule sample_named_parameters) true None false None])
    (1 # 100)
  = create_optimizer_params
      ([mk_optim (NnModule sample_named_parameters) true None true None]
         ++ [mk_optim (NnModule sample_named_parameters) true None false
                      None])
      (1 # 100).
Proof.
  assert (H : o_condition
                (mk_optim (ParamLists [[7%nat]]) false None false None)
              = false) by reflexivity.
  exact (condition_false_entry_is_skipped _ _ _ (1 # 100) H).
Defined.

(** X22: Failures of the optimizer-parameter helpers: param_optim
    called without [extra_params] raises AttributeError, and an empty
    [extra_params] is stored as None; a list model that is not marked
    as LoRA and whose condition holds makes create_optimizer_params
    raise AttributeError wherever it stands in the list, and
    AttributeError is the only exception the function raises. *)
Theorem optimizer_params_failures (model : model_t) (condition is_lora : bool)
    (negation : option (list String.string))
    (groups : list (list param)) (extra : option dict)
    (l1 l2 l : list optim_t) (lr : Q) :
  param_optim model condition None is_lora negation = Raise AttributeError
  /\ param_optim model condition (Some []) is_lora negation
     = Ok (mk_optim model condition None is_lora negation)
  /\ create_optimizer_params
       (l1 ++ mk_optim (ParamLists groups) true extra false negation :: l2)
       lr
     = Raise AttributeError
  /\ match create_optimizer_params l lr with
     | Ok _ => True
     | Raise e => e = AttributeError
     end.
Proof.
  split; [reflexivity|]. split; [reflexivity|]. split.
  - destruct (create_optimizer_params
                (l1 ++ mk_optim (ParamLists groups) true extra false negation
                    :: l2) lr) as [g|e] eqn:E.
    + rewrite create_optimizer_params_app, create_optimizer_params_cons
        in E.
      destruct (create_optimizer_params l1 lr); simpl in E; discriminate E.
    + now rewrite (create_optimizer_params_raises _ _ _ E).
  - destruct (create_optimizer_params l lr) as [g|e] eqn:E; [exact I|].
    exact (create_optimizer_params_raises _ _ _ E).
Qed.

(** ** Binary32 arithmetic *)

Module Float32Facts.
Import SpecFloat.
Import Float32.

Lemma fsub_same (x : float) :
  fsub x x = if is_finite x then zero else nan.
Proof.
  destruct x as [s|s| |s m e]; simpl.
  - now destruct s.
  - now destruct s.
  - reflexivity.
  - unfold fsub, SFsub. rewrite Z.sub_diag. reflexivity.
Qed.

Lemma fadd_nan_r (x : float) : fadd x nan = nan.
Proof. now destruct x. Qed.

Lemma fadd_zero_r (x : float) :
  fadd x zero = x \/ (x = neg_zero /\ fadd x zero = zero).
Proof.
  destruct x as [[|]|s| |s m e]; simpl; auto.
Qed.

Lemma shr_1_m (r : shr_record) :
  (0 <= shr_m r)%Z -> shr_m (shr_1 r) = (shr_m r / 2)%Z.
Proof.
  destruct r as [m r s]. simpl. intros H.
  destruct m as [|[p|p|]|p]; simpl; try lia; try reflexivity.
  - rewrite Pos2Z.inj_xI.
    apply (Z.div_unique _ _ _ 1); lia.
  - rewrite Pos2Z.inj_xO.
    apply (Z.div_unique _ _ _ 0); lia.
Qed.

Lemma iter_shr_1_m (p : positive) (r : shr_record) :
  (0 <= shr_m r)%Z ->
  shr_m (iter_pos shr_1 p r) = (shr_m r / 2 ^ Zpos p)%Z.
Proof.
  assert (D : forall a b c : Z, (0 < b)%Z -> (0 < c)%Z ->
                                (a / b / c = a / (b * c))%Z)
    by (intros; apply Z.div_div; lia).
  assert (N : forall a b : Z, (0 <= a)%Z -> (0 < b)%Z -> (0 <= a / b)%Z)
    by (intros; apply Z.div_pos; lia).
  revert r. induction p as [p IH|p IH|]; intros r H; cbn [iter_pos].
  - assert (P : (0 < 2 ^ Zpos p)%Z) by (apply Z.pow_pos_nonneg; lia).
    assert (E : (2 ^ Zpos p~1 = 2 * (2 ^ Zpos p * 2 ^ Zpos p))%Z).
    { rewrite <- Z.pow_add_r by lia. rewrite <- Z.pow_succ_r by lia.
      f_equal. lia. }
    assert (H1 : (0 <= shr_m (shr_1 r))%Z)
      by (rewrite shr_1_m by exact H; apply N; lia).
    assert (H2 : (0 <= shr_m (iter_pos shr_1 p (shr_1 r)))%Z)
      by (rewrite IH by exact H1; apply N; lia).
    rewrite IH by exact H2. rewrite IH by exact H1.
    rewrite shr_1_m by exact H.
    rewrite E, !D by lia. reflexivity.
  - assert (P : (0 < 2 ^ Zpos p)%Z) by (apply Z.pow_pos_nonneg; lia).
    assert (E : (2 ^ Zpos p~0 = 2 ^ Zpos p * 2 ^ Zpos p)%Z).
    { rewrite <- Z.pow_add_r by lia. f_equal. lia. }
    assert (H2 : (0 <= shr_m (iter_pos shr_1 p r))%Z)
      by (rewrite IH by exact H; apply N; lia).
    rewrite IH by exact H2. rewrite IH by exact H.
    rewrite E, D by lia. reflexivity.
  - rewrite shr_1_m by exact H. now rewrite Z.pow_1_r.
Qed.

Lemma digits2_pos_lower (m : positive) :
  (2 ^ (Zpos (digits2_pos m) - 1) <= Zpos m)%Z.
Proof.
  induction m as [m IH|m IH|]; cbn [digits2_pos].
  - replace (Zpos (Pos.succ (digits2_pos m)) - 1)%Z
      with (Z.succ (Zpos (digits2_pos m) - 1))%Z by lia.
    rewrite Z.pow_succ_r by lia.
    change (Zpos m~1) with (2 * Zpos m + 1)%Z. lia.
  - replace (Zpos (Pos.succ (digits2_pos m)) - 1)%Z
      with (Z.succ (Zpos (digits2_pos m) - 1))%Z by lia.
    rewrite Z.pow_succ_r by lia.
    change (Zpos m~0) with (2 * Zpos m)%Z. lia.
  - simpl. lia.
Qed.

Lemma shr_record_of_loc_m (m : Z) (l : location) :
  shr_m (shr_record_of_loc m l) = m.
Proof. now destruct l as [|[| |]]. Qed.

(** Shifting a positive mantissa into the format leaves it positive. *)
Lemma shr_fexp_pos (m : positive) (e : Z) (l : location) :
  (emin prec emax <= e)%Z ->
  exists m', shr_m (fst (shr_fexp prec emax (Zpos m) e l)) = Zpos m'
             /\ (emin prec emax <= snd (shr_fexp prec emax (Zpos m) e l))%Z.
Proof.
  intros He. unfold shr_fexp, shr. simpl Zdigits2.
  set (n := (fexp prec emax (Zpos (digits2_pos m) + e) - e)%Z).
  assert (Hn : (n <= Zpos (digits2_pos m) - 1)%Z).
  { subst n. unfold fexp, emin, prec, emax in *. lia. }
  destruct n as [|p|p] eqn:En; simpl fst; simpl snd.
  - exists m. split; [apply shr_record_of_loc_m | exact He].
  - rewrite iter_shr_1_m by (rewrite shr_record_of_loc_m; lia).
    rewrite shr_record_of_loc_m.
    assert (P : (0 < 2 ^ Zpos p)%Z) by (apply Z.pow_pos_nonneg; lia).
    assert (L : (1 <= Zpos m / 2 ^ Zpos p)%Z).
    { apply Z.div_le_lower_bound; [exact P|].
      pose proof (digits2_pos_lower m) as D.
      assert ((2 ^ Zpos p <= 2 ^ (Zpos (digits2_pos m) - 1))%Z)
        by (apply Z.pow_le_mono_r; lia).
      lia. }
    destruct (Zpos m / 2 ^ Zpos p)%Z as [|q|q] eqn:Eq; try lia.
    exists q. split; [reflexivity | lia].
  - exists m. split; [apply shr_record_of_loc_m | exact He].
Qed.

(** Rounding a positive mantissa gives a number of the sign asked for,
    finite or infinite: never a zero and never NaN. *)
Lemma binary_round_aux_pos (sx : bool) (m : positive) (e : Z) (l : location) :
  (emin prec emax <= e)%Z ->
  (exists m' e', binary_round_aux prec emax sx (Zpos m) e l
                 = S754_finite sx m' e')
  \/ binary_round_aux prec emax sx (Zpos m) e l = S754_infinity sx.
Proof.
  intros He. unfold binary_round_aux.
  destruct (shr_fexp_pos m e l He) as (m1 & H1 & He1).
  destruct (shr_fexp prec emax (Zpos m) e l) as [mrs' e'].
  simpl fst in H1. simpl snd in He1.
  assert (R : exists m2,
             round_nearest_even (shr_m mrs') (loc_of_shr_record mrs')
             = Zpos m2).
  { rewrite H1. unfold round_nearest_even.
    destruct (loc_of_shr_record mrs') as [|[| |]]; try (now exists m1).
    - destruct (Z.even (Zpos m1)); [now exists m1|].
      exists (m1 + 1)%positive. reflexivity.
    - exists (m1 + 1)%positive. reflexivity. }
  destruct R as (m2 & ->).
  destruct (shr_fexp_pos m2 e' loc_Exact He1) as (m3 & H3 & _).
  destruct (shr_fexp prec emax (Zpos m2) e' loc_Exact) as [mrs'' e''].
  simpl fst in H3. rewrite H3.
  destruct (e'' <=? emax - prec)%Z; [left; eauto | right; reflexivity].
Qed.

Lemma of_Z_pos (n : Z) :
  (0 < n)%Z ->
  (exists m e, of_Z n = S754_finite false m e)
  \/ of_Z n = S754_infinity false.
Proof.
  intros H. destruct n as [|p|p]; try lia.
  unfold of_Z, binary_normalize, binary_round.
  destruct (shl_align p 0 (fexp prec emax (Zpos (digits2_pos p) + 0)))
    as [mz ez] eqn:E.
  apply binary_round_aux_pos.
  unfold shl_align in E.
  destruct (fexp prec emax (Zpos (digits2_pos p) + 0) - 0)%Z eqn:F;
    injection E as <- <-; unfold fexp, emin, prec, emax in *; lia.
Qed.

Lemma fdiv_zero_of_Z (n : Z) : (0 < n)%Z -> fdiv zero (of_Z n) = zero.
Proof.
  intros H. destruct (of_Z_pos n H) as [(m & e & ->)| ->]; reflexivity.
Qed.

Lemma fold_fadd_nan (f : list nat -> float) (l : list (list nat)) :
  fold_left (fun acc idx => fadd acc (f idx)) l nan = nan.
Proof. induction l as [|idx l IH]; simpl; [reflexivity | exact IH]. Qed.

Lemma sum_over_all_zero (f : list nat -> float) (l : list (list nat)) :
  (forall idx, In idx l -> f idx = zero) -> sum_over f l = zero.
Proof.
  unfold sum_over. induction l as [|idx l IH]; simpl; intros H.
  - reflexivity.
  - rewrite (H idx) by now left. simpl. apply IH.
    intros idx' Hin. apply H. now right.
Qed.

Lemma sum_over_some_nan (f : list nat -> float) (l : list (list nat))
    (idx : list nat) :
  In idx l -> f idx = nan -> sum_over f l = nan.
Proof.
  unfold sum_over. generalize zero.
  induction l as [|idx' l IH]; intros acc Hin Hf; simpl; [contradiction|].
  destruct Hin as [->|Hin].
  - rewrite Hf, fadd_nan_r. apply fold_fadd_nan.
  - now apply IH.
Qed.

Lemma forallb_false {A} (f : A -> bool) (l : list A) :
  forallb f l = false -> exists x, In x l /\ f x = false.
Proof.
  induction l as [|a l IH]; simpl; [discriminate|].
  destruct (f a) eqn:E; simpl.
  - intros H. destruct (IH H) as (x & Hx & Fx). exists x. auto.
  - intros _. exists a. auto.
Qed.

Lemma indices_in_range (s idx : list nat) :
  In idx (indices s) -> Forall2 lt idx s.
Proof.
  revert idx. induction s as [|d s IH]; intros idx; simpl.
  - intros [<-|[]]. constructor.
  - rewrite in_flat_map. intros (i & Hi & Hin).
    apply in_map_iff in Hin. destruct Hin as (idx' & <- & Hin').
    apply in_seq in Hi. constructor; [lia | now apply IH].
Qed.

(** The loss of a tensor against itself. *)
Lemma mse_loss_same (d : tensor) :
  (0 < numel d)%nat ->
  mse_loss d d = Ok (if all_finite d then zero else nan).
Proof.
  intros Hpos. unfold mse_loss, sub, binop.
  rewrite broadcast_shapes_same. cbn [rbind shape data].
  f_equal.
  assert (T : forall idx, In idx (indices (shape d)) ->
              fmul (fsub (data d (bindex (shape d) idx))
                         (data d (bindex (shape d) idx)))
                   (fsub (data d (bindex (shape d) idx))
                         (data d (bindex (shape d) idx)))
              = if is_finite (data d idx) then zero else nan).
  { intros idx Hin.
    rewrite (bindex_in_range _ _ (indices_in_range _ _ Hin)), fsub_same.
    now destruct (is_finite (data d idx)). }
  unfold all_finite.
  destruct (forallb (fun idx => is_finite (data d idx)) (indices (shape d)))
    eqn:A.
  - rewrite sum_over_all_zero.
    + apply fdiv_zero_of_Z. unfold numel in *. cbn [shape]. lia.
    + intros idx Hin. rewrite (T idx Hin).
      rewrite forallb_forall in A. now rewrite (A idx Hin).
  - destruct (forallb_false _ _ A) as (idx & Hin & Hf).
    rewrite (sum_over_some_nan _ _ idx Hin).
    + reflexivity.
    + rewrite (T idx Hin). now rewrite Hf.
Qed.

(** With the pivot in range, decentering keeps the shape. *)
Lemma decent_ok (t : tensor) (ran_idx f : nat) :
  (4 < length (shape t))%nat ->
  nth_error (shape t) 2 = Some f -> (ran_idx < f)%nat ->
  exists t', decent t ran_idx = Ok t' /\ shape t' = shape t.
Proof.
  intros Hrank Hf Hlt. unfold decent, slice5, select.
  destruct (length (shape t) <? 5)%nat eqn:E5;
    [apply Nat.ltb_lt in E5; lia|].
  rewrite Hf. apply Nat.ltb_lt in Hlt. rewrite Hlt. cbn [rbind].
  unfold sub, binop. cbn [shape smul unsqueeze].
  rewrite broadcast_shapes_narrow.
  - eexists. split; reflexivity.
  - apply Forall2_narrow_unsqueeze. lia.
Qed.

Lemma create_ad_temporal_loss_same
    (model_pred : tensor) (loss_temporal : float) (draw : nat) :
  (4 < length (shape model_pred))%nat ->
  (0 < numel model_pred)%nat ->
  exists frames d,
    dim 2 model_pred = Ok frames
    /\ decent model_pred (draw mod frames) = Ok d
    /\ shape d = shape model_pred
    /\ mse_loss d d = Ok (if all_finite d then zero else nan)
    /\ create_ad_temporal_loss model_pred loss_temporal model_pred draw
       = Ok (if all_finite d then fadd loss_temporal zero else nan).
Proof.
  intros Hrank Hpos.
  destruct (nth_error (shape model_pred) 2) as [f|] eqn:Hf.
  2:{ apply nth_error_None in Hf. lia. }
  assert (Hfpos : (0 < f)%nat) by exact (numel_pos_dims _ _ _ Hpos Hf).
  destruct (randint_pos f draw Hfpos) as [Hr Hlt].
  destruct (decent_ok model_pred _ f Hrank Hf Hlt) as (d & Hd & Hs).
  assert (Hposd : (0 < numel d)%nat) by (unfold numel in *; now rewrite Hs).
  exists f, d. split; [unfold dim; now rewrite Hf|].
  split; [exact Hd|]. split; [exact Hs|].
  split; [now apply mse_loss_same|].
  unfold create_ad_temporal_loss, dim. rewrite Hf. cbn [rbind].
  rewrite Hr. cbn [rbind]. rewrite Hd. cbn [rbind].
  rewrite (mse_loss_same d Hposd). cbn [rbind].
  destruct (all_finite d); [reflexivity|]. now rewrite fadd_nan_r.
Qed.

End Float32Facts.

(** ** The decentered temporal loss on equal tensors *)

(** C2 (corrected): beta is 1 and alpha is [(beta ** 2 + 1) ** 0.5], the
    binary64 number nearest to the square root of 2, which multiplies a
    float32 tensor as 11863283 * 2^-23.  In binary32 arithmetic [x - x]
    is +0 for a finite [x] and NaN otherwise.  So when [model_pred] and
    [target] are the same float32 tensor (of at least five dimensions
    and with at least one entry), for every pivot frame the two
    decentered tensors are one tensor [d], and: if every entry of [d]
    is finite, the decentered term is +0 and create_ad_temporal_loss
    returns [loss_temporal + 0.0], which is [loss_temporal] itself
    (+0.0 for a [loss_temporal] of -0.0); if an entry of [d] is
    infinite or NaN, the decentered term is NaN and so is the value
    returned. *)
Theorem ad_temporal_loss_equal_float_tensors
    (model_pred : Float32.tensor) (loss_temporal : Float32.float) :
  (4 < length (Float32.shape model_pred))%nat ->
  (0 < Float32.numel model_pred)%nat ->
  Float32.beta = 1%Z
  /\ Float32.alpha64
     = SpecFloat.S754_finite false 6369051672525773 (-52)
  /\ ((2 * 6369051672525773 - 1) ^ 2 < 2 * (2 ^ 53) ^ 2
      < (2 * 6369051672525773 + 1) ^ 2)%Z
  /\ Float32.alpha = SpecFloat.S754_finite false 11863283 (-23)
  /\ (forall x,
         Float32.fsub x x
         = if Float32.is_finite x then Float32.zero else Float32.nan)
  /\ forall draw, exists frames d r,
       Float32.dim 2 model_pred = Ok frames
       /\ Float32.decent model_pred (draw mod frames) = Ok d
       /\ Float32.shape d = Float32.shape model_pred
       /\ Float32.create_ad_temporal_loss model_pred loss_temporal
                                          model_pred draw
          = Ok r
       /\ if Float32.all_finite d
          then Float32.mse_loss d d = Ok Float32.zero
               /\ r = Float32.fadd loss_temporal Float32.zero
               /\ (r = loss_temporal
                   \/ (loss_temporal = Float32.neg_zero
                       /\ r = Float32.zero))
          else Float32.mse_loss d d = Ok Float32.nan /\ r = Float32.nan.
Proof.
  intros Hrank Hpos.
  split; [reflexivity|]. split; [vm_compute; reflexivity|].
  split; [split; vm_compute; reflexivity|].
  split; [vm_compute; reflexivity|].
  split; [exact Float32Facts.fsub_same|].
  intros draw.
  destruct (Float32Facts.create_ad_temporal_loss_same
              model_pred loss_temporal draw Hrank Hpos)
    as (frames & d & Hdim & Hd & Hs & Hm & Hr).
  exists frames, d.
  exists (if Float32.all_finite d
          then Float32.fadd loss_temporal Float32.zero else Float32.nan).
  split; [exact Hdim|]. split; [exact Hd|]. split; [exact Hs|].
  split; [exact Hr|].
  destruct (Float32.all_finite d).
  - split; [exact Hm|]. split; [reflexivity|].
    destruct (Float32Facts.fadd_zero_r loss_temporal) as [E|[E1 E2]];
      [left; exact E | right; split; assumption].
  - split; [exact Hm | reflexivity].
Qed.

Lemma ad_temporal_loss_equal_float_tensors_witness :
  (4 < length (Float32.shape (Float32.constant_clip (Float32.of_Z 3))))%nat
  /\ (0 < Float32.numel (Float32.constant_clip (Float32.of_Z 3)))%nat
  /\ Float32.create_ad_temporal_loss
       (Float32.constant_clip (Float32.of_Z 3)) (Float32.of_Z 5)
       (Float32.constant_clip (Float32.of_Z 3)) 1
     = Ok (Float32.of_Z 5)
  /\ forall draw, exists frames d r,
       Float32.dim 2 (Float32.constant_clip (Float32.of_Z 3)) = Ok frames
       /\ Float32.decent (Float32.constant_clip (Float32.of_Z 3))
                         (draw mod frames)
          = Ok d
       /\ Float32.shape d
          = Float32.shape (Float32.constant_clip (Float32.of_Z 3))
       /\ Float32.create_ad_temporal_loss
            (Float32.constant_clip (Float32.of_Z 3)) (Float32.of_Z 5)
            (Float32.constant_clip (Float32.of_Z 3)) draw
          = Ok r
       /\ if Float32.all_finite d
          then Float32.mse_loss d d = Ok Float32.zero
               /\ r = Float32.fadd (Float32.of_Z 5) Float32.zero
               /\ (r = Float32.of_Z 5
                   \/ (Float32.of_Z 5 = Float32.neg_zero
                       /\ r = Float32.zero))
          else Float32.mse_loss d d = Ok Float32.nan /\ r = Float32.nan.
Proof.
  assert (H1 : (4 < length (Float32.shape
                              (Float32.constant_clip (Float32.of_Z 3))))%nat)
    by (simpl; lia).
  assert (H2 : (0 < Float32.numel
                      (Float32.constant_clip (Float32.of_Z 3)))%nat)
    by (unfold Float32.numel; simpl; lia).
  split; [exact H1|]. split; [exact H2|].
  split; [vm_compute; reflexivity|].
  exact (proj2 (proj2 (proj2 (proj2 (proj2
    (ad_temporal_loss_equal_float_tensors
       (Float32.constant_clip (Float32.of_Z 3)) (Float32.of_Z 5)
       H1 H2)))))).
Defined.

(** C2 as stated fails: on a float32 clip whose entries are all 3e38,
    a finite number, the product with alpha overflows to infinity in
    both decentered tensors, their difference is NaN, and
    create_ad_temporal_loss called with the clip as prediction and as
    target returns NaN, not the [loss_temporal] of 5 it was given. *)
Lemma equal_float_tensors_give_nan :
  Float32.all_finite (Float32.constant_clip (Float32.of_Z (3 * 10 ^ 38)))
  = true
  /\ Float32.fmul Float32.alpha (Float32.of_Z (3 * 10 ^ 38))
     = SpecFloat.S754_infinity false
  /\ Float32.create_ad_temporal_loss
       (Float32.constant_clip (Float32.of_Z (3 * 10 ^ 38))) (Float32.of_Z 5)
       (Float32.constant_clip (Float32.of_Z (3 * 10 ^ 38))) 0
     = Ok Float32.nan
  /\ Float32.nan <> Float32.of_Z 5.
Proof.
  split; [vm_compute; reflexivity|]. split; [vm_compute; reflexivity|].
  split; [vm_compute; reflexivity|]. vm_compute. discriminate.
Qed.
